(** * A shallow embedding of the no-name backend

    The development follows the TypeScript sources:
    - [common/decorators/pagination.decorator.ts] (both variants of
      [Pagination]),
    - [common/helpers/query.helper.ts] ([QueryHelper]),
    - [common/interceptors/pagination.interceptor.ts],
    - [modules/user/user.service.ts] (the soft-delete variant and the earlier
      hard-delete variant) and the list route of [user.controller.ts],
    - [common/dto/pagination-query.dto.ts] (the validators of
      [PaginationDto] on [page] and [limit]),
    - [modules/role/role.service.ts],
    - [modules/file/files.service.ts] and [files.controller.ts].

    Definitions come first (one module per source file), the theorems
    follow. *)

From Stdlib Require Import ZArith QArith Qround Ascii String.
From Stdlib Require Import DecimalString DecimalN.
From stdpp Require Import base option list gmap strings sorting.

Local Open Scope Z_scope.

(* ===================================================================== *)
(** * JavaScript values used by the sources *)
(* ===================================================================== *)

(** A JavaScript string is the sequence of its UTF-16 code units. *)
Abbreviation jsstring := (list N).

(** String literals of the sources. *)
Definition str (s : string) : jsstring :=
  (fun a => N.of_nat (nat_of_ascii a)) <$> String.list_ascii_of_string s.

(** Every number the modelled code handles is integer valued or one of the
    special IEEE values.  Integers are kept exact: the rounding of doubles
    beyond 2^53 is not modelled, and [-0] is identified with [0] (they
    compare equal, and both are falsy). *)
Inductive jsnum : Type :=
| JNum (z : Z)
| JNaN
| JPosInf
| JNegInf.

#[global] Instance jsnum_eq_dec : EqDecision jsnum.
Proof. solve_decision. Defined.

Module Js.

(** [a < b]; every comparison with [NaN] is false. *)
Definition lt (a b : jsnum) : bool :=
  match a, b with
  | JNaN, _ | _, JNaN => false
  | JNum x, JNum y => x <? y
  | JNegInf, JNegInf => false
  | JNegInf, _ => true
  | _, JNegInf => false
  | JPosInf, _ => false
  | JNum _, JPosInf => true
  end.

Definition gt (a b : jsnum) : bool := lt b a.

(** [a <= b]. *)
Definition le (a b : jsnum) : bool :=
  match a, b with
  | JNaN, _ | _, JNaN => false
  | JNum x, JNum y => x <=? y
  | JNegInf, _ => true
  | _, JPosInf => true
  | _, _ => false
  end.

Definition ge (a b : jsnum) : bool := le b a.

Definition neg (a : jsnum) : jsnum :=
  match a with
  | JNum x => JNum (- x)
  | JNaN => JNaN
  | JPosInf => JNegInf
  | JNegInf => JPosInf
  end.

Definition add (a b : jsnum) : jsnum :=
  match a, b with
  | JNaN, _ | _, JNaN => JNaN
  | JNum x, JNum y => JNum (x + y)
  | JPosInf, JNegInf | JNegInf, JPosInf => JNaN
  | JPosInf, _ | _, JPosInf => JPosInf
  | JNegInf, _ | _, JNegInf => JNegInf
  end.

Definition sub (a b : jsnum) : jsnum := add a (neg b).

(** Sign of a number, [None] for [NaN]. *)
Definition sgn (a : jsnum) : option Z :=
  match a with
  | JNum x => Some (Z.sgn x)
  | JNaN => None
  | JPosInf => Some 1
  | JNegInf => Some (-1)
  end.

Definition mul (a b : jsnum) : jsnum :=
  match a, b with
  | JNum x, JNum y => JNum (x * y)
  | _, _ =>
      match sgn a, sgn b with
      | Some sa, Some sb =>
          if sa * sb =? 0 then JNaN
          else if 0 <? sa * sb then JPosInf else JNegInf
      | _, _ => JNaN
      end
  end.

(** [Math.max(a, b)] and [Math.min(a, b)]: [NaN] if either is [NaN]. *)
Definition max (a b : jsnum) : jsnum :=
  match a, b with
  | JNaN, _ | _, JNaN => JNaN
  | _, _ => if lt a b then b else a
  end.

Definition min (a b : jsnum) : jsnum :=
  match a, b with
  | JNaN, _ | _, JNaN => JNaN
  | _, _ => if lt b a then b else a
  end.

(** [Math.ceil(a / b)].  The quotient of two integers is not an integer,
    so the division and the rounding are modelled together.  For finite
    operands and [b <> 0] the result is the least integer not below the
    quotient, computed with the floor division of [Z]. *)
Definition ceil_div (a b : jsnum) : jsnum :=
  match a, b with
  | JNaN, _ | _, JNaN => JNaN
  | JNum x, JNum y =>
      if y =? 0 then
        (if x =? 0 then JNaN else if 0 <? x then JPosInf else JNegInf)
      else JNum (- ((- x) / y))
  | JNum _, _ => JNum 0
  | _, JNum y =>
      match a with
      | JPosInf => if y <? 0 then JNegInf else JPosInf
      | _ => if y <? 0 then JPosInf else JNegInf
      end
  | _, _ => JNaN
  end.

(** Truthiness of a number: [0] and [NaN] are falsy. *)
Definition truthy (a : jsnum) : bool :=
  match a with
  | JNum x => negb (x =? 0)
  | JNaN => false
  | _ => true
  end.

(** [x || d] for an optional number [x]. *)
Definition num_or (x : option jsnum) (d : jsnum) : jsnum :=
  match x with
  | Some a => if truthy a then a else d
  | None => d
  end.

(** [x || d] for an optional string [x]: the empty string is falsy. *)
Definition str_or (x : option jsstring) (d : jsstring) : jsstring :=
  match x with
  | Some [] | None => d
  | Some s => s
  end.

(** Truthiness of an optional string. *)
Definition str_truthy (x : option jsstring) : bool :=
  match x with
  | Some [] | None => false
  | Some _ => true
  end.

(** ** [parseInt(s, 10)] *)

(** [StrWhiteSpaceChar]: white space and line terminators. *)
Definition is_white_space (c : N) : bool :=
  (((9 <=? c) && (c <=? 13)) || (c =? 32) || (c =? 160) || (c =? 5760)
   || ((8192 <=? c) && (c <=? 8202)) || (c =? 8232) || (c =? 8233)
   || (c =? 8239) || (c =? 8287) || (c =? 12288) || (c =? 65279))%N.

Definition digit_value (c : N) : option Z :=
  if ((48 <=? c) && (c <=? 57))%N then Some (Z.of_N (c - 48)) else None.

Fixpoint trim_start (s : jsstring) : jsstring :=
  match s with
  | c :: s' => if is_white_space c then trim_start s' else s
  | [] => []
  end.

(** The value of the longest prefix of decimal digits, [None] when that
    prefix is empty. *)
Fixpoint digits_prefix (acc : option Z) (s : jsstring) : option Z :=
  match s with
  | c :: s' =>
      match digit_value c with
      | Some d => digits_prefix (Some (default 0 acc * 10 + d)) s'
      | None => acc
      end
  | [] => acc
  end.

Definition parseInt (s : jsstring) : jsnum :=
  let s1 := trim_start s in
  let '(sign, s2) :=
    match s1 with
    | 45%N :: r => (-1, r)
    | 43%N :: r => (1, r)
    | _ => (1, s1)
    end in
  match digits_prefix None s2 with
  | Some v => JNum (sign * v)
  | None => JNaN
  end.

(** ** [String.prototype.includes] *)

Fixpoint starts_with (p s : jsstring) : bool :=
  match p, s with
  | [], _ => true
  | _ :: _, [] => false
  | a :: p', b :: s' => (a =? b)%N && starts_with p' s'
  end.

Fixpoint includes (s p : jsstring) : bool :=
  starts_with p s ||
  match s with
  | [] => false
  | _ :: s' => includes s' p
  end.

(** [s <= t]: strings are compared by code units. *)
Fixpoint text_leb (s t : jsstring) : bool :=
  match s, t with
  | [], _ => true
  | _ :: _, [] => false
  | a :: s', b :: t' => ((a <? b) || ((a =? b) && text_leb s' t'))%N
  end.

(** [Number.prototype.toString] of a non-negative integer. *)
Definition Number_toString (n : N) : jsstring :=
  str (NilEmpty.string_of_uint (N.to_uint n)).

End Js.

(** The parsed query string of a request: the keys the client sent.  A
    value that is not a string (a repeated or bracketed key) reaches
    [parseInt] through [ToString], so it is represented by that string. *)
Abbreviation Query := (gmap jsstring jsstring).

(* ===================================================================== *)
(** * common/decorators/pagination.decorator.ts *)
(* ===================================================================== *)

Module PaginationV1.

Record PaginationParams : Type := mkParams {
  page : jsnum;
  limit : jsnum;
  skip : jsnum
}.

Definition Pagination (query : Query) : PaginationParams :=
  let page := Js.parseInt (Js.str_or (query !! str "page") (str "1")) in
  let limit := Js.parseInt (Js.str_or (query !! str "limit") (str "10")) in
  (* Ensure page is at least 1 *)
  let validPage := if Js.lt page (JNum 1) then JNum 1 else page in
  (* Ensure limit is between 1 and 100 *)
  let validLimit :=
    if Js.lt limit (JNum 1) then JNum 10
    else if Js.gt limit (JNum 100) then JNum 100 else limit in
  {| page := validPage;
     limit := validLimit;
     skip := Js.mul (Js.sub validPage (JNum 1)) validLimit |}.

End PaginationV1.

Inductive SortOrder : Type := ASC | DESC.

#[global] Instance SortOrder_eq_dec : EqDecision SortOrder.
Proof. solve_decision. Defined.

Module PaginationV2.

Record PaginationParams : Type := mkParams {
  page : jsnum;
  limit : jsnum;
  skip : jsnum;
  sort : option jsstring;
  order : SortOrder;
  search : option jsstring;
  filters : option Query
}.

Definition reservedKeys : list jsstring :=
  [str "page"; str "limit"; str "sort"; str "order"; str "search"].

Definition Pagination (query : Query) : PaginationParams :=
  let page :=
    Js.max (JNum 1)
      (Js.parseInt (Js.str_or (query !! str "page") (str "1"))) in
  let limit :=
    Js.max (JNum 1)
      (Js.min (JNum 100)
         (Js.parseInt (Js.str_or (query !! str "limit") (str "10")))) in
  let filters : Query :=
    filter (fun kv => kv.1 ∉ reservedKeys) query in
  {| page := page;
     limit := limit;
     skip := Js.mul (Js.sub page (JNum 1)) limit;
     sort := query !! str "sort";
     order := if decide (query !! str "order" = Some (str "asc"))
              then ASC else DESC;
     search := query !! str "search";
     filters := if decide (0 < size filters)%nat
                then Some filters else None |}.

End PaginationV2.

(* ===================================================================== *)
(** * common/helpers/query.helper.ts *)
(* ===================================================================== *)

Module QueryHelper.

Record PaginationMeta : Type := mkMeta {
  page : jsnum;
  limit : jsnum;
  total : jsnum;
  totalPages : jsnum;
  hasNextPage : bool;
  hasPreviousPage : bool
}.

Record PaginationOptions : Type := mkOptions {
  opt_page : jsnum;
  opt_limit : jsnum;
  opt_skip : jsnum
}.

Definition getPaginationOptions (dto_page dto_limit : option jsnum)
  : PaginationOptions :=
  let page := Js.num_or dto_page (JNum 1) in
  let limit := Js.num_or dto_limit (JNum 10) in
  let skip := Js.mul (Js.sub page (JNum 1)) limit in
  {| opt_page := page; opt_limit := limit; opt_skip := skip |}.

Definition buildMeta (page limit total : jsnum) : PaginationMeta :=
  let totalPages := Js.ceil_div total limit in
  {| page := page;
     limit := limit;
     total := total;
     totalPages := totalPages;
     hasNextPage := Js.lt page totalPages;
     hasPreviousPage := Js.gt page (JNum 1) |}.

(** [{ [sortBy]: sortOrder }], with [createdAt] when no field is given;
    [sortOrder] defaults to ['desc']. *)
Definition buildOrderBy (sortBy : option jsstring)
    (sortOrder : option SortOrder) : jsstring * SortOrder :=
  let sortOrder := default DESC sortOrder in
  if Js.str_truthy sortBy
  then (default [] sortBy, sortOrder)
  else (str "createdAt", sortOrder).

(** The search clause: [None] is the empty object [{}], [Some (fs, t)] is
    [{ OR: fs.map(f => ({ [f]: { contains: t, mode: 'insensitive' } })) }]. *)
Definition buildSearchWhere (searchTerm : option jsstring)
    (fields : list jsstring) : option (list jsstring * jsstring) :=
  if negb (Js.str_truthy searchTerm) || (length fields =? 0)%nat
  then None
  else Some (fields, default [] searchTerm).

End QueryHelper.

(* ===================================================================== *)
(** * common/interceptors/pagination.interceptor.ts *)
(* ===================================================================== *)

Module PaginationInterceptor.

Section Intercept.

(** [T] is the type of the listed items, [Other] the type of the
    handler results that are neither paginated nor arrays. *)
Context {T Other : Type}.

(** A handler result that has both a [data] and a [total] key; any of
    its values may be [undefined]. *)
Record PaginationResponse : Type := mkResponse {
  resp_data : option (list T);
  resp_total : option jsnum;
  resp_page : option jsnum;
  resp_totalPages : option jsnum
}.

Inductive Response : Type :=
| RPaginated (r : PaginationResponse)
| RArray (items : list T)
| ROther (o : Other).

Record PaginatedResult : Type := mkResult {
  res_data : list T;
  res_meta : QueryHelper.PaginationMeta
}.

Inductive Output : Type :=
| OPaginated (r : PaginatedResult)
| OAsIs (o : Other).

Definition intercept (query : Query) (response : Response) : Output :=
  let page := Js.parseInt (Js.str_or (query !! str "page") (str "1")) in
  let limit :=
    Js.parseInt (Js.str_or (query !! str "limit") (str "10")) in
  match response with
  | RPaginated r =>
      let currentPage := Js.num_or (resp_page r) page in
      let totalCount := Js.num_or (resp_total r) (JNum 0) in
      let total_pages :=
        Js.num_or (resp_totalPages r) (Js.ceil_div totalCount limit) in
      OPaginated
        {| res_data := default [] (resp_data r);
           res_meta :=
             {| QueryHelper.total := totalCount;
                QueryHelper.page := currentPage;
                QueryHelper.limit := limit;
                QueryHelper.totalPages := total_pages;
                QueryHelper.hasNextPage := Js.lt currentPage total_pages;
                QueryHelper.hasPreviousPage :=
                  Js.gt currentPage (JNum 1) |} |}
  | RArray items =>
      OPaginated
        {| res_data := items;
           res_meta :=
             {| QueryHelper.total := JNum (Z.of_nat (length items));
                QueryHelper.page := page;
                QueryHelper.limit := limit;
                QueryHelper.totalPages := JNum 1;
                QueryHelper.hasNextPage := false;
                QueryHelper.hasPreviousPage := false |} |}
  | ROther o => OAsIs o
  end.

End Intercept.

Arguments PaginationResponse : clear implicits.
Arguments Response : clear implicits.
Arguments PaginatedResult : clear implicits.
Arguments Output : clear implicits.

End PaginationInterceptor.

(* ===================================================================== *)
(** * Exceptions and the state-and-exception monad of the services *)
(* ===================================================================== *)

(** Errors of the persistence client. *)
Inductive PrismaError : Type :=
| P2002   (* unique constraint failed *)
| P2025   (* record to update or delete not found *)
| PValidation.  (* invalid query argument *)

(** Errors of the object-store client. *)
Inductive S3Error : Type :=
| S3NotFound     (* [error.code === 'NotFound'] *)
| S3Transport    (* any other failure of the store *)
| InvalidObjectNameError.   (* thrown by the client before any request *)

#[global] Instance PrismaError_eq_dec : EqDecision PrismaError.
Proof. solve_decision. Defined.

#[global] Instance S3Error_eq_dec : EqDecision S3Error.
Proof. solve_decision. Defined.

Inductive Exception : Type :=
| NotFoundException
| ConflictException
| InternalServerErrorException
| PrismaClientError (e : PrismaError)
| MinioError (e : S3Error).

#[global] Instance Exception_eq_dec : EqDecision Exception.
Proof. solve_decision. Defined.

(** A computation over a store of type [S]: it returns a value or throws,
    and in both cases leaves a store behind. *)
Definition M (S A : Type) : Type := S -> (Exception + A) * S.

Definition throw {S A : Type} (e : Exception) : M S A :=
  fun s => (inl e, s).

(** [try { body } catch (error) { handler(error) }] *)
Definition try_catch {S A : Type} (body : M S A)
    (handler : Exception -> M S A) : M S A :=
  fun s =>
    match body s with
    | (inl e, s') => handler e s'
    | (inr a, s') => (inr a, s')
    end.

#[global] Instance M_ret {S : Type} : MRet (M S) :=
  fun A a s => (inr a, s).

#[global] Instance M_bind {S : Type} : MBind (M S) :=
  fun A B k m s =>
    match m s with
    | (inl e, s') => (inl e, s')
    | (inr a, s') => k a s'
    end.

(** Read and replace the store. *)
Definition get_store {S : Type} : M S S := fun s => (inr s, s).
Definition put_store {S : Type} (s : S) : M S unit := fun _ => (inr tt, s).

(* ===================================================================== *)
(** * The database *)
(* ===================================================================== *)

(** What the sources leave to the database.

    [ILIKE value pattern] is the answer of PostgreSQL's
    [value ILIKE pattern]: which letters it folds depends on the locale
    of the database.

    [scan query rows] is the order in which the rows of a table reach a
    query: a query returns the rows that its [ORDER BY] does not tell
    apart, and all its rows when it has none, in this order.  It is a
    permutation of the table, of the database's choosing, and need not be
    the same for two queries; [query] is what tells them apart. *)
Class Database : Type := {
  ILIKE : jsstring -> jsstring -> bool;
  scan : forall {Q A : Type}, Q -> list A -> list A;
  scan_Permutation :
    forall (Q A : Type) (query : Q) (rows : list A),
      Permutation (scan query rows) rows
}.

(** [value LIKE pattern]: [%] stands for any sequence of characters, [_]
    for any one character, and [\] takes the character after it as it
    is.  (A pattern that ends in a lone [\] is an error in PostgreSQL;
    no pattern the services build does.) *)
Fixpoint LIKE (pattern value : jsstring) : bool :=
  match pattern with
  | [] => match value with [] => true | _ => false end
  | p :: pattern' =>
      if (p =? 37)%N then
        (fix any (value : jsstring) : bool :=
           LIKE pattern' value
           || match value with
              | [] => false
              | _ :: value' => any value'
              end) value
      else if (p =? 95)%N then
        match value with
        | [] => false
        | _ :: value' => LIKE pattern' value'
        end
      else if (p =? 92)%N then
        match pattern', value with
        | q :: pattern'', c :: value' => (q =? c)%N && LIKE pattern'' value'
        | _, _ => false
        end
      else
        match value with
        | [] => false
        | c :: value' => (p =? c)%N && LIKE pattern' value'
        end
  end.

(** The lower case of an ASCII letter. *)
Definition lower (c : N) : N :=
  if ((65 <=? c) && (c <=? 90))%N then (c + 32)%N else c.

(** The database of the examples: its locale is C, where [ILIKE] folds
    the ASCII letters only, and it scans every table in the order of
    insertion. *)
Definition database0 : Database :=
  {| ILIKE value pattern := LIKE (lower <$> pattern) (lower <$> value);
     scan _ _ _ rows := rows;
     scan_Permutation _ _ _ rows := Permutation_refl rows |}.

(* ===================================================================== *)
(** * The [users] table and its persistence client *)
(* ===================================================================== *)

Inductive UserStatus : Type := ACTIVE | INACTIVE | SUSPENDED | PENDING.

#[global] Instance UserStatus_eq_dec : EqDecision UserStatus.
Proof. solve_decision. Defined.

Definition UserStatus_name (s : UserStatus) : jsstring :=
  match s with
  | ACTIVE => str "ACTIVE"
  | INACTIVE => str "INACTIVE"
  | SUSPENDED => str "SUSPENDED"
  | PENDING => str "PENDING"
  end.

(** A row of [users].  Dates are milliseconds since the epoch. *)
Module User.
Record t : Type := mk {
  id : jsstring;
  email : jsstring;
  name : option jsstring;
  password : jsstring;
  status : UserStatus;
  deletedAt : option Z;
  createdAt : Z;
  updatedAt : Z
}.
End User.

#[global] Instance User_eq_dec : EqDecision User.t.
Proof. solve_decision. Defined.

(** The values found in the properties of a user object. *)
Inductive jsval : Type :=
| VString (s : jsstring)
| VDate (ms : Z)
| VNull.

#[global] Instance jsval_eq_dec : EqDecision jsval.
Proof. solve_decision. Defined.

(** A JavaScript object: its own properties. *)
Abbreviation jsobject := (gmap string jsval).

Definition nullable {A : Type} (f : A -> jsval) (x : option A) : jsval :=
  match x with
  | Some a => f a
  | None => VNull
  end.

(** The object the persistence client returns for a row. *)
Definition User_object (u : User.t) : jsobject :=
  <["id" := VString (User.id u)]>
  (<["email" := VString (User.email u)]>
  (<["name" := nullable VString (User.name u)]>
  (<["password" := VString (User.password u)]>
  (<["status" := VString (UserStatus_name (User.status u))]>
  (<["deletedAt" := nullable VDate (User.deletedAt u)]>
  (<["createdAt" := VDate (User.createdAt u)]>
  (<["updatedAt" := VDate (User.updatedAt u)]> ∅))))))).

(** What the services take from their environment: the clock, the
    identifier the database generates for a new row, and bcrypt. *)
Record Env : Type := mkEnv {
  now : Z;
  cuid : jsstring;
  bcrypt_hash : jsstring -> Z -> jsstring;
  bcrypt_compare : jsstring -> jsstring -> bool
}.

Abbreviation UserDB := (list User.t).

Module PrismaUser.

Section WithDatabase.

Context {database : Database}.

Inductive WhereUnique : Type :=
| ById (id : jsstring)
| ByEmail (email : jsstring).

(** [{ id?, email?, deletedAt?: null, OR?: [...] }]: the filters the
    services build.  [where_OR] is the clause of
    [QueryHelper.buildSearchWhere]. *)
Record WhereInput : Type := mkWhere {
  where_id : option jsstring;
  where_email : option jsstring;
  where_deletedAt_null : bool;
  where_OR : option (list jsstring * jsstring)
}.

Definition where_all : WhereInput :=
  {| where_id := None; where_email := None;
     where_deletedAt_null := false; where_OR := None |}.

Record CreateInput : Type := mkCreate {
  c_email : jsstring;
  c_name : option jsstring;
  c_password : jsstring
}.

(** The [data] of an update; [None] is an [undefined] property, which
    leaves the column as it is. *)
Record UpdateInput : Type := mkUpdate {
  d_email : option jsstring;
  d_name : option jsstring;
  d_password : option jsstring;
  d_status : option UserStatus;
  d_deletedAt : option (option Z)
}.

Definition no_change : UpdateInput :=
  {| d_email := None; d_name := None; d_password := None;
     d_status := None; d_deletedAt := None |}.

Definition has_id (id : jsstring) (u : User.t) : bool :=
  bool_decide (User.id u = id).

Definition has_email (email : jsstring) (u : User.t) : bool :=
  bool_decide (User.email u = email).

(** The text columns, which a [contains] filter may name. *)
Definition text_column (f : jsstring) : option (User.t -> option jsstring) :=
  if decide (f = str "id") then Some (fun u => Some (User.id u))
  else if decide (f = str "email") then Some (fun u => Some (User.email u))
  else if decide (f = str "name") then Some User.name
  else if decide (f = str "password")
       then Some (fun u => Some (User.password u))
  else None.

(** [{ contains: t, mode: 'insensitive' }] is [column ILIKE '%t%'].  The
    term is not escaped, so a [%], [_] or [\] in it is read as part of
    the pattern.  A column that is null matches nothing. *)
Definition contains_insensitive (v : option jsstring) (t : jsstring) : bool :=
  match v with
  | Some s => ILIKE s (str "%" ++ t ++ str "%")
  | None => false
  end.

Definition matches_OR (fields : list jsstring) (t : jsstring) (u : User.t)
  : bool :=
  existsb
    (fun f =>
       match text_column f with
       | Some col => contains_insensitive (col u) t
       | None => false
       end)
    fields.

Definition matches (w : WhereInput) (u : User.t) : bool :=
  match where_id w with Some i => has_id i u | None => true end
  && match where_email w with Some e => has_email e u | None => true end
  && (if where_deletedAt_null w
      then bool_decide (User.deletedAt u = None) else true)
  && match where_OR w with
     | Some (fields, t) => matches_OR fields t u
     | None => true
     end.

(** A filter on a column that does not exist is rejected. *)
Definition where_valid (w : WhereInput) : bool :=
  match where_OR w with
  | Some (fields, _) => forallb (fun f => bool_decide (is_Some (text_column f))) fields
  | None => true
  end.

(** ** Ordering *)

Inductive SortKey : Type :=
| KText (s : jsstring)
| KNum (z : Z)
| KNull.

(** Nulls sort after every other value. *)
Definition key_leb (a b : SortKey) : bool :=
  match a, b with
  | _, KNull => true
  | KNull, _ => false
  | KNum x, KNum y => x <=? y
  | KText s, KText t => Js.text_leb s t
  | KNum _, KText _ => true
  | KText _, KNum _ => false
  end.

(** An enum column is ordered by the position of the value in the
    declaration of the enum. *)
Definition UserStatus_rank (s : UserStatus) : Z :=
  match s with
  | ACTIVE => 0
  | INACTIVE => 1
  | SUSPENDED => 2
  | PENDING => 3
  end.

Definition sort_column (f : jsstring) : option (User.t -> SortKey) :=
  if decide (f = str "id") then Some (fun u => KText (User.id u))
  else if decide (f = str "email") then Some (fun u => KText (User.email u))
  else if decide (f = str "name")
       then Some (fun u => from_option KText KNull (User.name u))
  else if decide (f = str "password")
       then Some (fun u => KText (User.password u))
  else if decide (f = str "status")
       then Some (fun u => KNum (UserStatus_rank (User.status u)))
  else if decide (f = str "deletedAt")
       then Some (fun u => from_option KNum KNull (User.deletedAt u))
  else if decide (f = str "createdAt")
       then Some (fun u => KNum (User.createdAt u))
  else if decide (f = str "updatedAt")
       then Some (fun u => KNum (User.updatedAt u))
  else None.

Definition row_le (col : User.t -> SortKey) (dir : SortOrder)
    (u v : User.t) : Prop :=
  match dir with
  | ASC => key_leb (col u) (col v) = true
  | DESC => key_leb (col v) (col u) = true
  end.

#[global] Instance row_le_dec col dir u v : Decision (row_le col dir u v).
Proof. destruct dir; simpl; apply _. Defined.

(** [orderBy: { [field]: dir }]; an unknown field is rejected.  The rows
    are sorted on the column; rows with the same value in it come in the
    order of the scan of this query ([skip] and [take] tell the queries
    of the services apart). *)
Definition order_rows (orderBy : jsstring * SortOrder) (skip take : jsnum)
    (rows : list User.t) : option (list User.t) :=
  match sort_column orderBy.1 with
  | Some col =>
      Some (merge_sort (row_le col orderBy.2) (scan (skip, take) rows))
  | None => None
  end.

(** The integers Prisma can pass on: those of 64 bits. *)
Definition int64 (z : Z) : bool := (- 2 ^ 63 <=? z) && (z <? 2 ^ 63).

(** [skip] and [take]: both must be integers of 64 bits and [skip] must
    not be negative; a negative [take] counts from the end of the
    result. *)
Definition paginate (skip take : jsnum) (rows : list User.t)
  : option (list User.t) :=
  match skip, take with
  | JNum s, JNum t =>
      if (s <? 0) || negb (int64 s) || negb (int64 t) then None
      else if 0 <=? t
      then Some (firstn (Z.to_nat t) (skipn (Z.to_nat s) rows))
      else Some (rev (firstn (Z.to_nat (- t))
                        (skipn (Z.to_nat s) (rev rows))))
  | _, _ => None
  end.

(** ** The operations of [prisma.user] *)

Definition lookup_unique (w : WhereUnique) (db : UserDB) : option User.t :=
  match w with
  | ById i => List.find (has_id i) db
  | ByEmail e => List.find (has_email e) db
  end.

Definition findUnique (w : WhereUnique) : M UserDB (option User.t) :=
  fun db => (inr (lookup_unique w db), db).

Definition findFirst (w : WhereInput) : M UserDB (option User.t) :=
  fun db =>
    if where_valid w then (inr (List.find (matches w) db), db)
    else (inl (PrismaClientError PValidation), db).

Definition findMany (w : WhereInput) (orderBy : jsstring * SortOrder)
    (skip take : jsnum) : M UserDB (list User.t) :=
  fun db =>
    if where_valid w then
      match order_rows orderBy skip take (List.filter (matches w) db) with
      | Some rows =>
          match paginate skip take rows with
          | Some page => (inr page, db)
          | None => (inl (PrismaClientError PValidation), db)
          end
      | None => (inl (PrismaClientError PValidation), db)
      end
    else (inl (PrismaClientError PValidation), db).

Definition count (w : WhereInput) : M UserDB jsnum :=
  fun db =>
    if where_valid w
    then (inr (JNum (Z.of_nat (length (List.filter (matches w) db)))), db)
    else (inl (PrismaClientError PValidation), db).

(** Insert a row; the primary key and the email are unique. *)
Definition create (env : Env) (data : CreateInput) : M UserDB User.t :=
  fun db =>
    if existsb (has_id (cuid env)) db || existsb (has_email (c_email data)) db
    then (inl (PrismaClientError P2002), db)
    else
      let user :=
        {| User.id := cuid env;
           User.email := c_email data;
           User.name := c_name data;
           User.password := c_password data;
           User.status := ACTIVE;
           User.deletedAt := None;
           User.createdAt := now env;
           User.updatedAt := now env |} in
      (inr user, db ++ [user]).

(** Does the update write a column? *)
Definition writes (data : UpdateInput) : bool :=
  match d_email data, d_name data, d_password data, d_status data,
        d_deletedAt data with
  | None, None, None, None, None => false
  | _, _, _, _, _ => true
  end.

(** [updatedAt] is an [@updatedAt] column: it is set when the update
    writes a column, and kept when the [data] is empty. *)
Definition apply_update (env : Env) (data : UpdateInput) (u : User.t)
  : User.t :=
  {| User.id := User.id u;
     User.email := default (User.email u) (d_email data);
     User.name := match d_name data with
                  | Some n => Some n
                  | None => User.name u
                  end;
     User.password := default (User.password u) (d_password data);
     User.status := default (User.status u) (d_status data);
     User.deletedAt := default (User.deletedAt u) (d_deletedAt data);
     User.createdAt := User.createdAt u;
     User.updatedAt := if writes data then now env else User.updatedAt u |}.

(** Does another row than [id] hold the email the update sets? *)
Definition email_taken (id : jsstring) (data : UpdateInput) (db : UserDB)
  : bool :=
  match d_email data with
  | Some e => existsb (fun u => has_email e u && negb (has_id id u)) db
  | None => false
  end.

Definition replace_row (id : jsstring) (u' : User.t) (db : UserDB)
  : UserDB :=
  (fun r => if has_id id r then u' else r) <$> db.

(** [update({ where: { id }, data })] *)
Definition update (env : Env) (id : jsstring) (data : UpdateInput)
  : M UserDB User.t :=
  fun db =>
    match List.find (has_id id) db with
    | None => (inl (PrismaClientError P2025), db)
    | Some u =>
        if email_taken id data db
        then (inl (PrismaClientError P2002), db)
        else
          let u' := apply_update env data u in
          (inr u', replace_row id u' db)
    end.

(** [delete({ where: { id } })] *)
Definition delete (id : jsstring) : M UserDB User.t :=
  fun db =>
    match List.find (has_id id) db with
    | None => (inl (PrismaClientError P2025), db)
    | Some u => (inr u, List.filter (fun r => negb (has_id id r)) db)
    end.

End WithDatabase.

End PrismaUser.

(* ===================================================================== *)
(** * modules/user/user.service.ts *)
(* ===================================================================== *)

Module CreateUserDto.
Record t : Type := mk {
  email : jsstring;
  name : option jsstring;
  password : jsstring
}.
End CreateUserDto.

Module UpdateUserDto.
Record t : Type := mk {
  email : option jsstring;
  name : option jsstring;
  password : option jsstring
}.
End UpdateUserDto.

Module PaginationWithSearchDto.
Record t : Type := mk {
  page : option jsnum;
  limit : option jsnum;
  sortBy : option jsstring;
  sortOrder : option SortOrder;
  q : option jsstring
}.
End PaginationWithSearchDto.

(** The validators of class-validator that [PaginationDto] puts on
    [page] and [limit]. *)
Module ClassValidator.

(** [@IsOptional()]: the other validators are skipped for [undefined]. *)
Definition IsOptional {A : Type} (validators : A -> bool) (value : option A)
  : bool :=
  match value with
  | None => true
  | Some v => validators v
  end.

(** [@IsInt()] *)
Definition IsInt (value : jsnum) : bool :=
  match value with
  | JNum _ => true
  | _ => false
  end.

(** [@Min(min)] and [@Max(max)] *)
Definition Min (min : Z) (value : jsnum) : bool := Js.ge value (JNum min).

Definition Max (max : Z) (value : jsnum) : bool := Js.le value (JNum max).

End ClassValidator.

Module PaginationDto.

Import ClassValidator.

(** [@IsOptional() @IsInt() @Min(1) page] and
    [@IsOptional() @IsInt() @Min(1) @Max(100) limit], on the values
    [@Type(() => Number)] has converted. *)
Definition validate (dto : PaginationWithSearchDto.t) : bool :=
  IsOptional (fun page => IsInt page && Min 1 page)
    (PaginationWithSearchDto.page dto)
  && IsOptional (fun limit => IsInt limit && Min 1 limit && Max 100 limit)
       (PaginationWithSearchDto.limit dto).

End PaginationDto.

(** A [UserEntity] is built by [Object.assign(this, partial)]: it has the
    properties of the object it is built from. *)
Abbreviation UserEntity := jsobject.

(** The code shared by both variants of the service. *)
Module UserServiceBase.

Definition saltRounds : Z := 10.

(** [const { password, ...userWithoutPassword } = user] *)
Definition excludePassword (user : jsobject) : UserEntity :=
  delete "password" user.

Definition create (env : Env) (createUserDto : CreateUserDto.t)
  : M UserDB UserEntity :=
  try_catch
    (existingUser ← PrismaUser.findUnique
       (PrismaUser.ByEmail (CreateUserDto.email createUserDto));
     match existingUser with
     | Some _ => throw ConflictException
     | None =>
         let hashedPassword :=
           bcrypt_hash env (CreateUserDto.password createUserDto)
             saltRounds in
         user ← PrismaUser.create env
           {| PrismaUser.c_email := CreateUserDto.email createUserDto;
              PrismaUser.c_name := CreateUserDto.name createUserDto;
              PrismaUser.c_password := hashedPassword |};
         mret (excludePassword (User_object user))
     end)
    (fun error =>
       match error with
       | ConflictException => throw error
       | _ => throw InternalServerErrorException
       end).

(** The body of [update] after the existence check, which differs
    between the variants. *)
Definition update_checked (env : Env) (id : jsstring)
    (updateUserDto : UpdateUserDto.t) : M UserDB UserEntity :=
  _ ← (if Js.str_truthy (UpdateUserDto.email updateUserDto) then
         existingUser ← PrismaUser.findUnique
           (PrismaUser.ByEmail
              (default [] (UpdateUserDto.email updateUserDto)));
         match existingUser with
         | Some u =>
             if bool_decide (User.id u ≠ id)
             then throw ConflictException
             else mret tt
         | None => mret tt
         end
       else mret tt);
  let updateData :=
    {| PrismaUser.d_email := UpdateUserDto.email updateUserDto;
       PrismaUser.d_name := UpdateUserDto.name updateUserDto;
       PrismaUser.d_password :=
         if Js.str_truthy (UpdateUserDto.password updateUserDto)
         then Some (bcrypt_hash env
                      (default [] (UpdateUserDto.password updateUserDto))
                      saltRounds)
         else None;
       PrismaUser.d_status := None;
       PrismaUser.d_deletedAt := None |} in
  user ← PrismaUser.update env id updateData;
  mret (excludePassword (User_object user)).

Definition rethrow_known (error : Exception) : M UserDB UserEntity :=
  match error with
  | NotFoundException | ConflictException => throw error
  | _ => throw InternalServerErrorException
  end.

Definition validateCredentials (env : Env) (email password : jsstring)
  : M UserDB (option UserEntity) :=
  try_catch
    (user ← PrismaUser.findUnique (PrismaUser.ByEmail email);
     match user with
     | None => mret None
     | Some u =>
         let isPasswordValid :=
           bcrypt_compare env password (User.password u) in
         if negb isPasswordValid then mret None
         else mret (Some (excludePassword (User_object u)))
     end)
    (fun _ => mret None).

End UserServiceBase.

(** The service with soft delete. *)
Module UserService.

Export UserServiceBase.

Section WithDatabase.

Context {database : Database}.

Record Page : Type := mkPage {
  data : list UserEntity;
  meta : QueryHelper.PaginationMeta
}.

Definition findAll (dto : PaginationWithSearchDto.t) : M UserDB Page :=
  try_catch
    (let opts :=
       QueryHelper.getPaginationOptions
         (PaginationWithSearchDto.page dto)
         (PaginationWithSearchDto.limit dto) in
     let searchWhere :=
       QueryHelper.buildSearchWhere (PaginationWithSearchDto.q dto)
         [str "email"; str "name"] in
     let orderBy :=
       QueryHelper.buildOrderBy (PaginationWithSearchDto.sortBy dto)
         (PaginationWithSearchDto.sortOrder dto) in
     (* Exclude soft-deleted users by default *)
     let where_ :=
       {| PrismaUser.where_id := None;
          PrismaUser.where_email := None;
          PrismaUser.where_deletedAt_null := true;
          PrismaUser.where_OR := searchWhere |} in
     users ← PrismaUser.findMany where_ orderBy
       (QueryHelper.opt_skip opts) (QueryHelper.opt_limit opts);
     total ← PrismaUser.count where_;
     mret {| data := (fun user => excludePassword (User_object user))
                       <$> users;
             meta := QueryHelper.buildMeta (QueryHelper.opt_page opts)
                       (QueryHelper.opt_limit opts) total |})
    (fun _ => throw InternalServerErrorException).

Definition findOne (id : jsstring) : M UserDB UserEntity :=
  try_catch
    (user ← PrismaUser.findFirst
       {| PrismaUser.where_id := Some id;
          PrismaUser.where_email := None;
          PrismaUser.where_deletedAt_null := true;
          PrismaUser.where_OR := None |};
     match user with
     | None => throw NotFoundException
     | Some u => mret (excludePassword (User_object u))
     end)
    (fun error =>
       match error with
       | NotFoundException => throw error
       | _ => throw InternalServerErrorException
       end).

Definition findByEmail (email : jsstring) : M UserDB (option UserEntity) :=
  try_catch
    (user ← PrismaUser.findFirst
       {| PrismaUser.where_id := None;
          PrismaUser.where_email := Some email;
          PrismaUser.where_deletedAt_null := true;
          PrismaUser.where_OR := None |};
     mret ((fun u => excludePassword (User_object u)) <$> user))
    (fun _ => throw InternalServerErrorException).

Definition update (env : Env) (id : jsstring)
    (updateUserDto : UpdateUserDto.t) : M UserDB UserEntity :=
  try_catch
    ((* Check if user exists *)
     _ ← findOne id;
     update_checked env id updateUserDto)
    rethrow_known.

(** Soft delete a user *)
Definition remove (env : Env) (id : jsstring) : M UserDB unit :=
  try_catch
    ((* Check if user exists and not already deleted *)
     _ ← findOne id;
     _ ← PrismaUser.update env id
       {| PrismaUser.d_email := None; PrismaUser.d_name := None;
          PrismaUser.d_password := None; PrismaUser.d_status := None;
          PrismaUser.d_deletedAt := Some (Some (now env)) |};
     mret tt)
    (fun error =>
       match error with
       | NotFoundException => throw error
       | _ => throw InternalServerErrorException
       end).

(** Restore a soft-deleted user *)
Definition restore (env : Env) (id : jsstring) : M UserDB UserEntity :=
  try_catch
    (user ← PrismaUser.findUnique (PrismaUser.ById id);
     match user with
     | None => throw NotFoundException
     | Some u =>
         if negb (bool_decide (is_Some (User.deletedAt u)))
         then throw ConflictException
         else
           restoredUser ← PrismaUser.update env id
             {| PrismaUser.d_email := None; PrismaUser.d_name := None;
                PrismaUser.d_password := None; PrismaUser.d_status := None;
                PrismaUser.d_deletedAt := Some None |};
           mret (excludePassword (User_object restoredUser))
     end)
    rethrow_known.

(** Permanently delete a user (hard delete) *)
Definition forceDelete (id : jsstring) : M UserDB unit :=
  try_catch
    (user ← PrismaUser.findUnique (PrismaUser.ById id);
     match user with
     | None => throw NotFoundException
     | Some _ =>
         _ ← PrismaUser.delete id;
         mret tt
     end)
    (fun error =>
       match error with
       | NotFoundException => throw error
       | _ => throw InternalServerErrorException
       end).

Definition updateStatus (env : Env) (id : jsstring) (status : UserStatus)
  : M UserDB UserEntity :=
  try_catch
    ((* Check if user exists *)
     _ ← findOne id;
     user ← PrismaUser.update env id
       {| PrismaUser.d_email := None; PrismaUser.d_name := None;
          PrismaUser.d_password := None; PrismaUser.d_status := Some status;
          PrismaUser.d_deletedAt := None |};
     mret (excludePassword (User_object user)))
    (fun error =>
       match error with
       | NotFoundException => throw error
       | _ => throw InternalServerErrorException
       end).

End WithDatabase.

End UserService.

(** The earlier service, without soft delete. *)
Module UserServiceV0.

Export UserServiceBase.

Section WithDatabase.

Context {database : Database}.

Record Page : Type := mkPage {
  data : list UserEntity;
  total : jsnum;
  page : jsnum;
  totalPages : jsnum
}.

(** [findAll(page = 1, limit = 10)]: a default replaces an argument that
    is [undefined]. *)
Definition findAll (page limit : option jsnum) : M UserDB Page :=
  let page := default (JNum 1) page in
  let limit := default (JNum 10) limit in
  try_catch
    (let skip := Js.mul (Js.sub page (JNum 1)) limit in
     users ← PrismaUser.findMany PrismaUser.where_all
       (str "createdAt", DESC) skip limit;
     total ← PrismaUser.count PrismaUser.where_all;
     mret {| data := (fun user => excludePassword (User_object user))
                       <$> users;
             total := total;
             page := page;
             totalPages := Js.ceil_div total limit |})
    (fun _ => throw InternalServerErrorException).

Definition findOne (id : jsstring) : M UserDB UserEntity :=
  try_catch
    (user ← PrismaUser.findUnique (PrismaUser.ById id);
     match user with
     | None => throw NotFoundException
     | Some u => mret (excludePassword (User_object u))
     end)
    (fun error =>
       match error with
       | NotFoundException => throw error
       | _ => throw InternalServerErrorException
       end).

Definition findByEmail (email : jsstring) : M UserDB (option UserEntity) :=
  try_catch
    (user ← PrismaUser.findUnique (PrismaUser.ByEmail email);
     mret ((fun u => excludePassword (User_object u)) <$> user))
    (fun _ => throw InternalServerErrorException).

Definition update (env : Env) (id : jsstring)
    (updateUserDto : UpdateUserDto.t) : M UserDB UserEntity :=
  try_catch
    ((* Check if user exists *)
     _ ← findOne id;
     update_checked env id updateUserDto)
    rethrow_known.

(** Delete a user *)
Definition remove (id : jsstring) : M UserDB unit :=
  try_catch
    ((* Check if user exists *)
     _ ← findOne id;
     _ ← PrismaUser.delete id;
     mret tt)
    (fun error =>
       match error with
       | NotFoundException => throw error
       | _ => throw InternalServerErrorException
       end).

End WithDatabase.

End UserServiceV0.

(** The list route of the earlier controller: [@Pagination()] builds the
    descriptor, the handler passes its page and limit to the service, and
    [PaginationInterceptor] maps what the handler returns. *)
Module UserControllerV0.

Section WithDatabase.

Context {database : Database}.

(** Which of the two variants of the decorator is in place. *)
Inductive Decorator : Type := FirstVariant | SecondVariant.

(** [pagination.page] and [pagination.limit]. *)
Definition Pagination (variant : Decorator) (query : Query)
  : jsnum * jsnum :=
  match variant with
  | FirstVariant =>
      let pagination := PaginationV1.Pagination query in
      (PaginationV1.page pagination, PaginationV1.limit pagination)
  | SecondVariant =>
      let pagination := PaginationV2.Pagination query in
      (PaginationV2.page pagination, PaginationV2.limit pagination)
  end.

Definition findAll (variant : Decorator) (query : Query)
  : M UserDB (PaginationInterceptor.Output UserEntity Empty_set) :=
  let pagination := Pagination variant query in
  response ← UserServiceV0.findAll (Some pagination.1) (Some pagination.2);
  mret (PaginationInterceptor.intercept query
          (PaginationInterceptor.RPaginated
             {| PaginationInterceptor.resp_data :=
                  Some (UserServiceV0.data response);
                PaginationInterceptor.resp_total :=
                  Some (UserServiceV0.total response);
                PaginationInterceptor.resp_page :=
                  Some (UserServiceV0.page response);
                PaginationInterceptor.resp_totalPages :=
                  Some (UserServiceV0.totalPages response) |})).

End WithDatabase.

End UserControllerV0.

(* ===================================================================== *)
(** * The [roles] and [role_permissions] tables and modules/role *)
(* ===================================================================== *)

Inductive Resource : Type := USER | PERMISSION.
Inductive Action : Type := CREATE | READ | UPDATE | DELETE.

#[global] Instance Resource_eq_dec : EqDecision Resource.
Proof. solve_decision. Defined.

#[global] Instance Action_eq_dec : EqDecision Action.
Proof. solve_decision. Defined.

Module PermissionDto.
Record t : Type := mk {
  resource : Resource;
  action : list Action
}.
End PermissionDto.

Module CreateRoleDto.
Record t : Type := mk {
  name : jsstring;
  description : option jsstring;
  permissions : option (list PermissionDto.t)
}.
End CreateRoleDto.

(** The properties of an [UpdateRoleDto] the service reads. *)
Module UpdateRoleDto.
Record t : Type := mk {
  name : option jsstring;
  permissions : option (list PermissionDto.t)
}.
End UpdateRoleDto.

Module Role.
Record t : Type := mk {
  id : jsstring;
  name : jsstring;
  createdAt : Z;
  updatedAt : Z
}.
End Role.

Module RolePermission.
Record t : Type := mk {
  id : jsstring;
  roleId : jsstring;
  resource : Resource;
  action : Action;
  createdAt : Z
}.

(** The columns of the unique index [(roleId, resource, action)]. *)
Definition key (g : t) : jsstring * Resource * Action :=
  (roleId g, resource g, action g).

(** The grant itself. *)
Definition pair (g : t) : Resource * Action := (resource g, action g).
End RolePermission.

Record RoleDB : Type := mkRoleDB {
  roles : list Role.t;
  role_permissions : list RolePermission.t
}.

(** The clock and the identifiers the database generates: one for a new
    role, and one for the [k]-th grant a statement inserts. *)
Record RoleEnv : Type := mkRoleEnv {
  role_now : Z;
  role_cuid : jsstring;
  permission_cuid : nat -> jsstring
}.

(** A role as returned with [include: { permissions: true }]. *)
Record RoleWithPermissions : Type := mkRoleWith {
  role : Role.t;
  permissions : list RolePermission.t
}.

Module PrismaRole.

Definition has_id (id : jsstring) (r : Role.t) : bool :=
  bool_decide (Role.id r = id).

Definition of_role (id : jsstring) (g : RolePermission.t) : bool :=
  bool_decide (RolePermission.roleId g = id).

Definition include_permissions (db : RoleDB) (r : Role.t)
  : RoleWithPermissions :=
  {| role := r;
     permissions := List.filter (of_role (Role.id r)) (role_permissions db) |}.

(** The rows of a nested [create: [...]] for the role [roleId]. *)
Definition new_grants (env : RoleEnv) (roleId : jsstring)
    (grants : list (Resource * Action)) : list RolePermission.t :=
  imap (fun k g =>
          {| RolePermission.id := permission_cuid env k;
             RolePermission.roleId := roleId;
             RolePermission.resource := g.1;
             RolePermission.action := g.2;
             RolePermission.createdAt := role_now env |})
       grants.

(** The primary keys and the unique indexes of both tables. *)
Definition constraints_ok (db : RoleDB) : bool :=
  bool_decide (NoDup (Role.id <$> roles db))
  && bool_decide (NoDup (Role.name <$> roles db))
  && bool_decide (NoDup (RolePermission.id <$> role_permissions db))
  && bool_decide (NoDup (RolePermission.key <$> role_permissions db)).

(** A write is one transaction: it is kept only if the constraints hold
    afterwards. *)
Definition commit {A : Type} (a : A) (db' : RoleDB) : M RoleDB A :=
  fun db =>
    if constraints_ok db' then (inr a, db')
    else (inl (PrismaClientError P2002), db).

(** [findMany({ include })] has no [orderBy]: the roles come in the
    order of the scan. *)
Definition findMany {database : Database}
  : M RoleDB (list RoleWithPermissions) :=
  fun db => (inr (include_permissions db <$> scan tt (roles db)), db).

Definition findUnique (id : jsstring) : M RoleDB (option RoleWithPermissions) :=
  fun db =>
    (inr (include_permissions db <$> List.find (has_id id) (roles db)), db).

(** [create({ data: { name, permissions: { create } }, include })];
    [grants = None] is [permissions: undefined]. *)
Definition create (env : RoleEnv) (name : jsstring)
    (grants : option (list (Resource * Action)))
  : M RoleDB RoleWithPermissions :=
  fun db =>
    let r :=
      {| Role.id := role_cuid env; Role.name := name;
         Role.createdAt := role_now env; Role.updatedAt := role_now env |} in
    let db' :=
      {| roles := roles db ++ [r];
         role_permissions :=
           role_permissions db
           ++ new_grants env (role_cuid env) (default [] grants) |} in
    commit (include_permissions db' r) db' db.

(** [update({ where: { id }, data: { name, permissions: { deleteMany: {},
    create } }, include })]; [grants = None] leaves the grants alone.
    [updatedAt] is an [@updatedAt] column: it is set when the update
    writes a column of the role, that is when a name is given; writing
    the grants alone keeps it. *)
Definition update (env : RoleEnv) (id : jsstring) (name : option jsstring)
    (grants : option (list (Resource * Action)))
  : M RoleDB RoleWithPermissions :=
  fun db =>
    match List.find (has_id id) (roles db) with
    | None => (inl (PrismaClientError P2025), db)
    | Some r =>
        let r' :=
          {| Role.id := Role.id r; Role.name := default (Role.name r) name;
             Role.createdAt := Role.createdAt r;
             Role.updatedAt :=
               match name with
               | Some _ => role_now env
               | None => Role.updatedAt r
               end |} in
        let db' :=
          {| roles := (fun x => if has_id id x then r' else x) <$> roles db;
             role_permissions :=
               match grants with
               | Some gs =>
                   (* deleteMany: {} removes all existing permissions *)
                   List.filter (fun g => negb (of_role id g))
                     (role_permissions db)
                   ++ new_grants env id gs
               | None => role_permissions db
               end |} in
        commit (include_permissions db' r') db' db
    end.

(** [delete({ where: { id }, include })]; the grants go with the role. *)
Definition delete (id : jsstring) : M RoleDB RoleWithPermissions :=
  fun db =>
    match List.find (has_id id) (roles db) with
    | None => (inl (PrismaClientError P2025), db)
    | Some r =>
        (inr (include_permissions db r),
         {| roles := List.filter (fun x => negb (has_id id x)) (roles db);
            role_permissions :=
              List.filter (fun g => negb (of_role id g))
                (role_permissions db) |})
    end.

End PrismaRole.

Module RoleService.

(** Flatten actions array into multiple RolePermission rows *)
Definition flatten (permissions : list PermissionDto.t)
  : list (Resource * Action) :=
  permissions ≫= (fun p =>
    (fun action => (PermissionDto.resource p, action))
      <$> PermissionDto.action p).

Definition findAll {database : Database}
  : M RoleDB (list RoleWithPermissions) :=
  PrismaRole.findMany.

Definition findOne (id : jsstring) : M RoleDB (option RoleWithPermissions) :=
  PrismaRole.findUnique id.

Definition create (env : RoleEnv) (dto : CreateRoleDto.t)
  : M RoleDB RoleWithPermissions :=
  PrismaRole.create env (CreateRoleDto.name dto)
    match CreateRoleDto.permissions dto with
    | Some ((_ :: _) as permissions) => Some (flatten permissions)
    | _ => None
    end.

Definition update (env : RoleEnv) (id : jsstring) (dto : UpdateRoleDto.t)
  : M RoleDB RoleWithPermissions :=
  PrismaRole.update env id (UpdateRoleDto.name dto)
    (flatten <$> UpdateRoleDto.permissions dto).

Definition delete (id : jsstring) : M RoleDB RoleWithPermissions :=
  PrismaRole.delete id.

End RoleService.

(* ===================================================================== *)
(** * The object store and modules/file *)
(* ===================================================================== *)

(** An object of the bucket, as the store reports it in a listing and
    through [statObject]. *)
Module BucketItem.
Record t : Type := mk {
  name : jsstring;
  etag : jsstring;
  versionId : option jsstring;
  size : Z;
  content_type : option jsstring   (* [metaData?.['content-type']] *)
}.
End BucketItem.

(** The bucket: its objects in the order the store lists them, and whether
    the store answers at all. *)
Record Store : Type := mkStore {
  objects : list BucketItem.t;
  online : bool
}.

Module UploadResponse.
Record t : Type := mk {
  bucket : jsstring;
  objectName : jsstring;
  etag : jsstring;
  versionId : option jsstring;
  size : Z;
  mimetype : jsstring;
  url : jsstring
}.
End UploadResponse.

#[global] Instance UploadResponse_eq_dec : EqDecision UploadResponse.t.
Proof. solve_decision. Defined.

(** The properties of an [Express.Multer.File] the service reads; [size]
    is the length of the buffer. *)
Module MulterFile.
Record t : Type := mk {
  originalname : jsstring;
  mimetype : jsstring;
  size : Z
}.
End MulterFile.

(** What the store decides when it writes an object: the etag, the
    version id, and the place of the object in later listings. *)
Record PutInfo : Type := mkPutInfo {
  put_etag : jsstring;
  put_versionId : option jsstring;
  put_place : nat
}.

Module MinioClient.

Definition named (name : jsstring) (o : BucketItem.t) : bool :=
  bool_decide (BucketItem.name o = name).

(** The client's check of an object name, made before any request: the
    name is not empty and its [length] is at most 1024. *)
Definition isValidObjectName (objectName : jsstring) : bool :=
  negb (length objectName =? 0)%nat && (length objectName <=? 1024)%nat.

Definition statObject (objectName : jsstring) : M Store BucketItem.t :=
  fun s =>
    if negb (isValidObjectName objectName)
    then (inl (MinioError InvalidObjectNameError), s)
    else if online s then
      match List.find (named objectName) (objects s) with
      | Some o => (inr o, s)
      | None => (inl (MinioError S3NotFound), s)
      end
    else (inl (MinioError S3Transport), s).

(** [listObjectsV2(bucket, '', true)], read to its end. *)
Definition listObjectsV2 : M Store (list BucketItem.t) :=
  fun s =>
    if online s then (inr (objects s), s)
    else (inl (MinioError S3Transport), s).

Definition removeObject (objectName : jsstring) : M Store unit :=
  fun s =>
    if negb (isValidObjectName objectName)
    then (inl (MinioError InvalidObjectNameError), s)
    else if online s then
      (inr tt,
       {| objects :=
            List.filter (fun o => negb (named objectName o)) (objects s);
          online := online s |})
    else (inl (MinioError S3Transport), s).

(** [putObject(bucket, objectName, buffer, size, metadata)]; the name is
    checked as in [statObject], an object of the same name is replaced,
    and [content_type] is the ['Content-Type'] of the metadata. *)
Definition putObject (info : PutInfo) (objectName : jsstring) (size : Z)
    (content_type : jsstring) : M Store (jsstring * option jsstring) :=
  fun s =>
    if negb (isValidObjectName objectName)
    then (inl (MinioError InvalidObjectNameError), s)
    else if online s then
      let others :=
        List.filter (fun o => negb (named objectName o)) (objects s) in
      let o :=
        {| BucketItem.name := objectName;
           BucketItem.etag := put_etag info;
           BucketItem.versionId := put_versionId info;
           BucketItem.size := size;
           BucketItem.content_type := Some content_type |} in
      (inr (put_etag info, put_versionId info),
       {| objects :=
            take (put_place info) others ++ o :: drop (put_place info) others;
          online := online s |})
    else (inl (MinioError S3Transport), s).

End MinioClient.

Module FilesService.

Record Config : Type := mkConfig {
  bucketName : jsstring;
  minioEndpoint : jsstring;
  minioPort : jsstring;
  minioUseSSL : bool
}.

Section WithConfig.

Variable this : Config.

Definition getFilePublicUrl (objectName : jsstring) : jsstring :=
  let protocol := if minioUseSSL this then str "https" else str "http" in
  protocol ++ str "://" ++ minioEndpoint this ++ str ":"
  ++ minioPort this ++ str "/" ++ bucketName this ++ str "/"
  ++ objectName.

(** [originalName.replace(/[^a-zA-Z0-9.-]/g, '_')], one code unit at a
    time. *)
Definition in_class (c : N) : bool :=
  (((97 <=? c) && (c <=? 122)) || ((65 <=? c) && (c <=? 90))
   || ((48 <=? c) && (c <=? 57)) || (c =? 46) || (c =? 45))%N.

Definition sanitize (originalName : jsstring) : jsstring :=
  (fun c => if in_class c then c else 95%N) <$> originalName.

(** [timestamp] is [Date.now()] and [uuid] is [randomUUID()]. *)
Definition generateObjectName (timestamp : N) (uuid : jsstring)
    (originalName : jsstring) : jsstring :=
  let sanitizedName := sanitize originalName in
  Js.Number_toString timestamp ++ str "-" ++ uuid ++ str "-"
  ++ sanitizedName.

(** [timestamp] and [uuid] are those [generateObjectName] draws. *)
Definition uploadFile (timestamp : N) (uuid : jsstring) (info : PutInfo)
    (file : MulterFile.t) : M Store UploadResponse.t :=
  let objectName :=
    generateObjectName timestamp uuid (MulterFile.originalname file) in
  try_catch
    (objInfo ← MinioClient.putObject info objectName (MulterFile.size file)
                 (MulterFile.mimetype file);
     mret
       {| UploadResponse.bucket := bucketName this;
          UploadResponse.objectName := objectName;
          UploadResponse.etag := objInfo.1;
          UploadResponse.versionId := objInfo.2;
          UploadResponse.size := MulterFile.size file;
          UploadResponse.mimetype := MulterFile.mimetype file;
          UploadResponse.url := getFilePublicUrl objectName |})
    (fun _ => throw InternalServerErrorException).

Definition mimetype_of (content_type : option jsstring) : jsstring :=
  Js.str_or content_type (str "application/octet-stream").

(** The loop of [getFileById] over the listing. *)
Fixpoint first_including (id : jsstring) (listing : list BucketItem.t)
  : M Store (option UploadResponse.t) :=
  match listing with
  | [] => mret None
  | obj :: rest =>
      if Js.includes (BucketItem.name obj) id then
        stat ← MinioClient.statObject (BucketItem.name obj);
        mret (Some
          {| UploadResponse.bucket := bucketName this;
             UploadResponse.objectName := BucketItem.name obj;
             UploadResponse.etag := BucketItem.etag obj;
             UploadResponse.versionId := BucketItem.versionId obj;
             UploadResponse.size := BucketItem.size obj;
             UploadResponse.mimetype :=
               mimetype_of (BucketItem.content_type stat);
             UploadResponse.url :=
               getFilePublicUrl (BucketItem.name obj) |})
      else first_including id rest
  end.

Definition getFileById (id : jsstring)
  : M Store (option UploadResponse.t) :=
  try_catch
    (stream ← MinioClient.listObjectsV2;
     first_including id stream)
    (fun _ => throw InternalServerErrorException).

Definition deleteFile (objectName : jsstring) : M Store unit :=
  try_catch (MinioClient.removeObject objectName)
    (fun _ => throw InternalServerErrorException).

Definition fileExists (objectName : jsstring) : M Store bool :=
  try_catch
    (_ ← MinioClient.statObject objectName;
     mret true)
    (fun error =>
       match error with
       | MinioError S3NotFound => mret false
       | _ => throw error
       end).

Definition getFileMetadata (objectName : jsstring)
  : M Store BucketItem.t :=
  try_catch (MinioClient.statObject objectName)
    (fun error =>
       match error with
       | MinioError S3NotFound => throw NotFoundException
       | _ => throw InternalServerErrorException
       end).

End WithConfig.

End FilesService.

Module FilesController.

Section WithConfig.

Variable filesService : FilesService.Config.

Definition getFile (identifier : jsstring) : M Store UploadResponse.t :=
  (* First, try to find by exact filename *)
  existsByFilename ← FilesService.fileExists identifier;
  if (existsByFilename : bool) then
    metadata ← FilesService.getFileMetadata identifier;
    mret
      {| UploadResponse.bucket := FilesService.bucketName filesService;
         UploadResponse.objectName := identifier;
         UploadResponse.etag := BucketItem.etag metadata;
         UploadResponse.versionId := BucketItem.versionId metadata;
         UploadResponse.size := BucketItem.size metadata;
         UploadResponse.mimetype :=
           FilesService.mimetype_of (BucketItem.content_type metadata);
         UploadResponse.url :=
           FilesService.getFilePublicUrl filesService identifier |}
  else
    (* If not found by exact filename, search by ID *)
    file ← FilesService.getFileById filesService identifier;
    match file with
    | None => throw NotFoundException
    | Some f => mret f
    end.

Definition deleteFile (identifier : jsstring) : M Store unit :=
  existsByFilename ← FilesService.fileExists identifier;
  if (existsByFilename : bool) then
    FilesService.deleteFile identifier
  else
    file ← FilesService.getFileById filesService identifier;
    match file with
    | None => throw NotFoundException
    | Some f => FilesService.deleteFile (UploadResponse.objectName f)
    end.

End WithConfig.

End FilesController.

(* ===================================================================== *)
(** * Properties of the number and string primitives *)
(* ===================================================================== *)

Section JsFacts.

Lemma parseInt_cases (s : jsstring) :
  Js.parseInt s = JNaN ∨ ∃ z, Js.parseInt s = JNum z.
Proof.
  unfold Js.parseInt.
  destruct (Js.trim_start s) as [|c r]; simpl.
  - by left.
  - repeat case_match; simplify_eq; eauto.
Qed.


(** The ceiling, characterised without rationals: the least integer [c]
    with [a <= c * b] (for a positive divisor). *)
Lemma ceil_div_least (a b : Z) :
  0 < b →
  ∃ c, Js.ceil_div (JNum a) (JNum b) = JNum c
       ∧ a ≤ c * b ∧ (c - 1) * b < a.
Proof.
  intros Hb. exists (- ((- a) `div` b)). simpl.
  destruct (Z.eqb_spec b 0); [lia|]. split; [done|].
  pose proof (Z.div_mod (- a) b ltac:(lia)).
  pose proof (Z.mod_pos_bound (- a) b Hb). nia.
Qed.

Lemma starts_with_spec (p s : jsstring) :
  Js.starts_with p s = true ↔ ∃ b, s = p ++ b.
Proof.
  revert s. induction p as [|a p IH]; intros s; simpl.
  - split; [eauto|done].
  - destruct s as [|c s].
    + split; [done|]. by intros [b ?].
    + rewrite andb_true_iff, N.eqb_eq, IH. split.
      * intros [-> [b ->]]. eauto.
      * intros [b [= -> ->]]. eauto.
Qed.

(** [includes] is the substring test. *)
Lemma includes_spec (s p : jsstring) :
  Js.includes s p = true ↔ ∃ a b, s = a ++ p ++ b.
Proof.
  induction s as [|c s IH]; simpl.
  - rewrite orb_false_r, starts_with_spec. split.
    + intros [b ->]. by exists [], b.
    + intros (a & b & H). symmetry in H.
      apply app_eq_nil in H as [-> H]. apply app_eq_nil in H as [-> ->].
      by exists [].
  - rewrite orb_true_iff, starts_with_spec, IH. split.
    + intros [[b ->]|(a & b & ->)]; [by exists [], b|by exists (c :: a), b].
    + intros ([|c' a] & b & H); simpl in H.
      * left. eauto.
      * right. injection H as -> ->. eauto.
Qed.

Lemma includes_refl (s : jsstring) : Js.includes s s = true.
Proof. apply includes_spec. exists [], []. by rewrite app_nil_r. Qed.

Lemma str_inj (s t : string) : str s = str t → s = t.
Proof.
  unfold str. intros H.
  assert (Inj (=) (=) (fun a => N.of_nat (nat_of_ascii a))) as Hinj.
  { intros a b Hab. apply Nat2N.inj in Hab.
    rewrite <- (ascii_nat_embedding a), <- (ascii_nat_embedding b).
    by rewrite Hab. }
  apply (list_fmap_eq_inj _ Hinj) in H.
  rewrite <- (string_of_list_ascii_of_string s),
    <- (string_of_list_ascii_of_string t). by rewrite H.
Qed.

Lemma Number_toString_inj (n m : N) :
  Js.Number_toString n = Js.Number_toString m → n = m.
Proof.
  unfold Js.Number_toString. intros H%str_inj.
  apply Unsigned.to_uint_inj.
  assert (Some (N.to_uint n) = Some (N.to_uint m)) as [= ->]; [|done].
  by rewrite <- !NilEmpty.usu, H.
Qed.

(** The decimal rendering has no hyphen. *)
Lemma string_of_uint_no_hyphen (d : Decimal.uint) :
  45%N ∉ str (NilEmpty.string_of_uint d).
Proof.
  induction d; simpl; [by apply not_elem_of_nil|..];
    (apply not_elem_of_cons; split; [done|exact IHd]).
Qed.

Lemma Number_toString_no_hyphen (n : N) : 45%N ∉ Js.Number_toString n.
Proof. apply string_of_uint_no_hyphen. Qed.

(** Two strings that agree up to and including their first hyphen. *)
Lemma split_at_first (c : N) (a b r1 r2 : jsstring) :
  c ∉ a → c ∉ b → a ++ c :: r1 = b ++ c :: r2 → a = b ∧ r1 = r2.
Proof.
  revert b. induction a as [|x a IH]; intros [|y b] Ha Hb H; simpl in *.
  - by injection H.
  - injection H as -> _. by apply not_elem_of_cons in Hb as [? _].
  - injection H as -> _. by apply not_elem_of_cons in Ha as [? _].
  - injection H as -> H.
    apply not_elem_of_cons in Ha as [_ Ha].
    apply not_elem_of_cons in Hb as [_ Hb].
    destruct (IH b Ha Hb H) as [-> ->]. done.
Qed.

End JsFacts.

(* ===================================================================== *)
(** * The pagination decorator *)
(* ===================================================================== *)

Section PaginationDecorator.

(** What the descriptor [{ page, limit, skip }] has to satisfy. *)
Definition descriptor_ok (page limit skip : jsnum) : Prop :=
  Js.ge page (JNum 1) = true
  ∧ Js.ge limit (JNum 1) = true
  ∧ Js.le limit (JNum 100) = true
  ∧ skip = Js.mul (Js.sub page (JNum 1)) limit
  ∧ Js.ge skip (JNum 0) = true.

(** The strings the two [parseInt] calls receive. *)
Definition raw_page (query : Query) : jsstring :=
  Js.str_or (query !! str "page") (str "1").

Definition raw_limit (query : Query) : jsstring :=
  Js.str_or (query !! str "limit") (str "10").

(** [?page=abc&limit=xyz] *)
Definition non_numeric_query : Query :=
  <[str "page" := str "abc"]> (<[str "limit" := str "xyz"]> ∅).

(** [?page=-5&limit=9999] *)
Definition out_of_range_query : Query :=
  <[str "page" := str "-5"]> (<[str "limit" := str "9999"]> ∅).

Lemma raw_defaults :
  raw_page ∅ = str "1" ∧ raw_limit ∅ = str "10"
  ∧ Js.parseInt (str "1") = JNum 1 ∧ Js.parseInt (str "10") = JNum 10.
Proof. done. Qed.

(** Whenever both query values parse to a number, the first variant
    returns a descriptor within the bounds. *)
Lemma PaginationV1_numeric (query : Query) (p l : Z) :
  Js.parseInt (raw_page query) = JNum p →
  Js.parseInt (raw_limit query) = JNum l →
  let r := PaginationV1.Pagination query in
  descriptor_ok (PaginationV1.page r) (PaginationV1.limit r)
    (PaginationV1.skip r).
Proof.
  unfold raw_page, raw_limit, PaginationV1.Pagination, descriptor_ok.
  intros -> ->. simpl.
  destruct (Z.ltb_spec p 1), (Z.ltb_spec l 1); simpl;
    try destruct (Z.ltb_spec 100 l); simpl;
    repeat split; try apply Z.leb_le; try lia; nia.
Qed.

(** So does the second variant. *)
Lemma PaginationV2_numeric (query : Query) (p l : Z) :
  Js.parseInt (raw_page query) = JNum p →
  Js.parseInt (raw_limit query) = JNum l →
  let r := PaginationV2.Pagination query in
  descriptor_ok (PaginationV2.page r) (PaginationV2.limit r)
    (PaginationV2.skip r).
Proof.
  unfold raw_page, raw_limit, PaginationV2.Pagination, descriptor_ok.
  intros -> ->. simpl.
  destruct (Z.ltb_spec 1 p), (Z.ltb_spec l 100); simpl;
    try destruct (Z.ltb_spec 1 l); simpl;
    repeat split; try apply Z.leb_le; try lia; nia.
Qed.

(** The bounds hold exactly when both query values parse to a number. *)
Lemma PaginationV1_ok_iff (query : Query) :
  let r := PaginationV1.Pagination query in
  descriptor_ok (PaginationV1.page r) (PaginationV1.limit r)
    (PaginationV1.skip r)
  ↔ Js.parseInt (raw_page query) ≠ JNaN
    ∧ Js.parseInt (raw_limit query) ≠ JNaN.
Proof.
  split.
  - unfold descriptor_ok, PaginationV1.Pagination. fold (raw_page query).
    fold (raw_limit query). simpl.
    intros (Hp & Hl & _).
    split; intros Heq; rewrite Heq in *; done.
  - intros [Hp Hl].
    destruct (parseInt_cases (raw_page query)) as [?|[p Hp']]; [done|].
    destruct (parseInt_cases (raw_limit query)) as [?|[l Hl']]; [done|].
    by apply (PaginationV1_numeric query p l).
Qed.

Lemma PaginationV2_ok_iff (query : Query) :
  let r := PaginationV2.Pagination query in
  descriptor_ok (PaginationV2.page r) (PaginationV2.limit r)
    (PaginationV2.skip r)
  ↔ Js.parseInt (raw_page query) ≠ JNaN
    ∧ Js.parseInt (raw_limit query) ≠ JNaN.
Proof.
  split.
  - unfold descriptor_ok, PaginationV2.Pagination. fold (raw_page query).
    fold (raw_limit query). simpl.
    intros (Hp & Hl & _).
    split; intros Heq; rewrite Heq in *; done.
  - intros [Hp Hl].
    destruct (parseInt_cases (raw_page query)) as [?|[p Hp']]; [done|].
    destruct (parseInt_cases (raw_limit query)) as [?|[l Hl']]; [done|].
    by apply (PaginationV2_numeric query p l).
Qed.

(** The example of the specification: [page=-5, limit=9999]. *)
Lemma Pagination_out_of_range :
  PaginationV1.Pagination out_of_range_query
  = {| PaginationV1.page := JNum 1; PaginationV1.limit := JNum 100;
       PaginationV1.skip := JNum 0 |}
  ∧ PaginationV2.page (PaginationV2.Pagination out_of_range_query) = JNum 1
  ∧ PaginationV2.limit (PaginationV2.Pagination out_of_range_query)
    = JNum 100
  ∧ PaginationV2.skip (PaginationV2.Pagination out_of_range_query) = JNum 0.
Proof. vm_compute. done. Qed.

(** C1.  The descriptor is not within the bounds for every input: a query
    value without a leading number parses to [NaN], which passes both
    guards of the first variant and both [Math.max]/[Math.min] of the
    second, so [page], [limit] and [skip] are [NaN] and [page >= 1] and
    [1 <= limit <= 100] are false. *)
Theorem Pagination_non_numeric_is_NaN :
  PaginationV1.Pagination non_numeric_query
  = {| PaginationV1.page := JNaN; PaginationV1.limit := JNaN;
       PaginationV1.skip := JNaN |}
  ∧ PaginationV2.page (PaginationV2.Pagination non_numeric_query) = JNaN
  ∧ PaginationV2.limit (PaginationV2.Pagination non_numeric_query) = JNaN
  ∧ PaginationV2.skip (PaginationV2.Pagination non_numeric_query) = JNaN
  ∧ ¬ descriptor_ok JNaN JNaN JNaN.
Proof.
  repeat split; try (vm_compute; reflexivity).
  unfold descriptor_ok. simpl. intros [? _]. done.
Qed.

End PaginationDecorator.

(* ===================================================================== *)
(** * The result-metadata builder *)
(* ===================================================================== *)

Section BuildMeta.



(** The example of the specification, evaluated. *)
Lemma buildMeta_example :
  QueryHelper.buildMeta (JNum 3) (JNum 10) (JNum 25)
  = {| QueryHelper.page := JNum 3; QueryHelper.limit := JNum 10;
       QueryHelper.total := JNum 25; QueryHelper.totalPages := JNum 3;
       QueryHelper.hasNextPage := false;
       QueryHelper.hasPreviousPage := true |}.
Proof. reflexivity. Qed.

(** The flags are the two comparisons for every number, also for the
    special values. *)
Lemma buildMeta_flags (page limit total : jsnum) :
  let m := QueryHelper.buildMeta page limit total in
  QueryHelper.hasNextPage m = Js.lt page (QueryHelper.totalPages m)
  ∧ QueryHelper.hasPreviousPage m = Js.gt page (JNum 1).
Proof. done. Qed.

End BuildMeta.

(* ===================================================================== *)
(** * The pagination interceptor *)
(* ===================================================================== *)

Section Interceptor.

Import PaginationInterceptor.

(** [?limit=9999] *)
Definition huge_limit_query : Query := <[str "limit" := str "9999"]> ∅.

(** C10.  The interceptor echoes [parseInt(query.limit || '10', 10)] as
    [meta.limit], unclamped, in both answers it builds, and the parsed
    page (default 1) unless the handler's result carries a page; for
    [limit=9999] it echoes 9999 while both decorators fetch with 100. *)
Theorem intercept_meta_limit_unclamped :
  (∀ (T Other : Type) (query : Query) (r : PaginationResponse T),
      ∃ out, intercept (Other := Other) query (RPaginated r)
             = OPaginated out
        ∧ QueryHelper.limit (res_meta out) = Js.parseInt (raw_limit query)
        ∧ QueryHelper.page (res_meta out)
          = Js.num_or (resp_page r) (Js.parseInt (raw_page query)))
  ∧ (∀ (T Other : Type) (query : Query) (items : list T),
      ∃ out, intercept (Other := Other) query (RArray items)
             = OPaginated out
        ∧ QueryHelper.limit (res_meta out) = Js.parseInt (raw_limit query)
        ∧ QueryHelper.page (res_meta out) = Js.parseInt (raw_page query))
  ∧ Js.parseInt (raw_limit huge_limit_query) = JNum 9999
  ∧ Js.parseInt (raw_limit (<[str "limit" := str "-3"]> ∅)) = JNum (-3)
  ∧ Js.parseInt (raw_limit (<[str "limit" := str "0"]> ∅)) = JNum 0
  ∧ PaginationV1.limit (PaginationV1.Pagination huge_limit_query) = JNum 100
  ∧ PaginationV2.limit (PaginationV2.Pagination huge_limit_query) = JNum 100
  ∧ Js.parseInt (raw_limit ∅) = JNum 10
  ∧ Js.parseInt (raw_page ∅) = JNum 1.
Proof.
  split; [|split].
  - intros T Other query r. eexists. split; [reflexivity|]. done.
  - intros T Other query items. eexists. split; [reflexivity|]. done.
  - repeat split; vm_compute; reflexivity.
Qed.

End Interceptor.

(* ===================================================================== *)
(** * Lookups in tables with a unique column *)
(* ===================================================================== *)

Section UniqueColumn.

Context {A K : Type} `{EqDecision K} (col : A → K).

(** In a table whose column [col] is unique, the lookup by [col] finds
    the row that has the value. *)
Lemma find_by_unique (l : list A) (x : A) :
  NoDup (col <$> l) → x ∈ l →
  List.find (fun y => bool_decide (col y = col x)) l = Some x.
Proof.
  induction l as [|y l IH]; simpl; intros Hnd Hx.
  - by apply elem_of_nil in Hx.
  - apply NoDup_cons in Hnd as [Hy Hnd].
    apply elem_of_cons in Hx as [->|Hx].
    + by rewrite bool_decide_eq_true_2.
    + rewrite bool_decide_eq_false_2; [by apply IH|].
      intros Heq. apply Hy. rewrite Heq. by apply list_elem_of_fmap_2.
Qed.

(** More generally, a lookup by a predicate that only rows with the value
    of [x] satisfy. *)
Lemma find_by_pred (f : A → bool) (l : list A) (x : A) :
  NoDup (col <$> l) → x ∈ l → f x = true →
  (∀ y, f y = true → col y = col x) →
  List.find f l = Some x.
Proof.
  intros Hnd Hx Hfx Hf.
  induction l as [|y l IH]; simpl; [by apply elem_of_nil in Hx|].
  apply NoDup_cons in Hnd as [Hy Hnd].
  apply elem_of_cons in Hx as [->|Hx]; [by rewrite Hfx|].
  destruct (f y) eqn:Hfy; [|by apply IH].
  exfalso. apply Hy. rewrite (Hf y Hfy). by apply list_elem_of_fmap_2.
Qed.

(** Replacing the row whose [col] is [k] keeps another unique column [col2]
    unique, provided no other row holds the new value. *)
Lemma NoDup_replace {K2 : Type} (col2 : A → K2) (k : K) (r' : A)
    (l : list A) :
  NoDup (col <$> l) → NoDup (col2 <$> l) →
  (∀ x, x ∈ l → col x ≠ k → col2 x ≠ col2 r') →
  NoDup (col2 <$> ((fun x => if bool_decide (col x = k) then r' else x)
                     <$> l)).
Proof.
  induction l as [|y l IH]; [done|].
  intros [Hid Hids]%NoDup_cons [Hname Hnames]%NoDup_cons Hfree.
  rewrite !fmap_cons. apply NoDup_cons. case_bool_decide as Hy.
  - subst k. split.
    + intros (z & Heq & (x & -> & Hx)%list_elem_of_fmap)%list_elem_of_fmap.
      case_bool_decide as Hx'.
      * apply Hid. rewrite <- Hx'. by apply list_elem_of_fmap_2.
      * apply (Hfree x); [by right|done|done].
    + apply IH; try done. intros x Hx. apply Hfree. by right.
  - split.
    + intros (z & Heq & (x & -> & Hx)%list_elem_of_fmap)%list_elem_of_fmap.
      case_bool_decide as Hx'.
      * by apply (Hfree y); [left|..].
      * apply Hname. rewrite Heq. by apply list_elem_of_fmap_2.
    + apply IH; try done. intros x Hx. apply Hfree. by right.
Qed.

Lemma find_by_none (l : list A) (k : K) :
  (∀ x, x ∈ l → col x ≠ k) →
  List.find (fun y => bool_decide (col y = k)) l = None.
Proof.
  induction l as [|y l IH]; simpl; intros H; [done|].
  rewrite bool_decide_eq_false_2 by (apply H; left).
  apply IH. intros x Hx. apply H. by right.
Qed.

Lemma find_by_some (l : list A) (k : K) (x : A) :
  List.find (fun y => bool_decide (col y = k)) l = Some x →
  x ∈ l ∧ col x = k.
Proof.
  intros H. apply find_some in H as [Hin Hb].
  split; [by apply list_elem_of_In|]. by apply bool_decide_eq_true in Hb.
Qed.

Lemma find_by_is_some (l : list A) (x : A) :
  x ∈ l → is_Some (List.find (fun y => bool_decide (col y = col x)) l).
Proof.
  intros Hx.
  destruct (List.find _ l) as [y|] eqn:Hf; [by eexists|].
  apply list_elem_of_In in Hx.
  pose proof (find_none _ _ Hf x Hx) as Hb. simpl in Hb.
  by rewrite bool_decide_eq_true_2 in Hb.
Qed.

End UniqueColumn.

(* ===================================================================== *)
(** * Object names and identifier resolution *)
(* ===================================================================== *)

Section Files.

Import FilesService.

(** The code unit of a character. *)
Definition code (a : ascii) : N := N.of_nat (nat_of_ascii a).

(** The character class [[A-Za-z0-9.-]]. *)
Definition allowed (c : N) : Prop :=
  (code "A" ≤ c ≤ code "Z")%N ∨ (code "a" ≤ c ≤ code "z")%N
  ∨ (code "0" ≤ c ≤ code "9")%N ∨ c = code "." ∨ c = code "-".

#[local] Instance allowed_dec c : Decision (allowed c).
Proof. unfold allowed. apply _. Defined.

Lemma in_class_allowed (c : N) : in_class c = true ↔ allowed c.
Proof.
  unfold in_class, allowed, code. simpl.
  rewrite !orb_true_iff, !andb_true_iff, !N.leb_le, !N.eqb_eq. tauto.
Qed.

Lemma sanitize_lookup (originalName : jsstring) (i : nat) (c : N) :
  originalName !! i = Some c →
  sanitize originalName !! i
  = Some (if decide (allowed c) then c else code "_").
Proof.
  intros H. unfold sanitize. rewrite list_lookup_fmap, H. simpl.
  f_equal. destruct (in_class c) eqn:Hc; case_decide; try done.
  - by apply in_class_allowed in Hc.
  - apply in_class_allowed in H0. congruence.
Qed.

Lemma generateObjectName_inj (t1 t2 : N) (u1 u2 n : jsstring) :
  generateObjectName t1 u1 n = generateObjectName t2 u2 n →
  t1 = t2 ∧ u1 = u2.
Proof.
  unfold generateObjectName.
  rewrite !(app_assoc _ _ (str "-" ++ sanitize n)).
  intros H%app_inv_tail. change (str "-") with [45%N] in H. simpl in H.
  apply split_at_first in H as [H1 H2];
    try apply Number_toString_no_hyphen.
  by apply Number_toString_inj in H1.
Qed.

(** C8.  The object name is [{timestamp}-{uuid}-{sanitizedName}]; the
    sanitized name has one code unit per code unit of the original name,
    the same one if it is in [[A-Za-z0-9.-]] and [_] otherwise; and two
    names generated for the same original name differ as soon as their
    timestamps or UUIDs do. *)
Theorem generateObjectName_spec (timestamp1 timestamp2 : N)
    (uuid1 uuid2 originalName : jsstring) :
  generateObjectName timestamp1 uuid1 originalName
  = Js.Number_toString timestamp1 ++ str "-" ++ uuid1 ++ str "-"
    ++ sanitize originalName
  ∧ length (sanitize originalName) = length originalName
  ∧ (∀ i c, originalName !! i = Some c →
       sanitize originalName !! i
       = Some (if decide (allowed c) then c else code "_"))
  ∧ ((timestamp1, uuid1) ≠ (timestamp2, uuid2) →
     generateObjectName timestamp1 uuid1 originalName
     ≠ generateObjectName timestamp2 uuid2 originalName).
Proof.
  split; [done|]. split; [apply length_fmap|].
  split; [apply sanitize_lookup|].
  intros Hne Heq. apply generateObjectName_inj in Heq as [-> ->]. done.
Qed.

Lemma generateObjectName_spec_witness :
  (1733123456789%N, str "3f2a") ≠ (1733123456789%N, str "9c41")
  ∧ generateObjectName 1733123456789 (str "3f2a") (str "my file.jpg")
    ≠ generateObjectName 1733123456789 (str "9c41") (str "my file.jpg")
  ∧ generateObjectName 1733123456789 (str "3f2a") (str "my file.jpg")
    = str "1733123456789-3f2a-my_file.jpg".
Proof.
  assert ((1733123456789%N, str "3f2a") ≠ (1733123456789%N, str "9c41"))
    as Hne by (vm_compute; congruence).
  split; [exact Hne|]. split; [|reflexivity].
  apply (generateObjectName_spec 1733123456789 1733123456789
           (str "3f2a") (str "9c41") (str "my file.jpg")).
  exact Hne.
Defined.

End Files.

Section Resolver.

Import FilesService.

Variable cfg : Config.

(** [p] occurs in [s]. *)
Definition is_substring (p s : jsstring) : Prop := ∃ a b, s = a ++ p ++ b.

(** The metadata and URL returned for the object [o]. *)
Definition response_of (o : BucketItem.t) : UploadResponse.t :=
  {| UploadResponse.bucket := bucketName cfg;
     UploadResponse.objectName := BucketItem.name o;
     UploadResponse.etag := BucketItem.etag o;
     UploadResponse.versionId := BucketItem.versionId o;
     UploadResponse.size := BucketItem.size o;
     UploadResponse.mimetype := mimetype_of (BucketItem.content_type o);
     UploadResponse.url := getFilePublicUrl cfg (BucketItem.name o) |}.

(** Object names are the keys of the bucket.  The store admits no empty
    key and no key of more than 1024 bytes, so that the bucket holds no
    object under a name the client refuses. *)
Definition bucket_ok (s : Store) : Prop :=
  NoDup (BucketItem.name <$> objects s)
  ∧ ∀ o, o ∈ objects s →
         MinioClient.isValidObjectName (BucketItem.name o) = true.

Lemma statObject_invalid (s : Store) (id : jsstring) :
  MinioClient.isValidObjectName id = false →
  MinioClient.statObject id s = (inl (MinioError InvalidObjectNameError), s).
Proof. intros H. unfold MinioClient.statObject. by rewrite H. Qed.

Lemma statObject_found (s : Store) (o : BucketItem.t) :
  online s = true → bucket_ok s → o ∈ objects s →
  MinioClient.statObject (BucketItem.name o) s = (inr o, s).
Proof.
  intros Hon [Hnd Hvalid] Ho.
  unfold MinioClient.statObject, MinioClient.named.
  rewrite (Hvalid o Ho), Hon. simpl.
  by rewrite (find_by_unique BucketItem.name).
Qed.

Lemma statObject_missing (s : Store) (id : jsstring) :
  MinioClient.isValidObjectName id = true →
  online s = true → (∀ o, o ∈ objects s → BucketItem.name o ≠ id) →
  MinioClient.statObject id s = (inl (MinioError S3NotFound), s).
Proof.
  intros Hid Hon Hno. unfold MinioClient.statObject, MinioClient.named.
  rewrite Hid, Hon. simpl. by rewrite (find_by_none BucketItem.name).
Qed.

Lemma statObject_offline (s : Store) (id : jsstring) :
  MinioClient.isValidObjectName id = true → online s = false →
  MinioClient.statObject id s = (inl (MinioError S3Transport), s).
Proof. intros Hid Hoff. unfold MinioClient.statObject. by rewrite Hid, Hoff. Qed.

Lemma first_including_miss (s : Store) (id : jsstring)
    (listing : list BucketItem.t) :
  (∀ x, x ∈ listing → Js.includes (BucketItem.name x) id = false) →
  first_including cfg id listing s = (inr None, s).
Proof.
  induction listing as [|x l IH]; intros H; simpl; [done|].
  rewrite (H x) by left. apply IH. intros y Hy. apply H. by right.
Qed.

Lemma first_including_hit (s : Store) (id : jsstring)
    (pre post : list BucketItem.t) (o : BucketItem.t) :
  online s = true → bucket_ok s → o ∈ objects s →
  (∀ x, x ∈ pre → Js.includes (BucketItem.name x) id = false) →
  Js.includes (BucketItem.name o) id = true →
  first_including cfg id (pre ++ o :: post) s
  = (inr (Some (response_of o)), s).
Proof.
  intros Hon Hok Ho Hpre Hhit.
  induction pre as [|x pre IH]; simpl.
  - rewrite Hhit. unfold mbind, M_bind.
    by rewrite statObject_found.
  - rewrite (Hpre x) by left. apply IH. intros y Hy. apply Hpre. by right.
Qed.

Lemma not_includes (s p : jsstring) :
  ¬ is_substring p s → Js.includes s p = false.
Proof.
  intros H. apply not_true_is_false. intros Hi. apply H.
  by apply includes_spec.
Qed.

Lemma not_substring (s p : jsstring) :
  Js.includes s p = false → ¬ is_substring p s.
Proof. intros H Hs%includes_spec. congruence. Qed.

(** C5.  For an identifier the client accepts as an object name (not
    empty, at most 1024 code units), [getFile] first checks for an object
    with exactly the name [identifier] and returns that object's
    metadata; otherwise it returns the first object of the listing whose
    name contains the identifier; if there is none, it fails with
    NotFound.  A store that does not answer makes it fail with another
    error than NotFound.  For any other identifier the existence check
    itself fails, with the client's InvalidObjectNameError, whatever the
    bucket holds. *)
Theorem getFile_resolution (s : Store) (identifier : jsstring) :
  (MinioClient.isValidObjectName identifier = true →
   (online s = true → bucket_ok s →
    (∀ o, o ∈ objects s → BucketItem.name o = identifier →
       FilesController.getFile cfg identifier s = (inr (response_of o), s))
    ∧ (∀ pre o post,
         (∀ x, x ∈ objects s → BucketItem.name x ≠ identifier) →
         objects s = pre ++ o :: post →
         (∀ x, x ∈ pre → ¬ is_substring identifier (BucketItem.name x)) →
         is_substring identifier (BucketItem.name o) →
         FilesController.getFile cfg identifier s
         = (inr (response_of o), s))
    ∧ ((∀ x, x ∈ objects s →
          ¬ is_substring identifier (BucketItem.name x)) →
       getFileById cfg identifier s = (inr None, s)
       ∧ FilesController.getFile cfg identifier s
         = (inl NotFoundException, s)))
   ∧ (online s = false →
      getFileById cfg identifier s = (inl InternalServerErrorException, s)
      ∧ ∃ e, FilesController.getFile cfg identifier s = (inl e, s)
             ∧ e ≠ NotFoundException))
  ∧ (MinioClient.isValidObjectName identifier = false →
     FilesController.getFile cfg identifier s
     = (inl (MinioError InvalidObjectNameError), s)).
Proof.
  split; [intros Hid; split|].
  - intros Hon Hok. split; [|split].
    + intros o Ho <-.
      unfold FilesController.getFile, fileExists, getFileMetadata,
        try_catch, mbind, M_bind, mret, M_ret.
      by rewrite !statObject_found.
    + intros pre o post Hno Hobjs Hpre Hhit.
      unfold FilesController.getFile, fileExists, getFileById,
        try_catch, mbind, M_bind, mret, M_ret.
      rewrite statObject_missing by done.
      unfold MinioClient.listObjectsV2. rewrite Hon, Hobjs.
      rewrite first_including_hit; try done.
      * rewrite Hobjs. apply elem_of_app. right. left.
      * intros x Hx. by apply not_includes, Hpre.
      * by apply includes_spec.
    + intros Hnone.
      assert (getFileById cfg identifier s = (inr None, s)) as Hnull.
      { unfold getFileById, try_catch, mbind, M_bind,
          MinioClient.listObjectsV2.
        rewrite Hon, first_including_miss; [done|].
        intros x Hx. by apply not_includes, Hnone. }
      split; [done|].
      unfold FilesController.getFile, fileExists,
        try_catch, mbind, M_bind, mret, M_ret.
      rewrite statObject_missing; [by rewrite Hnull|done|done|].
      intros o Ho Heq. apply (Hnone o Ho). rewrite Heq.
      exists [], []. by rewrite app_nil_r.
  - intros Hoff. split.
    + unfold getFileById, try_catch, mbind, M_bind,
        MinioClient.listObjectsV2.
      by rewrite Hoff.
    + exists (MinioError S3Transport). split; [|done].
      unfold FilesController.getFile, fileExists, try_catch, mbind, M_bind.
      by rewrite statObject_offline.
  - intros Hid.
    unfold FilesController.getFile, fileExists, try_catch, mbind, M_bind.
    by rewrite statObject_invalid.
Qed.

End Resolver.

Section ResolverExample.

Import FilesService.

Definition cfg0 : Config :=
  {| bucketName := str "default-bucket"; minioEndpoint := str "localhost";
     minioPort := str "9000"; minioUseSSL := false |}.

Definition object0 : BucketItem.t :=
  {| BucketItem.name := str "1733123456789-3f2a-report.pdf";
     BucketItem.etag := str "e0"; BucketItem.versionId := None;
     BucketItem.size := 1024;
     BucketItem.content_type := Some (str "application/pdf") |}.

Definition object1 : BucketItem.t :=
  {| BucketItem.name := str "1733123456790-9c41-report.pdf";
     BucketItem.etag := str "e1"; BucketItem.versionId := None;
     BucketItem.size := 2048; BucketItem.content_type := None |}.

Definition store0 : Store :=
  {| objects := [object0; object1]; online := true |}.

Lemma store0_ok : bucket_ok store0.
Proof.
  split.
  - apply (bool_decide_unpack _). by vm_compute.
  - apply (Forall_forall
             (fun o => MinioClient.isValidObjectName (BucketItem.name o)
                       = true)).
    by repeat constructor.
Qed.

(** Decide a property of every object of a concrete listing. *)
Ltac each_object :=
  apply Forall_forall; repeat constructor; vm_compute; congruence.

(** An identifier of 1025 code units. *)
Definition long_identifier : jsstring := replicate 1025 (code "a").

Lemma getFile_resolution_witness :
  FilesController.getFile cfg0 (str "9c41") store0
  = (inr (response_of cfg0 object1), store0)
  ∧ FilesController.getFile cfg0 (BucketItem.name object0) store0
    = (inr (response_of cfg0 object0), store0)
  ∧ getFileById cfg0 (str "0000") store0 = (inr None, store0)
  ∧ FilesController.getFile cfg0 (str "0000") store0
    = (inl NotFoundException, store0)
  ∧ (∃ e, FilesController.getFile cfg0 (str "9c41")
            {| objects := [object0; object1]; online := false |}
          = (inl e, {| objects := [object0; object1]; online := false |})
          ∧ e ≠ NotFoundException)
  ∧ FilesController.getFile cfg0 long_identifier store0
    = (inl (MinioError InvalidObjectNameError), store0).
Proof.
  destruct (getFile_resolution cfg0 store0 (str "9c41")) as [H _].
  destruct (H eq_refl) as [H' _].
  destruct (H' eq_refl store0_ok) as (_ & Hsub & _).
  destruct (getFile_resolution cfg0 store0 (BucketItem.name object0))
    as [H0 _].
  destruct (H0 eq_refl) as [H0' _].
  destruct (H0' eq_refl store0_ok) as (Hexact & _ & _).
  destruct (getFile_resolution cfg0 store0 (str "0000")) as [H1 _].
  destruct (H1 eq_refl) as [H1' _].
  destruct (H1' eq_refl store0_ok) as (_ & _ & Hnone).
  assert (∀ x, x ∈ objects store0 →
               ¬ is_substring (str "0000") (BucketItem.name x)) as Hno.
  { intros x Hx. apply not_substring. revert x Hx. each_object. }
  split; [|split; [|split; [|split; [|split]]]].
  - apply (Hsub [object0] object1 []); [|reflexivity| |].
    + each_object.
    + intros x Hx. apply not_substring. revert x Hx. each_object.
    + apply includes_spec. reflexivity.
  - apply Hexact; [left|reflexivity].
  - by apply Hnone.
  - by apply Hnone.
  - destruct (getFile_resolution cfg0
                {| objects := [object0; object1]; online := false |}
                (str "9c41")) as [H2 _].
    destruct (H2 eq_refl) as [_ H2']. by apply H2'.
  - destruct (getFile_resolution cfg0 store0 long_identifier) as [_ H3].
    by apply H3.
Defined.

(** No object name contains [long_identifier], and yet [getFile] does
    not answer NotFound: the existence check fails in the client. *)
Lemma getFile_long_identifier :
  (∀ x, x ∈ objects store0 →
        ¬ is_substring long_identifier (BucketItem.name x))
  ∧ FilesController.getFile cfg0 long_identifier store0
    = (inl (MinioError InvalidObjectNameError), store0)
  ∧ MinioError InvalidObjectNameError ≠ NotFoundException.
Proof.
  split; [|split; [|done]].
  - intros x Hx. apply not_substring. revert x Hx. each_object.
  - by vm_compute.
Qed.

End ResolverExample.

(* ===================================================================== *)
(** * The [users] table: lookups, updates and queries *)
(* ===================================================================== *)

Section UserTable.

Context {database : Database}.

Import PrismaUser.

Lemma find_ext {A : Type} (f g : A → bool) (l : list A) :
  (∀ x, f x = g x) → List.find f l = List.find g l.
Proof. intros H. induction l as [|x l IH]; simpl; [done|]. by rewrite H, IH. Qed.

Lemma find_all_false {A : Type} (f : A → bool) (l : list A) :
  (∀ x, x ∈ l → f x = false) → List.find f l = None.
Proof.
  induction l as [|x l IH]; simpl; intros H; [done|].
  rewrite (H x) by left. apply IH. intros y Hy. apply H. by right.
Qed.

Lemma find_elem {A : Type} (f : A → bool) (l : list A) (x : A) :
  List.find f l = Some x → x ∈ l ∧ f x = true.
Proof. intros [H1 H2]%find_some. split; [by apply list_elem_of_In|done]. Qed.

Lemma find_exists {A : Type} (f : A → bool) (l : list A) (x : A) :
  x ∈ l → f x = true → is_Some (List.find f l).
Proof.
  intros Hx Hf. destruct (List.find f l) eqn:Hfind; [by eexists|].
  apply list_elem_of_In in Hx. pose proof (find_none _ _ Hfind x Hx).
  congruence.
Qed.

(** A row that [findOne] and the other default reads see. *)
Definition live (id : jsstring) (u : User.t) : bool :=
  has_id id u && bool_decide (User.deletedAt u = None).

Lemma matches_live (id : jsstring) (u : User.t) :
  matches {| where_id := Some id; where_email := None;
             where_deletedAt_null := true; where_OR := None |} u
  = live id u.
Proof. unfold matches, live. simpl. by rewrite !andb_true_r. Qed.

Lemma live_spec (id : jsstring) (u : User.t) :
  live id u = true ↔ User.id u = id ∧ User.deletedAt u = None.
Proof.
  unfold live, has_id.
  by rewrite andb_true_iff, !bool_decide_eq_true.
Qed.

Lemma has_id_spec (id : jsstring) (u : User.t) :
  has_id id u = true ↔ User.id u = id.
Proof. unfold has_id. by rewrite bool_decide_eq_true. Qed.

Lemma has_email_spec (e : jsstring) (u : User.t) :
  has_email e u = true ↔ User.email u = e.
Proof. unfold has_email. by rewrite bool_decide_eq_true. Qed.

(** ** [replace_row] *)

Lemma elem_of_replace_row (id : jsstring) (u' r : User.t) (db : UserDB) :
  r ∈ replace_row id u' db ↔
  (r ∈ db ∧ User.id r ≠ id) ∨ (r = u' ∧ ∃ x, x ∈ db ∧ User.id x = id).
Proof.
  unfold replace_row. rewrite list_elem_of_fmap. split.
  - intros (x & -> & Hx). destruct (has_id id x) eqn:Hid.
    + right. split; [done|]. exists x. by apply has_id_spec in Hid.
    + left. split; [done|]. intros Heq%has_id_spec. congruence.
  - intros [[Hr Hne]|[-> (x & Hx & Hid)]].
    + exists r. split; [|done].
      destruct (has_id id r) eqn:Hid; [|done].
      by apply has_id_spec in Hid.
    + exists x. split; [|done]. apply has_id_spec in Hid. by rewrite Hid.
Qed.

Lemma replace_row_ids (id : jsstring) (u' : User.t) (db : UserDB) :
  User.id u' = id → User.id <$> replace_row id u' db = User.id <$> db.
Proof.
  intros Hu. unfold replace_row. rewrite <- list_fmap_compose.
  apply list_fmap_ext. intros i x _. simpl.
  destruct (has_id id x) eqn:Hid; [|done].
  apply has_id_spec in Hid. congruence.
Qed.

(** ** [update] *)

Lemma update_run (env : Env) (id : jsstring) (data : UpdateInput)
    (db : UserDB) (u : User.t) :
  List.find (has_id id) db = Some u →
  email_taken id data db = false →
  update env id data db
  = (inr (apply_update env data u),
     replace_row id (apply_update env data u) db).
Proof. intros Hf Ht. unfold update. by rewrite Hf, Ht. Qed.

Lemma find_by_id (db : UserDB) (u : User.t) :
  NoDup (User.id <$> db) → u ∈ db →
  List.find (has_id (User.id u)) db = Some u.
Proof. intros Hnd Hu. by apply (find_by_unique User.id). Qed.

Lemma find_no_id (db : UserDB) (id : jsstring) :
  (∀ u, u ∈ db → User.id u ≠ id) → List.find (has_id id) db = None.
Proof. intros H. by apply (find_by_none User.id). Qed.

Lemma find_no_email (db : UserDB) (e : jsstring) :
  (∀ u, u ∈ db → User.email u ≠ e) → List.find (has_email e) db = None.
Proof. intros H. by apply (find_by_none User.email). Qed.

Lemma find_by_email (db : UserDB) (u : User.t) :
  NoDup (User.email <$> db) → u ∈ db →
  List.find (has_email (User.email u)) db = Some u.
Proof. intros Hnd Hu. by apply (find_by_unique User.email). Qed.

(** ** [findMany] returns rows of the table that match the filter *)

Lemma paginate_subset (skip take : jsnum) (rows page : list User.t) :
  paginate skip take rows = Some page → ∀ x, x ∈ page → x ∈ rows.
Proof.
  unfold paginate. intros H x Hx.
  destruct skip as [s| | |], take as [t| | |]; try done.
  destruct ((s <? 0) || negb (int64 s) || negb (int64 t)); [done|].
  destruct (0 <=? t); injection H as <-.
  - by apply subseteq_take, subseteq_drop in Hx.
  - rewrite list_elem_of_In, <- in_rev, <- list_elem_of_In in Hx.
    apply subseteq_take, subseteq_drop in Hx.
    by rewrite list_elem_of_In, <- in_rev, <- list_elem_of_In in Hx.
Qed.

Lemma order_rows_subset (orderBy : jsstring * SortOrder)
    (skip take : jsnum) (rows sorted : list User.t) :
  order_rows orderBy skip take rows = Some sorted →
  ∀ x, x ∈ sorted → x ∈ rows.
Proof.
  unfold order_rows. destruct (sort_column orderBy.1); [|done].
  intros [= <-] x Hx.
  by rewrite merge_sort_Permutation, scan_Permutation in Hx.
Qed.

Lemma findMany_subset (w : WhereInput) (orderBy : jsstring * SortOrder)
    (skip take : jsnum) (db db' : UserDB) (rows : list User.t) :
  findMany w orderBy skip take db = (inr rows, db') →
  db' = db ∧ ∀ x, x ∈ rows → x ∈ db ∧ matches w x = true.
Proof.
  unfold findMany. destruct (where_valid w); [|done].
  destruct (order_rows _ _ _ _) as [sorted|] eqn:Hs; [|done].
  destruct (paginate _ _ _) as [page|] eqn:Hp; [|done].
  intros [= <- <-]. split; [done|]. intros x Hx.
  eapply paginate_subset in Hx; [|done].
  eapply order_rows_subset in Hx; [|done].
  apply list_elem_of_In, filter_In in Hx as [Hx Hm].
  split; [by apply list_elem_of_In|done].
Qed.

End UserTable.

(* ===================================================================== *)
(** * The user service: soft delete and restore *)
(* ===================================================================== *)

Section UserLifecycle.

Context {database : Database}.

Import PrismaUser UserService.

#[local] Arguments User_object : simpl never.
#[local] Arguments excludePassword : simpl never.

(** The object returned for the row [u]. *)
Definition entity_of (u : User.t) : UserEntity :=
  excludePassword (User_object u).

Lemma entity_id (u : User.t) : entity_of u !! "id" = Some (VString (User.id u)).
Proof. reflexivity. Qed.

Lemma entity_email (u : User.t) :
  entity_of u !! "email" = Some (VString (User.email u)).
Proof. reflexivity. Qed.

Lemma entity_deletedAt (u : User.t) :
  entity_of u !! "deletedAt" = Some (nullable VDate (User.deletedAt u)).
Proof. reflexivity. Qed.

Lemma entity_no_password (u : User.t) : entity_of u !! "password" = None.
Proof. apply lookup_delete_eq. Qed.

Lemma findOne_run (id : jsstring) (db : UserDB) :
  findOne id db
  = match List.find (live id) db with
    | Some u => (inr (entity_of u), db)
    | None => (inl NotFoundException, db)
    end.
Proof.
  unfold findOne, try_catch, mbind, M_bind, findFirst. simpl.
  rewrite (find_ext _ _ _ (matches_live id)).
  by destruct (List.find _ _).
Qed.

(** The [data] of the update [remove] issues, and of the one [restore]
    issues. *)
Definition mark_deleted (env : Env) : UpdateInput :=
  {| d_email := None; d_name := None; d_password := None; d_status := None;
     d_deletedAt := Some (Some (now env)) |}.

Definition mark_restored : UpdateInput :=
  {| d_email := None; d_name := None; d_password := None; d_status := None;
     d_deletedAt := Some None |}.

Lemma remove_run (env : Env) (id : jsstring) (db : UserDB) :
  remove env id db
  = match List.find (live id) db with
    | Some _ =>
        match List.find (has_id id) db with
        | Some u =>
            (inr tt, replace_row id (apply_update env (mark_deleted env) u) db)
        | None => (inl InternalServerErrorException, db)
        end
    | None => (inl NotFoundException, db)
    end.
Proof.
  unfold remove, try_catch, mbind, M_bind. rewrite findOne_run.
  destruct (List.find (live id) db); [|done].
  unfold PrismaUser.update. simpl. by destruct (List.find (has_id id) db).
Qed.

Lemma restore_run (env : Env) (id : jsstring) (db : UserDB) :
  restore env id db
  = match List.find (has_id id) db with
    | None => (inl NotFoundException, db)
    | Some u =>
        match User.deletedAt u with
        | None => (inl ConflictException, db)
        | Some _ =>
            (inr (entity_of (apply_update env mark_restored u)),
             replace_row id (apply_update env mark_restored u) db)
        end
    end.
Proof.
  unfold restore, try_catch, mbind, M_bind, findUnique. simpl.
  destruct (List.find (has_id id) db) as [u|] eqn:Hf; [|done].
  destruct (User.deletedAt u); simpl; [|done].
  unfold PrismaUser.update. by rewrite Hf.
Qed.

(** Every page of [findAll] holds live rows of the table only. *)
Lemma findAll_live (dto : PaginationWithSearchDto.t) (db db' : UserDB)
    (page : Page) (e : UserEntity) :
  findAll dto db = (inr page, db') → e ∈ data page →
  ∃ u, u ∈ db ∧ User.deletedAt u = None ∧ e = entity_of u.
Proof.
  unfold findAll, try_catch, mbind, M_bind.
  destruct (findMany _ _ _ _ db) as [[err|users] db1] eqn:Hmany; [done|].
  apply findMany_subset in Hmany as [-> Hsub].
  destruct (count _ db) as [[err|total] db2]; [done|].
  intros [= <- <-]. simpl. intros (u & -> & Hu)%list_elem_of_fmap.
  destruct (Hsub u Hu) as [Hin Hm]. exists u. split; [done|]. split; [|done].
  unfold matches in Hm. simpl in Hm.
  apply andb_true_iff in Hm as [Hm _].
  by apply bool_decide_eq_true in Hm.
Qed.

(** C2.  [remove] on a user that exists and is not soft-deleted sets its
    delete timestamp to the current time; afterwards [findOne] fails with
    NotFound and no page of [findAll] contains the user.  On an identifier
    with no live row (already soft-deleted, or absent) [remove] fails with
    NotFound and leaves the table as it is. *)
Theorem remove_soft_deletes (env : Env) (id : jsstring) (db : UserDB) :
  NoDup (User.id <$> db) →
  (∀ u, u ∈ db → User.id u = id → User.deletedAt u = None →
     ∃ db', remove env id db = (inr tt, db')
       ∧ db' = replace_row id (apply_update env (mark_deleted env) u) db
       ∧ (∃ r, r ∈ db' ∧ User.id r = id)
       ∧ (∀ r, r ∈ db' → User.id r = id →
            User.deletedAt r = Some (now env))
       ∧ findOne id db' = (inl NotFoundException, db')
       ∧ (∀ dto page db'' e,
            findAll dto db' = (inr page, db'') → e ∈ data page →
            e !! "id" ≠ Some (VString id)))
  ∧ ((∀ u, u ∈ db → User.id u = id → User.deletedAt u ≠ None) →
     remove env id db = (inl NotFoundException, db)).
Proof.
  intros Hnd. split.
  - intros u Hu Hid Hlive.
    set (u' := apply_update env (mark_deleted env) u).
    assert (∀ r, r ∈ replace_row id u' db → User.id r = id →
                 User.deletedAt r = Some (now env)) as Hdel.
    { intros r [[_ Hne]|[-> _]]%elem_of_replace_row Hr; done. }
    exists (replace_row id u' db). repeat split.
    + rewrite remove_run.
      destruct (find_exists (live id) db u Hu) as [v ->];
        [by apply live_spec|].
      subst id. by rewrite (find_by_id db u).
    + exists u'. split; [|by subst id].
      apply elem_of_replace_row. right. eauto.
    + done.
    + rewrite findOne_run, find_all_false; [done|].
      intros r Hr. apply not_true_is_false. intros [Hr1 Hr2]%live_spec.
      rewrite (Hdel r Hr Hr1) in Hr2. done.
    + intros dto page db'' e Hall He.
      destruct (findAll_live _ _ _ _ _ Hall He) as (r & Hr & Hnone & ->).
      rewrite entity_id. intros [= Hrid].
      rewrite (Hdel r Hr Hrid) in Hnone. done.
  - intros Hno. rewrite remove_run, find_all_false; [done|].
    intros r Hr. apply not_true_is_false. intros [Hr1 Hr2]%live_spec.
    by apply (Hno r Hr Hr1).
Qed.

(** C3.  [restore] looks the row up by its identifier alone: NotFound if
    there is none, Conflict if its delete timestamp is null; otherwise the
    timestamp is cleared, the user is returned, and [findOne] returns it
    again with the identifier and email it had. *)
Theorem restore_spec (env : Env) (id : jsstring) (db : UserDB) :
  NoDup (User.id <$> db) →
  ((∀ u, u ∈ db → User.id u ≠ id) →
   restore env id db = (inl NotFoundException, db))
  ∧ (∀ u, u ∈ db → User.id u = id → User.deletedAt u = None →
     restore env id db = (inl ConflictException, db))
  ∧ (∀ u t, u ∈ db → User.id u = id → User.deletedAt u = Some t →
     ∃ db' e, restore env id db = (inr e, db')
       ∧ db' = replace_row id (apply_update env mark_restored u) db
       ∧ (∀ r, r ∈ db' → User.id r = id → User.deletedAt r = None)
       ∧ e !! "id" = Some (VString id)
       ∧ e !! "email" = Some (VString (User.email u))
       ∧ e !! "deletedAt" = Some VNull
       ∧ findOne id db' = (inr e, db')).
Proof.
  intros Hnd. split; [|split].
  - intros Hno. rewrite restore_run.
    by rewrite find_no_id.
  - intros u Hu <- Hnone. rewrite restore_run.
    by rewrite (find_by_id db u), Hnone.
  - intros u t Hu <- Hdel.
    set (u' := apply_update env mark_restored u).
    assert (u' ∈ replace_row (User.id u) u' db) as Hu'.
    { apply elem_of_replace_row. right. eauto. }
    exists (replace_row (User.id u) u' db), (entity_of u').
    split; [|split; [done|split; [|split; [done|split; [done|split]]]]].
    + rewrite restore_run. by rewrite (find_by_id db u), Hdel.
    + by intros r [[_ Hne]|[-> _]]%elem_of_replace_row Hr.
    + done.
    + rewrite findOne_run.
      rewrite (find_by_pred User.id (live (User.id u)) _ u').
      * done.
      * by rewrite replace_row_ids.
      * done.
      * by apply live_spec.
      * by intros y [Hy _]%live_spec.
Qed.

(** ** A small table: a live user and a soft-deleted one *)

Definition env0 : Env :=
  {| now := 1700000000000;
     cuid := str "u3";
     bcrypt_hash := fun password _ => str "$2b$10$" ++ password;
     bcrypt_compare := fun password hash =>
       bool_decide (hash = str "$2b$10$" ++ password) |}.

Definition alice : User.t :=
  {| User.id := str "u1"; User.email := str "alice@example.com";
     User.name := Some (str "Alice"); User.password := str "$2b$10$secret";
     User.status := ACTIVE; User.deletedAt := None;
     User.createdAt := 1690000000000; User.updatedAt := 1690000000000 |}.

Definition bob : User.t :=
  {| User.id := str "u2"; User.email := str "bob@example.com";
     User.name := None; User.password := str "$2b$10$hunter2";
     User.status := SUSPENDED; User.deletedAt := Some 1695000000000;
     User.createdAt := 1691000000000; User.updatedAt := 1695000000000 |}.

Definition db0 : UserDB := [alice; bob].

Lemma db0_ids : NoDup (User.id <$> db0).
Proof. apply (bool_decide_unpack _). by vm_compute. Qed.

Lemma db0_emails : NoDup (User.email <$> db0).
Proof. apply (bool_decide_unpack _). by vm_compute. Qed.

Lemma forall_db0 (P : User.t → Prop) :
  P alice → P bob → ∀ u, u ∈ db0 → P u.
Proof.
  intros Ha Hb u Hu. apply elem_of_cons in Hu as [->|Hu]; [done|].
  apply list_elem_of_singleton in Hu as ->. done.
Qed.

(** The default list before and after the soft delete of the live user. *)
Definition default_list : PaginationWithSearchDto.t :=
  {| PaginationWithSearchDto.page := None;
     PaginationWithSearchDto.limit := None;
     PaginationWithSearchDto.sortBy := None;
     PaginationWithSearchDto.sortOrder := None;
     PaginationWithSearchDto.q := None |}.

End UserLifecycle.

Section UserLifecycleExamples.

Import PrismaUser UserService.
#[local] Arguments User_object : simpl never.
#[local] Arguments excludePassword : simpl never.

#[local] Existing Instance database0.

Lemma remove_soft_deletes_witness :
  NoDup (User.id <$> db0) ∧ alice ∈ db0 ∧ User.deletedAt alice = None
  ∧ (∃ db', remove env0 (User.id alice) db0 = (inr tt, db')
       ∧ (∀ r, r ∈ db' → User.id r = User.id alice →
            User.deletedAt r = Some (now env0))
       ∧ findOne (User.id alice) db' = (inl NotFoundException, db')
       ∧ (∀ dto page db'' e,
            findAll dto db' = (inr page, db'') → e ∈ data page →
            e !! "id" ≠ Some (VString (User.id alice))))
  ∧ remove env0 (User.id bob) db0 = (inl NotFoundException, db0)
  ∧ remove env0 (str "nobody") db0 = (inl NotFoundException, db0).
Proof.
  assert (alice ∈ db0) as Ha by left.
  split; [exact db0_ids|]. split; [exact Ha|]. split; [reflexivity|].
  split; [|split].
  - destruct (remove_soft_deletes env0 (User.id alice) db0 db0_ids)
      as [H _].
    destruct (H alice Ha eq_refl eq_refl)
      as (db' & Hrun & _ & _ & Hdel & Hone & Hall).
    exists db'. done.
  - apply (remove_soft_deletes env0 (User.id bob) db0 db0_ids).
    apply (forall_db0 (fun u => User.id u = _ → User.deletedAt u ≠ None));
      vm_compute; congruence.
  - apply (remove_soft_deletes env0 (str "nobody") db0 db0_ids).
    apply (forall_db0 (fun u => User.id u = _ → User.deletedAt u ≠ None));
      vm_compute; congruence.
Defined.

Lemma findAll_before_and_after_remove :
  (findAll default_list db0).1
  = inr {| data := [entity_of alice];
           meta := QueryHelper.buildMeta (JNum 1) (JNum 10) (JNum 1) |}
  ∧ (findAll default_list (remove env0 (User.id alice) db0).2).1
    = inr {| data := [];
             meta := QueryHelper.buildMeta (JNum 1) (JNum 10) (JNum 0) |}.
Proof. split; vm_compute; reflexivity. Qed.

Lemma restore_spec_witness :
  NoDup (User.id <$> db0) ∧ bob ∈ db0
  ∧ User.deletedAt bob = Some 1695000000000
  ∧ (∃ db' e, restore env0 (User.id bob) db0 = (inr e, db')
       ∧ e !! "id" = Some (VString (User.id bob))
       ∧ e !! "email" = Some (VString (User.email bob))
       ∧ findOne (User.id bob) db' = (inr e, db'))
  ∧ restore env0 (User.id alice) db0 = (inl ConflictException, db0)
  ∧ restore env0 (str "nobody") db0 = (inl NotFoundException, db0).
Proof.
  assert (bob ∈ db0) as Hb by (right; left).
  assert (alice ∈ db0) as Ha by left.
  split; [exact db0_ids|]. split; [exact Hb|]. split; [reflexivity|].
  split; [|split].
  - destruct (restore_spec env0 (User.id bob) db0 db0_ids) as (_ & _ & H).
    destruct (H bob _ Hb eq_refl eq_refl)
      as (db' & e & Hrun & _ & _ & Hid & Hemail & _ & Hone).
    exists db', e. done.
  - destruct (restore_spec env0 (User.id alice) db0 db0_ids) as (_ & H & _).
    exact (H alice Ha eq_refl eq_refl).
  - apply (restore_spec env0 (str "nobody") db0 db0_ids).
    apply (forall_db0 (fun u => User.id u ≠ _)); vm_compute; congruence.
Defined.

End UserLifecycleExamples.

(* ===================================================================== *)
(** * The user service: the email uniqueness check *)
(* ===================================================================== *)

Section UserEmail.

Context {database : Database}.

Import PrismaUser UserService.

#[local] Arguments User_object : simpl never.
#[local] Arguments excludePassword : simpl never.

Lemma unique_column_inj {A K : Type} `{EqDecision K} (col : A → K)
    (l : list A) (x y : A) :
  NoDup (col <$> l) → x ∈ l → y ∈ l → col x = col y → x = y.
Proof.
  intros Hnd Hx Hy Heq.
  pose proof (find_by_unique col l x Hnd Hx) as H1.
  pose proof (find_by_unique col l y Hnd Hy) as H2.
  rewrite Heq in H1. congruence.
Qed.

Lemma create_conflict (env : Env) (dto : CreateUserDto.t) (db : UserDB)
    (u : User.t) :
  u ∈ db → User.email u = CreateUserDto.email dto →
  create env dto db = (inl ConflictException, db).
Proof.
  intros Hu Hemail.
  unfold create, try_catch, mbind, M_bind, findUnique, lookup_unique.
  destruct (find_exists (has_email (CreateUserDto.email dto)) db u Hu)
    as [v ->]; [by apply has_email_spec|done].
Qed.

Lemma update_conflict (env : Env) (id : jsstring) (dto : UpdateUserDto.t)
    (db : UserDB) (e : jsstring) (u : User.t) :
  is_Some (List.find (live id) db) →
  UpdateUserDto.email dto = Some e → e ≠ [] →
  List.find (has_email e) db = Some u → User.id u ≠ id →
  update env id dto db = (inl ConflictException, db).
Proof.
  intros [t Ht] He Hne Hfind Hid.
  unfold update, try_catch, mbind, M_bind. rewrite findOne_run, Ht.
  unfold update_checked, mbind, M_bind. rewrite He.
  destruct e as [|c e]; [done|]. simpl.
  unfold findUnique, lookup_unique. rewrite Hfind.
  by rewrite bool_decide_eq_true_2.
Qed.

Lemma update_own_email (env : Env) (id : jsstring) (dto : UpdateUserDto.t)
    (db : UserDB) (e : jsstring) (u : User.t) :
  NoDup (User.email <$> db) →
  is_Some (List.find (live id) db) →
  UpdateUserDto.email dto = Some e → e ≠ [] →
  u ∈ db → User.email u = e → User.id u = id →
  ∃ e' db', update env id dto db = (inr e', db').
Proof.
  intros Hnd [t Ht] He Hne Hu Hemail Hid.
  unfold update, try_catch, mbind, M_bind. rewrite findOne_run, Ht.
  unfold update_checked, mbind, M_bind. rewrite He.
  destruct e as [|c e]; [done|]. simpl.
  unfold findUnique, lookup_unique.
  rewrite <- Hemail, (find_by_email db u Hnd Hu).
  rewrite bool_decide_eq_false_2 by (intros H; by apply H). simpl.
  unfold PrismaUser.update.
  destruct (find_exists (has_id id) db u Hu) as [x ->];
    [by apply has_id_spec|].
  assert (email_taken id
            {| d_email := Some (User.email u);
               d_name := UpdateUserDto.name dto;
               d_password :=
                 if Js.str_truthy (UpdateUserDto.password dto)
                 then Some (bcrypt_hash env
                              (default [] (UpdateUserDto.password dto))
                              saltRounds)
                 else None;
               d_status := None; d_deletedAt := None |} db = false) as ->.
  { apply not_true_is_false. unfold email_taken. simpl.
    intros (r & Hr & Hb)%existsb_exists.
    apply andb_true_iff in Hb as [Hb1 Hb2].
    apply has_email_spec in Hb1. apply list_elem_of_In in Hr.
    assert (r = u) as -> by by apply (unique_column_inj User.email db).
    apply negb_true_iff in Hb2.
    by rewrite (proj2 (has_id_spec id u) Hid) in Hb2. }
  rewrite Hemail. eauto.
Qed.

(** No live row has the id: the existence check of [update] fails. *)
Lemma update_not_found (env : Env) (id : jsstring) (dto : UpdateUserDto.t)
    (db : UserDB) :
  (∀ t, t ∈ db → User.id t = id → User.deletedAt t ≠ None) →
  update env id dto db = (inl NotFoundException, db).
Proof.
  intros Hnone.
  unfold update, try_catch, mbind, M_bind. rewrite findOne_run.
  rewrite find_all_false; [done|].
  intros t Ht. apply not_true_is_false. intros [Hid Hlive]%live_spec.
  by apply (Hnone t).
Qed.

(** C4, as the code has it.  The check reads the row by its email alone:
    [create] fails with Conflict whenever a row with the email exists, live
    or soft-deleted; [update] of an existing live user to a non-empty email
    fails with Conflict when the row with that email is another user, and
    goes through when it is the user itself.  An [update] whose target id
    no live row has fails with NotFound, whatever the email. *)
Theorem email_check_ignores_soft_delete (env : Env) (db : UserDB) :
  (∀ dto u, u ∈ db → User.email u = CreateUserDto.email dto →
     create env dto db = (inl ConflictException, db))
  ∧ (∀ id dto e t u,
       NoDup (User.email <$> db) →
       t ∈ db → User.id t = id → User.deletedAt t = None →
       UpdateUserDto.email dto = Some e → e ≠ [] →
       u ∈ db → User.email u = e →
       (User.id u ≠ id → update env id dto db = (inl ConflictException, db))
       ∧ (User.id u = id → ∃ e' db', update env id dto db = (inr e', db')))
  ∧ (∀ id dto,
       (∀ t, t ∈ db → User.id t = id → User.deletedAt t ≠ None) →
       update env id dto db = (inl NotFoundException, db)).
Proof.
  split; [|split].
  - intros dto u. apply create_conflict.
  - intros id dto e t u Hnd Ht Htid Htlive He Hne Hu Hemail.
    assert (is_Some (List.find (live id) db)) as Hlive.
    { apply (find_exists _ _ t Ht). by apply live_spec. }
    split.
    + intros Hid. apply (update_conflict env id dto db e u); try done.
      rewrite <- Hemail. by apply find_by_email.
    + intros Hid. by apply (update_own_email env id dto db e u).
  - intros id dto. apply update_not_found.
Qed.

Definition take_alice_email : UpdateUserDto.t :=
  {| UpdateUserDto.email := Some (User.email alice);
     UpdateUserDto.name := None; UpdateUserDto.password := None |}.

Definition take_bob_email : UpdateUserDto.t :=
  {| UpdateUserDto.email := Some (User.email bob);
     UpdateUserDto.name := None; UpdateUserDto.password := None |}.

(** A live user whose email is the empty string. *)
Definition blank : User.t :=
  {| User.id := str "u5"; User.email := []; User.name := None;
     User.password := str "$2b$10$x"; User.status := ACTIVE;
     User.deletedAt := None; User.createdAt := 1694000000000;
     User.updatedAt := 1694000000000 |}.

Definition take_blank_email : UpdateUserDto.t :=
  {| UpdateUserDto.email := Some (User.email blank);
     UpdateUserDto.name := None; UpdateUserDto.password := None |}.

End UserEmail.

Section UserEmailExamples.

Import PrismaUser UserService.
#[local] Arguments User_object : simpl never.
#[local] Arguments excludePassword : simpl never.

#[local] Existing Instance database0.

Lemma email_check_ignores_soft_delete_witness :
  (bob ∈ db0 ∧ User.deletedAt bob ≠ None
   ∧ create env0
       {| CreateUserDto.email := User.email bob;
          CreateUserDto.name := None;
          CreateUserDto.password := str "secret" |} db0
     = (inl ConflictException, db0))
  ∧ NoDup (User.email <$> db0) ∧ alice ∈ db0
  ∧ update env0 (User.id alice) take_bob_email db0
    = (inl ConflictException, db0)
  ∧ (∃ e' db', update env0 (User.id alice) take_alice_email db0
               = (inr e', db'))
  ∧ update env0 (User.id bob) take_alice_email db0
    = (inl NotFoundException, db0)
  ∧ update env0 (str "nobody") take_alice_email db0
    = (inl NotFoundException, db0).
Proof.
  assert (alice ∈ db0) as Ha by left.
  assert (bob ∈ db0) as Hb by (right; left).
  destruct (email_check_ignores_soft_delete env0 db0) as (Hc & Hu & Hn).
  split; [split; [exact Hb|split; [done|]]
         |split; [exact db0_emails|split; [exact Ha|]]].
  - by apply (Hc _ bob).
  - split; [|split; [|split]].
    + apply (Hu (User.id alice) take_bob_email (User.email bob) alice bob
               db0_emails Ha eq_refl eq_refl eq_refl); [done|exact Hb|done|].
      vm_compute. congruence.
    + by apply (Hu (User.id alice) take_alice_email (User.email alice)
                  alice alice db0_emails Ha eq_refl eq_refl eq_refl).
    + apply Hn.
      apply (forall_db0 (fun t => User.id t = _ → User.deletedAt t ≠ None));
        vm_compute; congruence.
    + apply Hn.
      apply (forall_db0 (fun t => User.id t = _ → User.deletedAt t ≠ None));
        vm_compute; congruence.
Defined.

(** C4 as it is stated does not hold, in two ways.  An update whose
    target does not exist, or is soft-deleted, fails with NotFound before
    the email is looked at, although another row holds the email.  And the
    check is skipped for the empty email, which is falsy: an update of a
    live user to the empty email, which another row holds, reaches the
    unique index and ends as an internal error. *)
Lemma update_taken_email_not_conflict :
  (alice ∈ db0
   ∧ UpdateUserDto.email take_alice_email = Some (User.email alice)
   ∧ User.id alice ≠ str "nobody" ∧ User.id alice ≠ User.id bob
   ∧ update env0 (str "nobody") take_alice_email db0
     = (inl NotFoundException, db0)
   ∧ update env0 (User.id bob) take_alice_email db0
     = (inl NotFoundException, db0)
   ∧ NotFoundException ≠ ConflictException)
  ∧ (blank ∈ [alice; blank] ∧ alice ∈ [alice; blank]
     ∧ User.deletedAt alice = None
     ∧ UpdateUserDto.email take_blank_email = Some (User.email blank)
     ∧ User.id blank ≠ User.id alice
     ∧ update env0 (User.id alice) take_blank_email [alice; blank]
       = (inl InternalServerErrorException, [alice; blank])
     ∧ InternalServerErrorException ≠ ConflictException).
Proof.
  split.
  - repeat split; try done. left.
  - repeat split; try done; [right; left|left].
Qed.

End UserEmailExamples.

(* ===================================================================== *)
(** * The user service: what the operations return *)
(* ===================================================================== *)

Section UserEntities.

Context {database : Database}.

Import PrismaUser.

#[local] Arguments User_object : simpl never.
#[local] Arguments UserServiceBase.excludePassword : simpl never.

(** The user objects the public operations of the service return, in the
    soft-delete variant and in the earlier one. *)
Inductive returned (env : Env) (db : UserDB) : UserEntity → Prop :=
| returned_create dto e db' :
    UserServiceBase.create env dto db = (inr e, db') → returned env db e
| returned_findAll dto page db' e :
    UserService.findAll dto db = (inr page, db') →
    e ∈ UserService.data page → returned env db e
| returned_findOne id e db' :
    UserService.findOne id db = (inr e, db') → returned env db e
| returned_findByEmail email e db' :
    UserService.findByEmail email db = (inr (Some e), db') →
    returned env db e
| returned_update id dto e db' :
    UserService.update env id dto db = (inr e, db') → returned env db e
| returned_restore id e db' :
    UserService.restore env id db = (inr e, db') → returned env db e
| returned_updateStatus id status e db' :
    UserService.updateStatus env id status db = (inr e, db') →
    returned env db e
| returned_validateCredentials email password e db' :
    UserServiceBase.validateCredentials env email password db
    = (inr (Some e), db') →
    returned env db e
| returned_findAll_v0 page limit result db' e :
    UserServiceV0.findAll page limit db = (inr result, db') →
    e ∈ UserServiceV0.data result → returned env db e
| returned_findOne_v0 id e db' :
    UserServiceV0.findOne id db = (inr e, db') → returned env db e
| returned_findByEmail_v0 email e db' :
    UserServiceV0.findByEmail email db = (inr (Some e), db') →
    returned env db e
| returned_update_v0 id dto e db' :
    UserServiceV0.update env id dto db = (inr e, db') → returned env db e.

(** Run a service operation that returned a value, case by case. *)
Ltac run_service H :=
  unfold try_catch, mbind, M_bind, mret, M_ret, throw,
    UserServiceBase.rethrow_known, findUnique, findFirst in H;
  simpl in H;
  repeat (case_match; simplify_eq; try done).

Lemma excluded_no_password (o : jsobject) :
  UserServiceBase.excludePassword o !! "password" = None.
Proof. apply lookup_delete_eq. Qed.

Lemma update_checked_entity (env : Env) (id : jsstring)
    (dto : UpdateUserDto.t) (db db' : UserDB) (e : UserEntity) :
  UserServiceBase.update_checked env id dto db = (inr e, db') →
  e !! "password" = None.
Proof.
  intros H. unfold UserServiceBase.update_checked in H. run_service H.
  all: apply excluded_no_password.
Qed.

(** C9.  No user object returned by a public operation of the service has
    a [password] property. *)
Theorem returned_without_password (env : Env) (db : UserDB)
    (e : UserEntity) :
  returned env db e → e !! "password" = None.
Proof.
  intros [dto e' db' H|dto page db' e' H He|id e' db' H|email e' db' H
         |id dto e' db' H|id e' db' H|id status e' db' H
         |email password e' db' H|page limit result db' e' H He
         |id e' db' H|email e' db' H|id dto e' db' H].
  - unfold UserServiceBase.create in H. run_service H.
    all: apply excluded_no_password.
  - destruct (findAll_live _ _ _ _ _ H He) as (u & _ & _ & ->).
    apply excluded_no_password.
  - unfold UserService.findOne in H. run_service H.
    all: apply excluded_no_password.
  - unfold UserService.findByEmail in H. run_service H.
    destruct (List.find _ db); simplify_eq/=. apply excluded_no_password.
  - unfold UserService.update in H. run_service H.
    all: by eapply update_checked_entity.
  - unfold UserService.restore in H. run_service H.
    all: apply excluded_no_password.
  - unfold UserService.updateStatus in H. run_service H.
    all: apply excluded_no_password.
  - unfold UserServiceBase.validateCredentials in H. run_service H.
    all: apply excluded_no_password.
  - unfold UserServiceV0.findAll in H. run_service H.
    all: simpl in He; apply list_elem_of_fmap in He as (u & -> & _).
    all: apply excluded_no_password.
  - unfold UserServiceV0.findOne in H. run_service H.
    all: apply excluded_no_password.
  - unfold UserServiceV0.findByEmail in H. run_service H.
    destruct (List.find _ db); simplify_eq/=. apply excluded_no_password.
  - unfold UserServiceV0.update in H. run_service H.
    all: by eapply update_checked_entity.
Qed.

End UserEntities.

Section UserEntitiesExamples.

Import PrismaUser.
#[local] Arguments User_object : simpl never.
#[local] Arguments UserServiceBase.excludePassword : simpl never.

#[local] Existing Instance database0.

Lemma returned_without_password_witness :
  User_object alice !! "password" = Some (VString (User.password alice))
  ∧ returned env0 db0 (entity_of alice)
  ∧ entity_of alice !! "password" = None.
Proof.
  assert (returned env0 db0 (entity_of alice)) as H.
  { apply (returned_findOne env0 db0 (User.id alice) _ db0). reflexivity. }
  split; [reflexivity|]. split; [exact H|].
  exact (returned_without_password env0 db0 _ H).
Defined.

End UserEntitiesExamples.

(* ===================================================================== *)
(** * The role service: grants of a role *)
(* ===================================================================== *)

Section Roles.

Import PrismaRole RoleService.

Lemma filter_all {A : Type} (f : A → bool) (l : list A) :
  (∀ x, x ∈ l → f x = true) → List.filter f l = l.
Proof.
  induction l as [|x l IH]; simpl; intros H; [done|].
  rewrite (H x) by left. f_equal. apply IH. intros y Hy. apply H. by right.
Qed.

Lemma filter_nothing {A : Type} (f : A → bool) (l : list A) :
  (∀ x, x ∈ l → f x = false) → List.filter f l = [].
Proof.
  induction l as [|x l IH]; simpl; intros H; [done|].
  rewrite (H x) by left. apply IH. intros y Hy. apply H. by right.
Qed.

Lemma elem_of_filter_bool {A : Type} (f : A → bool) (l : list A) (x : A) :
  x ∈ List.filter f l ↔ x ∈ l ∧ f x = true.
Proof. by rewrite !list_elem_of_In, filter_In. Qed.

Lemma NoDup_fmap_filter {A B : Type} (g : A → B) (f : A → bool)
    (l : list A) :
  NoDup (g <$> l) → NoDup (g <$> List.filter f l).
Proof.
  induction l as [|x l IH]; simpl; [done|].
  intros [Hx Hnd]%NoDup_cons. destruct (f x); [|by apply IH].
  simpl. apply NoDup_cons. split; [|by apply IH].
  intros (y & Heq & [Hy _]%elem_of_filter_bool)%list_elem_of_fmap.
  apply Hx. rewrite Heq. by apply list_elem_of_fmap_2.
Qed.

Lemma constraints_ok_spec (db : RoleDB) :
  constraints_ok db = true ↔
  NoDup (Role.id <$> roles db) ∧ NoDup (Role.name <$> roles db)
  ∧ NoDup (RolePermission.id <$> role_permissions db)
  ∧ NoDup (RolePermission.key <$> role_permissions db).
Proof.
  unfold constraints_ok. rewrite !andb_true_iff, !bool_decide_eq_true. tauto.
Qed.

(** ** The rows of a nested [create] *)


Lemma new_grants_ids (env : RoleEnv) (rid : jsstring)
    (gs : list (Resource * Action)) :
  RolePermission.id <$> new_grants env rid gs
  = permission_cuid env <$> seq 0 (length gs).
Proof.
  unfold new_grants. rewrite fmap_imap.
  rewrite (imap_ext _ (fun j _ => permission_cuid env j)); [|done].
  apply imap_seq_0.
Qed.

Lemma new_grants_keys (env : RoleEnv) (rid : jsstring)
    (gs : list (Resource * Action)) :
  RolePermission.key <$> new_grants env rid gs
  = (fun g => (rid, g.1, g.2)) <$> gs.
Proof.
  unfold new_grants. rewrite fmap_imap.
  rewrite (imap_ext _ (const (fun g => (rid, g.1, g.2)))); [|done].
  apply imap_const.
Qed.

Lemma new_grants_role (env : RoleEnv) (rid : jsstring)
    (gs : list (Resource * Action)) (g : RolePermission.t) :
  g ∈ new_grants env rid gs → RolePermission.roleId g = rid.
Proof. by intros (i & y & -> & _)%elem_of_lookup_imap. Qed.

Lemma of_role_spec (rid : jsstring) (g : RolePermission.t) :
  of_role rid g = true ↔ RolePermission.roleId g = rid.
Proof. unfold of_role. by rewrite bool_decide_eq_true. Qed.

(** The identifiers the database generates do not collide: they are
    pairwise distinct and differ from those of the rows that stay. *)
Definition fresh_permission_ids (env : RoleEnv) (n : nat)
    (existing : list RolePermission.t) : Prop :=
  NoDup (permission_cuid env <$> seq 0 n)
  ∧ ∀ k, (k < n)%nat →
         permission_cuid env k ∉ RolePermission.id <$> existing.

(** The grants of other roles and the new grants of [rid] satisfy the
    primary key and the unique index together. *)
Lemma grants_constraints (env : RoleEnv) (rid : jsstring)
    (others : list RolePermission.t) (gs : list (Resource * Action)) :
  NoDup (RolePermission.id <$> others) →
  NoDup (RolePermission.key <$> others) →
  (∀ g, g ∈ others → RolePermission.roleId g ≠ rid) →
  NoDup gs →
  fresh_permission_ids env (length gs) others →
  NoDup (RolePermission.id <$> others ++ new_grants env rid gs)
  ∧ NoDup (RolePermission.key <$> others ++ new_grants env rid gs).
Proof.
  intros Hid Hkey Hother Hgs [Hfresh1 Hfresh2].
  rewrite !fmap_app, new_grants_ids, new_grants_keys. split.
  - apply NoDup_app. split; [done|]. split; [|done].
    intros x Hx (k & -> & Hk)%list_elem_of_fmap.
    apply elem_of_seq in Hk. apply (Hfresh2 k); [lia|done].
  - apply NoDup_app. split; [done|]. split.
    + intros x (g & -> & Hg)%list_elem_of_fmap
        (p & Heq & Hp)%list_elem_of_fmap.
      apply (Hother g Hg). unfold RolePermission.key in Heq. congruence.
    + apply NoDup_fmap_2; [|done]. intros [??] [??] ?. simplify_eq/=. done.
Qed.

(** ** Replacing the row of a role *)

Definition replace_role (id : jsstring) (r' : Role.t) (l : list Role.t)
  : list Role.t :=
  (fun x => if has_id id x then r' else x) <$> l.

Lemma has_role_id_spec (id : jsstring) (r : Role.t) :
  has_id id r = true ↔ Role.id r = id.
Proof. unfold has_id. by rewrite bool_decide_eq_true. Qed.

Lemma replace_role_ids (id : jsstring) (r' : Role.t) (l : list Role.t) :
  Role.id r' = id → Role.id <$> replace_role id r' l = Role.id <$> l.
Proof.
  intros Hr. unfold replace_role. rewrite <- list_fmap_compose.
  apply list_fmap_ext. intros i x _. simpl.
  destruct (has_id id x) eqn:Hx; [|done].
  apply has_role_id_spec in Hx. congruence.
Qed.


(** ** Creating and updating a role *)

(** The constraints of the schema: keys, unique indexes, and the foreign
    key of a grant. *)
Definition db_ok (db : RoleDB) : Prop :=
  constraints_ok db = true
  ∧ ∀ g, g ∈ role_permissions db →
         RolePermission.roleId g ∈ Role.id <$> roles db.


(** The grants of the roles other than [id]. *)
Definition grants_of_others (id : jsstring) (db : RoleDB)
  : list RolePermission.t :=
  List.filter (fun g => negb (of_role id g)) (role_permissions db).

Lemma filter_role_new (env : RoleEnv) (id : jsstring)
    (others : list RolePermission.t) (gs : list (Resource * Action)) :
  (∀ g, g ∈ others → RolePermission.roleId g ≠ id) →
  List.filter (of_role id) (others ++ new_grants env id gs)
  = new_grants env id gs.
Proof.
  intros Hothers. rewrite List.filter_app.
  rewrite filter_nothing, filter_all; [done| |].
  - intros g Hg. apply of_role_spec. by eapply new_grants_role.
  - intros g Hg. apply not_true_is_false. intros Hr%of_role_spec.
    by apply (Hothers g Hg).
Qed.

Lemma others_not_of_role (id : jsstring) (db : RoleDB) (g : RolePermission.t) :
  g ∈ grants_of_others id db → RolePermission.roleId g ≠ id.
Proof.
  intros [_ Hg]%elem_of_filter_bool Heq%of_role_spec.
  apply negb_true_iff in Hg. congruence.
Qed.

Lemma create_grants (env : RoleEnv) (dto : CreateRoleDto.t) (db : RoleDB) :
  db_ok db →
  role_cuid env ∉ Role.id <$> roles db →
  CreateRoleDto.name dto ∉ Role.name <$> roles db →
  NoDup (flatten (default [] (CreateRoleDto.permissions dto))) →
  fresh_permission_ids env
    (length (flatten (default [] (CreateRoleDto.permissions dto))))
    (role_permissions db) →
  ∃ r db', RoleService.create env dto db = (inr r, db')
    ∧ permissions r
      = new_grants env (role_cuid env)
          (flatten (default [] (CreateRoleDto.permissions dto)))
    ∧ Role.id (role r) = role_cuid env
    ∧ roles db' = roles db ++ [role r]
    ∧ role_permissions db' = role_permissions db ++ permissions r.
Proof.
  intros [Hok Hfk] Hid Hname Hgs Hfresh.
  apply constraints_ok_spec in Hok as (Hids & Hnames & Hpids & Hkeys).
  set (gs := flatten (default [] (CreateRoleDto.permissions dto))) in *.
  assert (∀ g, g ∈ role_permissions db →
               RolePermission.roleId g ≠ role_cuid env) as Hothers.
  { intros g Hg Heq. apply Hid. rewrite <- Heq. by apply Hfk. }
  unfold RoleService.create, PrismaRole.create, commit.
  assert (default []
            match CreateRoleDto.permissions dto with
            | Some ((_ :: _) as ps) => Some (flatten ps)
            | _ => None
            end = gs) as ->.
  { subst gs. by destruct (CreateRoleDto.permissions dto) as [[|??]|]. }
  destruct (grants_constraints env (role_cuid env) (role_permissions db) gs)
    as [Hpids' Hkeys']; try done.
  rewrite (proj2 (constraints_ok_spec _)).
  - eexists _, _. split; [reflexivity|]. simpl.
    rewrite filter_role_new by done. done.
  - rewrite fmap_app in Hpids'. rewrite fmap_app in Hkeys'.
    simpl. rewrite !fmap_app. simpl. repeat split; try done.
    + apply NoDup_app. split; [done|]. split; [|apply NoDup_singleton].
      intros x Hx ->%list_elem_of_singleton. done.
    + apply NoDup_app. split; [done|]. split; [|apply NoDup_singleton].
      intros x Hx ->%list_elem_of_singleton. done.
Qed.



(** A write is kept only if the constraints hold afterwards, and a write
    that fails leaves both tables as they were. *)
Lemma RoleService_transactional (env : RoleEnv) (db : RoleDB) :
  (∀ dto r db', RoleService.create env dto db = (inr r, db') →
     constraints_ok db' = true)
  ∧ (∀ dto e db', RoleService.create env dto db = (inl e, db') → db' = db)
  ∧ (∀ id dto r db', RoleService.update env id dto db = (inr r, db') →
       constraints_ok db' = true)
  ∧ (∀ id dto e db', RoleService.update env id dto db = (inl e, db') →
       db' = db).
Proof.
  unfold RoleService.create, RoleService.update, PrismaRole.create,
    PrismaRole.update, commit.
  repeat split; intros; repeat case_match; by simplify_eq.
Qed.

(** ** The example of the specification *)

Definition role_env0 : RoleEnv :=
  {| role_now := 1700000000000;
     role_cuid := str "r1";
     permission_cuid := fun k => str "p" ++ Js.Number_toString (N.of_nat k) |}.

Definition no_roles : RoleDB := {| roles := []; role_permissions := [] |}.

Definition editor : CreateRoleDto.t :=
  {| CreateRoleDto.name := str "editor";
     CreateRoleDto.description := None;
     CreateRoleDto.permissions :=
       Some [ {| PermissionDto.resource := USER;
                 PermissionDto.action := [READ; UPDATE] |} ] |}.

Definition editor_update : UpdateRoleDto.t :=
  {| UpdateRoleDto.name := None;
     UpdateRoleDto.permissions :=
       Some [ {| PermissionDto.resource := PERMISSION;
                 PermissionDto.action := [READ] |} ] |}.

(** The table after the role has been created. *)
Definition one_role : RoleDB := (RoleService.create role_env0 editor no_roles).2.



End Roles.

(* ===================================================================== *)
(** * The unique columns of [users] are kept by every operation *)
(* ===================================================================== *)

Section UserInvariant.

Context {database : Database}.

Import PrismaUser.

(** The primary key and the unique index on the email. *)
Definition users_ok (db : UserDB) : Prop :=
  NoDup (User.id <$> db) ∧ NoDup (User.email <$> db).

(** A computation that keeps the constraints, whether it returns or
    throws. *)
Definition preserves {A : Type} (m : M UserDB A) : Prop :=
  ∀ db, users_ok db → users_ok (m db).2.

Lemma preserves_ret {A : Type} (a : A) : preserves (mret a).
Proof. by intros db H. Qed.

Lemma preserves_throw {A : Type} (e : Exception) : preserves (throw (A := A) e).
Proof. by intros db H. Qed.

Lemma preserves_bind {A B : Type} (m : M UserDB A) (k : A → M UserDB B) :
  preserves m → (∀ a, preserves (k a)) → preserves (m ≫= k).
Proof.
  intros Hm Hk db Hdb. unfold mbind, M_bind.
  specialize (Hm db Hdb). destruct (m db) as [[e|a] db']; [done|].
  by apply Hk.
Qed.

Lemma preserves_try_catch {A : Type} (m : M UserDB A)
    (h : Exception → M UserDB A) :
  preserves m → (∀ e, preserves (h e)) → preserves (try_catch m h).
Proof.
  intros Hm Hh db Hdb. unfold try_catch.
  specialize (Hm db Hdb). destruct (m db) as [[e|a] db']; [|done].
  by apply Hh.
Qed.

Lemma preserves_findUnique (w : WhereUnique) : preserves (findUnique w).
Proof. by intros db H. Qed.

Lemma preserves_findFirst (w : WhereInput) : preserves (findFirst w).
Proof. intros db H. unfold findFirst. by destruct (where_valid w). Qed.

Lemma preserves_findMany (w : WhereInput) (o : jsstring * SortOrder)
    (skip take : jsnum) :
  preserves (findMany w o skip take).
Proof. intros db H. unfold findMany. by repeat case_match. Qed.

Lemma preserves_count (w : WhereInput) : preserves (count w).
Proof. intros db H. unfold count. by destruct (where_valid w). Qed.

Lemma existsb_false {A : Type} (f : A → bool) (l : list A) (x : A) :
  existsb f l = false → x ∈ l → f x = false.
Proof.
  intros H Hx. apply not_true_is_false. intros Hf.
  assert (existsb f l = true); [|congruence].
  apply existsb_exists. exists x. by rewrite <- list_elem_of_In.
Qed.

Lemma preserves_create (env : Env) (data : CreateInput) :
  preserves (create env data).
Proof.
  intros db [Hid Hemail]. unfold create.
  destruct (existsb (has_id (cuid env)) db) eqn:H1; [done|].
  destruct (existsb (has_email (c_email data)) db) eqn:H2; [done|].
  simpl. unfold users_ok. rewrite !fmap_app. simpl. split.
  - apply NoDup_app. split; [done|]. split; [|apply NoDup_singleton].
    intros k (x & -> & Hx)%list_elem_of_fmap Hk%list_elem_of_singleton.
    pose proof (existsb_false _ _ _ H1 Hx) as Hf.
    by rewrite (proj2 (has_id_spec _ _) Hk) in Hf.
  - apply NoDup_app. split; [done|]. split; [|apply NoDup_singleton].
    intros k (x & -> & Hx)%list_elem_of_fmap Hk%list_elem_of_singleton.
    pose proof (existsb_false _ _ _ H2 Hx) as Hf.
    by rewrite (proj2 (has_email_spec _ _) Hk) in Hf.
Qed.

Lemma preserves_update (env : Env) (id : jsstring) (data : UpdateInput) :
  preserves (update env id data).
Proof.
  intros db [Hid Hemail]. unfold update.
  destruct (List.find (has_id id) db) as [u|] eqn:Hfind; [|done].
  destruct (email_taken id data db) eqn:Htaken; [done|].
  apply find_elem in Hfind as [Hu Huid%has_id_spec]. simpl. split.
  - by rewrite replace_row_ids.
  - apply (NoDup_replace User.id User.email); try done.
    intros x Hx Hne. unfold email_taken in Htaken. simpl.
    destruct (d_email data) as [e|]; simpl.
    + pose proof (existsb_false _ _ _ Htaken Hx) as Hf. simpl in Hf.
      intros Heq%has_email_spec. rewrite Heq in Hf. simpl in Hf.
      apply negb_false_iff, has_id_spec in Hf. done.
    + intros Heq. apply Hne. rewrite <- Huid. f_equal.
      by apply (unique_column_inj User.email db).
Qed.

Lemma preserves_delete (id : jsstring) : preserves (delete id).
Proof.
  intros db [Hid Hemail]. unfold delete.
  destruct (List.find (has_id id) db); [|done].
  split; by apply NoDup_fmap_filter.
Qed.

(** Build the proof along the structure of the operation. *)
Ltac preserves_step :=
  lazymatch goal with
  | |- ∀ _, _ => intro
  | |- preserves (try_catch _ _) => apply preserves_try_catch
  | |- preserves (mbind _ _) => apply preserves_bind
  | |- preserves (mret _) => apply preserves_ret
  | |- preserves (throw _) => apply preserves_throw
  | |- preserves (findUnique _) => apply preserves_findUnique
  | |- preserves (findFirst _) => apply preserves_findFirst
  | |- preserves (findMany _ _ _ _) => apply preserves_findMany
  | |- preserves (count _) => apply preserves_count
  | |- preserves (create _ _) => apply preserves_create
  | |- preserves (update _ _ _) => apply preserves_update
  | |- preserves (delete _) => apply preserves_delete
  | |- preserves (match ?x with _ => _ end) => destruct x
  | |- preserves (let _ := _ in _) => cbv zeta
  | |- preserves (UserService.findOne _) => unfold UserService.findOne
  | |- preserves (UserServiceV0.findOne _) => unfold UserServiceV0.findOne
  end.

(** X1.  Every operation of the service, in both variants, keeps the primary
    key and the email unique. *)
Theorem UserService_preserves_users_ok (env : Env) :
  (∀ dto, preserves (UserServiceBase.create env dto))
  ∧ (∀ dto, preserves (UserService.findAll dto))
  ∧ (∀ id, preserves (UserService.findOne id))
  ∧ (∀ id dto, preserves (UserService.update env id dto))
  ∧ (∀ id, preserves (UserService.remove env id))
  ∧ (∀ id, preserves (UserService.restore env id))
  ∧ (∀ id, preserves (UserService.forceDelete id))
  ∧ (∀ id status, preserves (UserService.updateStatus env id status))
  ∧ (∀ id dto, preserves (UserServiceV0.update env id dto))
  ∧ (∀ id, preserves (UserServiceV0.remove id)).
Proof.
  repeat lazymatch goal with |- _ ∧ _ => split end; intros;
    unfold UserServiceBase.create, UserService.findAll, UserService.findOne,
      UserService.update, UserService.remove, UserService.restore,
      UserService.forceDelete, UserService.updateStatus,
      UserServiceV0.update, UserServiceV0.remove, UserServiceV0.findOne,
      UserServiceBase.update_checked, UserServiceBase.rethrow_known;
    repeat preserves_step.
Qed.

End UserInvariant.

(* ===================================================================== *)
(** * The user service: hard delete, status and the restore round trip *)
(* ===================================================================== *)

Section UserOperations.

Context {database : Database}.

Import PrismaUser UserService.

#[local] Arguments User_object : simpl never.
#[local] Arguments excludePassword : simpl never.

Lemma find_app {A : Type} (f : A → bool) (l k : list A) :
  List.find f (l ++ k)
  = match List.find f l with
    | Some x => Some x
    | None => List.find f k
    end.
Proof. induction l as [|x l IH]; simpl; [done|]. by destruct (f x). Qed.

Lemma forceDelete_run (id : jsstring) (db : UserDB) :
  forceDelete id db
  = match List.find (has_id id) db with
    | Some _ => (inr tt, List.filter (fun r => negb (has_id id r)) db)
    | None => (inl NotFoundException, db)
    end.
Proof.
  unfold forceDelete, try_catch, mbind, M_bind, findUnique, PrismaUser.delete.
  unfold lookup_unique.
  destruct (List.find (has_id id) db) eqn:Hf; simpl; by rewrite ?Hf.
Qed.

Lemma elem_of_without (id : jsstring) (r : User.t) (db : UserDB) :
  r ∈ List.filter (fun r => negb (has_id id r)) db
  ↔ r ∈ db ∧ User.id r ≠ id.
Proof.
  rewrite elem_of_filter_bool. split.
  - intros [Hr Hb]. split; [done|]. intros Heq%has_id_spec.
    by rewrite Heq in Hb.
  - intros [Hr Hne]. split; [done|].
    apply negb_true_iff, not_true_is_false. by intros Heq%has_id_spec.
Qed.

(** X2.  [forceDelete] removes the row of an identifier whether or not it is
    soft-deleted, and nothing else; afterwards the identifier is unknown to
    [findOne], [restore] and [forceDelete].  With no row for the identifier
    it fails with NotFound and leaves the table as it is. *)
Theorem forceDelete_spec (env : Env) (id : jsstring) (db : UserDB) :
  (∀ u, u ∈ db → User.id u = id →
     ∃ db', forceDelete id db = (inr tt, db')
       ∧ (∀ r, r ∈ db' ↔ r ∈ db ∧ User.id r ≠ id)
       ∧ findOne id db' = (inl NotFoundException, db')
       ∧ restore env id db' = (inl NotFoundException, db')
       ∧ forceDelete id db' = (inl NotFoundException, db'))
  ∧ ((∀ u, u ∈ db → User.id u ≠ id) →
     forceDelete id db = (inl NotFoundException, db)).
Proof.
  split.
  - intros u Hu Hid.
    set (db' := List.filter (fun r => negb (has_id id r)) db).
    assert (List.find (has_id id) db' = None) as Hgone.
    { apply find_no_id. by intros r [_ Hr]%elem_of_without. }
    exists db'. split; [|split; [|split; [|split]]].
    + rewrite forceDelete_run.
      by destruct (find_exists (has_id id) db u Hu) as [v ->];
        [apply has_id_spec|].
    + intros r. apply elem_of_without.
    + rewrite findOne_run, find_all_false; [done|].
      intros r [_ Hr]%elem_of_without. apply not_true_is_false.
      by intros [? _]%live_spec.
    + by rewrite restore_run, Hgone.
    + by rewrite forceDelete_run, Hgone.
  - intros Hno. by rewrite forceDelete_run, find_no_id.
Qed.

(** ** [updateStatus] *)




End UserOperations.

Section UserOperationsExamples.

Import PrismaUser UserService.
#[local] Arguments User_object : simpl never.
#[local] Arguments excludePassword : simpl never.

#[local] Existing Instance database0.

Lemma forceDelete_spec_witness :
  bob ∈ db0
  ∧ (∃ db', forceDelete (User.id bob) db0 = (inr tt, db')
       ∧ (∀ r, r ∈ db' ↔ r ∈ db0 ∧ User.id r ≠ User.id bob)
       ∧ findOne (User.id bob) db' = (inl NotFoundException, db')
       ∧ restore env0 (User.id bob) db' = (inl NotFoundException, db')
       ∧ forceDelete (User.id bob) db' = (inl NotFoundException, db'))
  ∧ forceDelete (str "nobody") db0 = (inl NotFoundException, db0).
Proof.
  assert (bob ∈ db0) as Hb by (right; left).
  split; [exact Hb|]. split.
  - by apply (forceDelete_spec env0 (User.id bob) db0 : _ ∧ _) with bob.
  - apply (forceDelete_spec env0 (str "nobody") db0).
    apply (forall_db0 (fun u => User.id u ≠ _)); vm_compute; congruence.
Defined.


End UserOperationsExamples.

(* ===================================================================== *)
(** * The user service: registration, credentials and updates *)
(* ===================================================================== *)

Section UserAccounts.

Context {database : Database}.

Import PrismaUser UserService.

#[local] Arguments User_object : simpl never.
#[local] Arguments excludePassword : simpl never.

(** The row [create] inserts. *)
Definition new_user (env : Env) (dto : CreateUserDto.t) : User.t :=
  {| User.id := cuid env;
     User.email := CreateUserDto.email dto;
     User.name := CreateUserDto.name dto;
     User.password :=
       bcrypt_hash env (CreateUserDto.password dto) saltRounds;
     User.status := ACTIVE;
     User.deletedAt := None;
     User.createdAt := now env;
     User.updatedAt := now env |}.

Lemma existsb_none {A : Type} (f : A → bool) (l : list A) :
  (∀ x, x ∈ l → f x = false) → existsb f l = false.
Proof.
  intros H. apply not_true_is_false.
  intros (x & Hx%list_elem_of_In & Hf)%existsb_exists.
  rewrite (H x Hx) in Hf. done.
Qed.

Lemma create_run (env : Env) (dto : CreateUserDto.t) (db : UserDB) :
  (∀ u, u ∈ db → User.email u ≠ CreateUserDto.email dto) →
  (∀ u, u ∈ db → User.id u ≠ cuid env) →
  create env dto db = (inr (entity_of (new_user env dto)),
                       db ++ [new_user env dto]).
Proof.
  intros Hemail Hid.
  unfold create, try_catch, mbind, M_bind, findUnique, lookup_unique.
  rewrite find_no_email by done.
  unfold PrismaUser.create. simpl.
  rewrite !existsb_none; [done| |].
  - intros x Hx. apply not_true_is_false. intros Heq%has_email_spec.
    by apply (Hemail x).
  - intros x Hx. apply not_true_is_false. intros Heq%has_id_spec.
    by apply (Hid x).
Qed.

Lemma validateCredentials_run (env : Env) (email password : jsstring)
    (db : UserDB) :
  validateCredentials env email password db
  = match List.find (has_email email) db with
    | Some u =>
        if bcrypt_compare env password (User.password u)
        then (inr (Some (entity_of u)), db)
        else (inr None, db)
    | None => (inr None, db)
    end.
Proof.
  unfold validateCredentials, try_catch, mbind, M_bind, findUnique,
    lookup_unique.
  destruct (List.find (has_email email) db) as [u|]; [|done].
  by destruct (bcrypt_compare env password (User.password u)).
Qed.

(** X4.  A registration with a free email stores the bcrypt hash, never the
    password itself, and returns the new user as an active, live user
    without the hash; [findOne] finds it, and its credentials validate
    exactly when bcrypt accepts the password against the stored hash. *)
Theorem create_then_validate (env : Env) (dto : CreateUserDto.t)
    (db : UserDB) (attempt : jsstring) :
  (∀ u, u ∈ db → User.email u ≠ CreateUserDto.email dto) →
  (∀ u, u ∈ db → User.id u ≠ cuid env) →
  ∃ e db', create env dto db = (inr e, db')
    ∧ db' = db ++ [new_user env dto]
    ∧ e !! "password" = None
    ∧ e !! "email" = Some (VString (CreateUserDto.email dto))
    ∧ e !! "status" = Some (VString (str "ACTIVE"))
    ∧ e !! "deletedAt" = Some VNull
    ∧ findOne (cuid env) db' = (inr e, db')
    ∧ validateCredentials env (CreateUserDto.email dto) attempt db'
      = (inr (if bcrypt_compare env attempt
                   (bcrypt_hash env (CreateUserDto.password dto) saltRounds)
              then Some e else None), db').
Proof.
  intros Hemail Hid.
  exists (entity_of (new_user env dto)), (db ++ [new_user env dto]).
  split; [by apply create_run|]. do 5 (split; [done|]). split.
  - rewrite findOne_run, find_app, find_all_false.
    + simpl. unfold live, has_id. simpl.
      by rewrite !bool_decide_eq_true_2.
    + intros r Hr. apply not_true_is_false. intros [Hr1 _]%live_spec.
      by apply (Hid r).
  - rewrite validateCredentials_run, find_app, find_no_email by done.
    simpl. unfold has_email. simpl. rewrite bool_decide_eq_true_2 by done.
    by destruct (bcrypt_compare _ _ _).
Qed.

Definition carol_dto : CreateUserDto.t :=
  {| CreateUserDto.email := str "carol@example.com";
     CreateUserDto.name := Some (str "Carol");
     CreateUserDto.password := str "correct horse" |}.

(** ** Reads by email *)

Lemma findByEmail_run (email : jsstring) (db : UserDB) :
  findByEmail email db
  = (inr (entity_of <$> List.find
            (fun u => has_email email u
                      && bool_decide (User.deletedAt u = None)) db), db).
Proof.
  unfold findByEmail, try_catch, mbind, M_bind, findFirst. simpl.
  f_equal. f_equal. f_equal. apply find_ext. intros u.
  unfold matches. simpl. by rewrite andb_true_r.
Qed.

(** X5.  [validateCredentials] reads the row by its email alone, so the
    credentials of a soft-deleted user still validate, although
    [findByEmail] no longer finds the user.  Neither operation fails. *)
Theorem validateCredentials_ignores_soft_delete (env : Env) (db : UserDB)
    (u : User.t) (password : jsstring) :
  NoDup (User.email <$> db) → u ∈ db →
  bcrypt_compare env password (User.password u) = true →
  validateCredentials env (User.email u) password db
  = (inr (Some (entity_of u)), db)
  ∧ (User.deletedAt u ≠ None →
     findByEmail (User.email u) db = (inr None, db))
  ∧ (User.deletedAt u = None →
     findByEmail (User.email u) db = (inr (Some (entity_of u)), db)).
Proof.
  intros Hnd Hu Hpw. split; [|split].
  - by rewrite validateCredentials_run, find_by_email, Hpw.
  - intros Hdel. rewrite findByEmail_run, find_all_false; [done|].
    intros r Hr. apply not_true_is_false.
    intros [Hr1%has_email_spec Hr2%bool_decide_eq_true]%andb_true_iff.
    assert (r = u) as -> by by apply (unique_column_inj User.email db).
    done.
  - intros Hlive. rewrite findByEmail_run.
    rewrite (find_by_pred User.email _ db u); try done.
    + apply andb_true_iff. split; [by apply has_email_spec|].
      by apply bool_decide_eq_true.
    + by intros y [Hy%has_email_spec _]%andb_true_iff.
Qed.

End UserAccounts.

Section UserAccountsExamples.

Import PrismaUser UserService.
#[local] Arguments User_object : simpl never.
#[local] Arguments excludePassword : simpl never.

#[local] Existing Instance database0.

Lemma create_then_validate_witness :
  ∃ e db', create env0 carol_dto db0 = (inr e, db')
    ∧ e !! "password" = None
    ∧ findOne (cuid env0) db' = (inr e, db')
    ∧ validateCredentials env0 (str "carol@example.com")
        (str "correct horse") db' = (inr (Some e), db')
    ∧ validateCredentials env0 (str "carol@example.com")
        (str "wrong") db' = (inr None, db').
Proof.
  destruct (create_then_validate env0 carol_dto db0 (str "correct horse"))
    as (e & db' & Hrun & Hdb & Hpw & _ & _ & _ & Hone & Hok).
  { apply (forall_db0 (fun u => User.email u ≠ _)); vm_compute; congruence. }
  { apply (forall_db0 (fun u => User.id u ≠ _)); vm_compute; congruence. }
  exists e, db'. split; [done|]. split; [done|]. split; [done|].
  split; [exact Hok|]. subst db'. reflexivity.
Defined.

Lemma validateCredentials_ignores_soft_delete_witness :
  NoDup (User.email <$> db0) ∧ bob ∈ db0
  ∧ User.deletedAt bob ≠ None
  ∧ bcrypt_compare env0 (str "hunter2") (User.password bob) = true
  ∧ validateCredentials env0 (User.email bob) (str "hunter2") db0
    = (inr (Some (entity_of bob)), db0)
  ∧ findByEmail (User.email bob) db0 = (inr None, db0).
Proof.
  assert (bob ∈ db0) as Hb by (right; left).
  destruct (validateCredentials_ignores_soft_delete env0 db0 bob
              (str "hunter2") db0_emails Hb eq_refl) as (H1 & H2 & _).
  split; [exact db0_emails|]. split; [exact Hb|]. split; [done|].
  split; [reflexivity|]. split; [exact H1|]. by apply H2.
Defined.

End UserAccountsExamples.

(* ===================================================================== *)
(** * The user service: how the operations compose *)
(* ===================================================================== *)

Section UserComposition.

Context {database : Database}.

Import PrismaUser UserService.

#[local] Arguments User_object : simpl never.
#[local] Arguments excludePassword : simpl never.

(** The row [u] as written again at [now], with nothing else changed. *)
Definition touched (env : Env) (u : User.t) : User.t :=
  {| User.id := User.id u; User.email := User.email u;
     User.name := User.name u; User.password := User.password u;
     User.status := User.status u; User.deletedAt := User.deletedAt u;
     User.createdAt := User.createdAt u; User.updatedAt := now env |}.

Lemma replace_row_twice (id : jsstring) (a b : User.t) (db : UserDB) :
  User.id a = id →
  replace_row id b (replace_row id a db) = replace_row id b db.
Proof.
  intros Ha. unfold replace_row. rewrite <- list_fmap_compose.
  apply list_fmap_ext. intros i x _. simpl.
  destruct (has_id id x) eqn:Hx; [|by rewrite Hx].
  by rewrite (proj2 (has_id_spec id a) Ha).
Qed.

Lemma find_replaced (id : jsstring) (a : User.t) (db : UserDB) :
  NoDup (User.id <$> db) → User.id a = id →
  (∃ x, x ∈ db ∧ User.id x = id) →
  List.find (has_id id) (replace_row id a db) = Some a.
Proof.
  intros Hnd Ha Hx. rewrite <- Ha at 1. apply find_by_id.
  - by rewrite replace_row_ids.
  - apply elem_of_replace_row. by right.
Qed.

Lemma remove_live (env : Env) (db : UserDB) (u : User.t) :
  NoDup (User.id <$> db) → u ∈ db → User.deletedAt u = None →
  remove env (User.id u) db
  = (inr tt,
     replace_row (User.id u) (apply_update env (mark_deleted env) u) db).
Proof.
  intros Hnd Hu Hlive. rewrite remove_run.
  destruct (find_exists (live (User.id u)) db u Hu) as [v ->];
    [by apply live_spec|].
  by rewrite (find_by_id db u).
Qed.

(** X6.  Soft-deleting a live user and restoring it gives back the table as it
    was, except that the row has a new [updatedAt]: no other column and no
    other row has changed. *)
Theorem remove_then_restore (env1 env2 : Env) (db : UserDB) (u : User.t) :
  NoDup (User.id <$> db) → u ∈ db → User.deletedAt u = None →
  ∃ db1, remove env1 (User.id u) db = (inr tt, db1)
    ∧ restore env2 (User.id u) db1
      = (inr (entity_of (touched env2 u)),
         replace_row (User.id u) (touched env2 u) db)
    ∧ (now env2 = User.updatedAt u →
       replace_row (User.id u) (touched env2 u) db = db).
Proof.
  intros Hnd Hu Hlive.
  set (u1 := apply_update env1 (mark_deleted env1) u).
  exists (replace_row (User.id u) u1 db).
  split; [by apply remove_live|]. split.
  - rewrite restore_run, find_replaced; try done; [|by eauto].
    simpl. rewrite replace_row_twice by done.
    destruct u. simpl in *. by subst.
  - intros Hnow. unfold replace_row.
    rewrite <- (list_fmap_id db) at 2. apply list_fmap_ext. intros i x Hx.
    destruct (has_id (User.id u) x) eqn:Hid; [|done].
    apply has_id_spec in Hid.
    assert (x = u) as ->.
    { apply (unique_column_inj User.id db); try done.
      by eapply list_elem_of_lookup_2. }
    destruct u. unfold touched. simpl in *. by subst.
Qed.

(** ** [update] *)

(** The row [u] after [update] with [dto]: absent properties leave the
    column as it is, and so does an empty password; [updatedAt] is set
    when a column is written and kept when none is. *)
Definition updated_user (env : Env) (dto : UpdateUserDto.t) (u : User.t)
  : User.t :=
  {| User.id := User.id u;
     User.email := default (User.email u) (UpdateUserDto.email dto);
     User.name := match UpdateUserDto.name dto with
                  | Some n => Some n
                  | None => User.name u
                  end;
     User.password :=
       match UpdateUserDto.password dto with
       | Some (c :: p) => bcrypt_hash env (c :: p) saltRounds
       | _ => User.password u
       end;
     User.status := User.status u;
     User.deletedAt := User.deletedAt u;
     User.createdAt := User.createdAt u;
     User.updatedAt :=
       match UpdateUserDto.email dto, UpdateUserDto.name dto,
             UpdateUserDto.password dto with
       | None, None, (None | Some []) => User.updatedAt u
       | _, _, _ => now env
       end |}.

(** X7.  An update of a live user to an email no other row holds goes
    through: the row gets the submitted email and name, the bcrypt hash
    of a submitted password, and keeps its identifier, status, delete
    timestamp and creation time; [updatedAt] is set to the clock when
    one of these is written; every other row is left alone.  An update
    that submits no email, no name and no password (or an empty one)
    writes nothing: the user is returned as it is, [updatedAt] included,
    and the table is the same. *)
Theorem update_spec (env : Env) (id : jsstring) (dto : UpdateUserDto.t)
    (db : UserDB) (u : User.t) :
  users_ok db → u ∈ db → User.id u = id → User.deletedAt u = None →
  (∀ e r, UpdateUserDto.email dto = Some e → r ∈ db → User.email r = e →
          User.id r = id) →
  update env id dto db
  = (inr (entity_of (updated_user env dto u)),
     replace_row id (updated_user env dto u) db)
  ∧ entity_of (updated_user env dto u) !! "password" = None
  ∧ (∀ r, r ∈ replace_row id (updated_user env dto u) db →
          User.id r ≠ id → r ∈ db)
  ∧ (UpdateUserDto.email dto = None → UpdateUserDto.name dto = None →
     Js.str_truthy (UpdateUserDto.password dto) = false →
     update env id dto db = (inr (entity_of u), db))
  ∧ (Js.str_truthy (UpdateUserDto.email dto) = true
     ∨ is_Some (UpdateUserDto.name dto)
     ∨ Js.str_truthy (UpdateUserDto.password dto) = true →
     User.updatedAt (updated_user env dto u) = now env).
Proof.
  intros [Hids Hemails] Hu Hid Hlive Hfree.
  assert (update env id dto db
          = (inr (entity_of (updated_user env dto u)),
             replace_row id (updated_user env dto u) db)) as Hrun;
    [|split; [done|split; [done|split; [|split]]]].
  - unfold update, try_catch, mbind, M_bind. rewrite findOne_run.
    destruct (find_exists (live id) db u Hu) as [v ->];
      [by apply live_spec|].
    assert (PrismaUser.update env id
              {| d_email := UpdateUserDto.email dto;
                 d_name := UpdateUserDto.name dto;
                 d_password :=
                   if Js.str_truthy (UpdateUserDto.password dto)
                   then Some (bcrypt_hash env
                                (default [] (UpdateUserDto.password dto))
                                saltRounds)
                   else None;
                 d_status := None; d_deletedAt := None |} db
            = (inr (updated_user env dto u),
               replace_row id (updated_user env dto u) db)) as Hupd.
    { unfold PrismaUser.update. subst id. rewrite (find_by_id db u) by done.
      match goal with
      | |- context [email_taken ?i ?d ?l] =>
          assert (email_taken i d l = false) as ->
      end.
      { unfold email_taken. simpl.
        destruct (UpdateUserDto.email dto) as [e|]; [|done].
        apply existsb_none. intros r Hr. apply not_true_is_false.
        intros [H1%has_email_spec H2%negb_true_iff]%andb_true_iff.
        by rewrite (proj2 (has_id_spec _ _) (Hfree e r eq_refl Hr H1)) in H2. }
      unfold apply_update, updated_user, writes. simpl.
      by destruct (UpdateUserDto.email dto), (UpdateUserDto.name dto),
        (UpdateUserDto.password dto) as [[|??]|]. }
    unfold update_checked, mbind, M_bind.
    destruct (UpdateUserDto.email dto) as [[|c e]|] eqn:He; simpl;
      try by rewrite Hupd.
    unfold findUnique, lookup_unique.
    destruct (List.find (has_email (c :: e)) db) as [r|] eqn:Hr;
      [|simpl; by rewrite Hupd].
    apply find_elem in Hr as [Hr Hre%has_email_spec].
    rewrite bool_decide_eq_false_2; [simpl; by rewrite Hupd|].
    intros Hne. apply Hne. by apply (Hfree (c :: e)).
  - by intros r [[Hr _]|[-> _]]%elem_of_replace_row Hne.
  - intros He Hn Hp. rewrite Hrun.
    assert (updated_user env dto u = u) as ->.
    { unfold updated_user. rewrite He, Hn.
      destruct (UpdateUserDto.password dto) as [[|??]|]; try done;
        by destruct u. }
    do 2 f_equal. unfold replace_row.
    rewrite <- (list_fmap_id db) at 2. apply list_fmap_ext. intros i x Hx.
    destruct (has_id id x) eqn:Hx'; [|done].
    apply has_id_spec in Hx'. change (u = x).
    apply (unique_column_inj User.id db); try done; [|congruence].
    by eapply list_elem_of_lookup_2.
  - unfold updated_user. simpl.
    destruct (UpdateUserDto.email dto) as [[|??]|],
      (UpdateUserDto.name dto), (UpdateUserDto.password dto) as [[|??]|];
      simpl; try done; intros [H|[H|H]]; try done; by destruct H.
Qed.

Lemma db0_ok : users_ok db0.
Proof. split; [exact db0_ids|exact db0_emails]. Qed.

Definition rename_alice : UpdateUserDto.t :=
  {| UpdateUserDto.email := Some (str "alice@corp.example");
     UpdateUserDto.name := None;
     UpdateUserDto.password := Some [] |}.

(** ** Reusing the email of a deleted user *)

(** X8.  The email of a soft-deleted user stays taken: registering it again
    fails with Conflict.  Once the user is hard-deleted the same
    registration goes through. *)
Theorem email_reusable_after_forceDelete (env env' : Env) (db : UserDB)
    (u : User.t) (dto : CreateUserDto.t) :
  users_ok db → u ∈ db → User.deletedAt u = None →
  CreateUserDto.email dto = User.email u →
  (∀ r, r ∈ db → User.id r ≠ cuid env') →
  ∃ db1 db2,
    remove env (User.id u) db = (inr tt, db1)
    ∧ create env' dto db1 = (inl ConflictException, db1)
    ∧ forceDelete (User.id u) db1 = (inr tt, db2)
    ∧ create env' dto db2
      = (inr (entity_of (new_user env' dto)), db2 ++ [new_user env' dto]).
Proof.
  intros [Hids Hemails] Hu Hlive Hdto Hfresh.
  set (u1 := apply_update env (mark_deleted env) u).
  set (db1 := replace_row (User.id u) u1 db).
  assert (u1 ∈ db1) as Hu1.
  { apply elem_of_replace_row. right. eauto. }
  exists db1, (List.filter (fun r => negb (has_id (User.id u) r)) db1).
  split; [by apply remove_live|]. split; [|split].
  - by apply (create_conflict env' dto db1 u1).
  - rewrite forceDelete_run.
    by destruct (find_exists (has_id (User.id u)) db1 u1 Hu1) as [v ->];
      [apply has_id_spec|].
  - apply create_run.
    + intros r [[[Hr Hne]|[-> _]]%elem_of_replace_row Hne']%elem_of_without;
        [|done].
      rewrite Hdto. intros Heq. apply Hne.
      f_equal. by apply (unique_column_inj User.email db).
    + intros r [[[Hr Hne]|[-> _]]%elem_of_replace_row Hne']%elem_of_without;
        [|done].
      by apply Hfresh.
Qed.

(** X9.  In the earlier variant of the service [remove] deletes the row: the
    identifier is then unknown, and the email is free again at once. *)
Theorem remove_v0_frees_email (env : Env) (db : UserDB) (u : User.t)
    (dto : CreateUserDto.t) :
  users_ok db → u ∈ db →
  CreateUserDto.email dto = User.email u →
  (∀ r, r ∈ db → User.id r ≠ cuid env) →
  ∃ db1, UserServiceV0.remove (User.id u) db = (inr tt, db1)
    ∧ (∀ r, r ∈ db1 ↔ r ∈ db ∧ User.id r ≠ User.id u)
    ∧ UserServiceV0.findOne (User.id u) db1 = (inl NotFoundException, db1)
    ∧ create env dto db1
      = (inr (entity_of (new_user env dto)), db1 ++ [new_user env dto]).
Proof.
  intros [Hids Hemails] Hu Hdto Hfresh.
  set (db1 := List.filter (fun r => negb (has_id (User.id u) r)) db).
  assert (List.find (has_id (User.id u)) db1 = None) as Hgone.
  { apply find_no_id. by intros r [_ Hr]%elem_of_without. }
  exists db1. split; [|split; [|split]].
  - unfold UserServiceV0.remove, UserServiceV0.findOne, try_catch, mbind,
      M_bind, findUnique, lookup_unique, PrismaUser.delete.
    rewrite (find_by_id db u) by done. simpl.
    by rewrite (find_by_id db u).
  - intros r. apply elem_of_without.
  - unfold UserServiceV0.findOne, try_catch, mbind, M_bind, findUnique,
      lookup_unique.
    by rewrite Hgone.
  - apply create_run.
    + intros r [Hr Hne]%elem_of_without. rewrite Hdto. intros Heq.
      apply Hne. f_equal. by apply (unique_column_inj User.email db).
    + intros r [Hr _]%elem_of_without. by apply Hfresh.
Qed.

End UserComposition.

Section UserCompositionExamples.

Import PrismaUser UserService.
#[local] Arguments User_object : simpl never.
#[local] Arguments excludePassword : simpl never.

#[local] Existing Instance database0.

Lemma remove_then_restore_witness :
  NoDup (User.id <$> db0) ∧ alice ∈ db0 ∧ User.deletedAt alice = None
  ∧ ∃ db1, remove env0 (User.id alice) db0 = (inr tt, db1)
      ∧ restore env0 (User.id alice) db1
        = (inr (entity_of (touched env0 alice)),
           [touched env0 alice; bob]).
Proof.
  assert (alice ∈ db0) as Ha by left.
  split; [exact db0_ids|]. split; [exact Ha|]. split; [reflexivity|].
  destruct (remove_then_restore env0 env0 db0 alice db0_ids Ha eq_refl)
    as (db1 & H1 & H2 & _).
  exists db1. split; [exact H1|exact H2].
Defined.

Lemma update_spec_witness :
  users_ok db0 ∧ alice ∈ db0 ∧ User.deletedAt alice = None
  ∧ update env0 (User.id alice) rename_alice db0
    = (inr (entity_of (updated_user env0 rename_alice alice)),
       [updated_user env0 rename_alice alice; bob])
  ∧ User.password (updated_user env0 rename_alice alice)
    = User.password alice
  ∧ User.email (updated_user env0 rename_alice alice)
    = str "alice@corp.example"
  ∧ User.updatedAt (updated_user env0 rename_alice alice) = now env0
  ∧ update env0 (User.id alice)
      {| UpdateUserDto.email := None; UpdateUserDto.name := None;
         UpdateUserDto.password := None |} db0
    = (inr (entity_of alice), db0)
  ∧ User.updatedAt alice ≠ now env0.
Proof.
  assert (alice ∈ db0) as Ha by left.
  split; [exact db0_ok|]. split; [exact Ha|]. split; [reflexivity|].
  assert (∀ e r, UpdateUserDto.email rename_alice = Some e → r ∈ db0 →
                 User.email r = e → User.id r = User.id alice) as Hfree.
  { intros e r [= <-]. revert r.
    apply (forall_db0 (fun r => User.email r = _ → User.id r = _));
      vm_compute; congruence. }
  pose proof (update_spec env0 (User.id alice) rename_alice db0 alice
                db0_ok Ha eq_refl eq_refl Hfree)
    as (Hrun & _ & _ & _ & Hnow).
  pose proof (update_spec env0 (User.id alice)
                {| UpdateUserDto.email := None; UpdateUserDto.name := None;
                   UpdateUserDto.password := None |} db0 alice
                db0_ok Ha eq_refl eq_refl ltac:(by intros e r [=]))
    as (_ & _ & _ & Hkept & _).
  split; [exact Hrun|]. split; [reflexivity|]. split; [reflexivity|].
  split; [apply Hnow; by left|]. split; [by apply Hkept|].
  vm_compute. congruence.
Defined.

Lemma email_reusable_after_forceDelete_witness :
  users_ok db0 ∧ alice ∈ db0 ∧ User.deletedAt alice = None
  ∧ ∃ db1 db2,
      remove env0 (User.id alice) db0 = (inr tt, db1)
      ∧ create env0
          {| CreateUserDto.email := User.email alice;
             CreateUserDto.name := None;
             CreateUserDto.password := str "again" |} db1
        = (inl ConflictException, db1)
      ∧ forceDelete (User.id alice) db1 = (inr tt, db2)
      ∧ (create env0
           {| CreateUserDto.email := User.email alice;
              CreateUserDto.name := None;
              CreateUserDto.password := str "again" |} db2).1
        = inr (entity_of
                 (new_user env0
                    {| CreateUserDto.email := User.email alice;
                       CreateUserDto.name := None;
                       CreateUserDto.password := str "again" |})).
Proof.
  assert (alice ∈ db0) as Ha by left.
  split; [exact db0_ok|]. split; [exact Ha|]. split; [reflexivity|].
  destruct (email_reusable_after_forceDelete env0 env0 db0 alice
              {| CreateUserDto.email := User.email alice;
                 CreateUserDto.name := None;
                 CreateUserDto.password := str "again" |}
              db0_ok Ha eq_refl eq_refl) as (db1 & db2 & H1 & H2 & H3 & H4).
  { apply (forall_db0 (fun r => User.id r ≠ _)); vm_compute; congruence. }
  exists db1, db2. split; [done|]. split; [done|]. split; [done|].
  by rewrite H4.
Defined.

Lemma remove_v0_frees_email_witness :
  users_ok db0 ∧ bob ∈ db0
  ∧ ∃ db1, UserServiceV0.remove (User.id bob) db0 = (inr tt, db1)
      ∧ UserServiceV0.findOne (User.id bob) db1
        = (inl NotFoundException, db1)
      ∧ (create env0
           {| CreateUserDto.email := User.email bob;
              CreateUserDto.name := None;
              CreateUserDto.password := str "again" |} db1).1
        = inr (entity_of
                 (new_user env0
                    {| CreateUserDto.email := User.email bob;
                       CreateUserDto.name := None;
                       CreateUserDto.password := str "again" |})).
Proof.
  assert (bob ∈ db0) as Hb by (right; left).
  split; [exact db0_ok|]. split; [exact Hb|].
  destruct (remove_v0_frees_email env0 db0 bob
              {| CreateUserDto.email := User.email bob;
                 CreateUserDto.name := None;
                 CreateUserDto.password := str "again" |}
              db0_ok Hb eq_refl) as (db1 & H1 & _ & H2 & H3).
  { apply (forall_db0 (fun r => User.id r ≠ _)); vm_compute; congruence. }
  exists db1. split; [done|]. split; [done|]. by rewrite H3.
Defined.

End UserCompositionExamples.

(* ===================================================================== *)
(** * The user service: listing *)
(* ===================================================================== *)

Section UserListing.

Context {database : Database}.

Import PrismaUser UserService.

#[local] Arguments User_object : simpl never.
#[local] Arguments excludePassword : simpl never.

(** The filter of [findAll]: live rows that match the search term. *)
Definition list_where (dto : PaginationWithSearchDto.t) : WhereInput :=
  {| where_id := None; where_email := None; where_deletedAt_null := true;
     where_OR :=
       QueryHelper.buildSearchWhere (PaginationWithSearchDto.q dto)
         [str "email"; str "name"] |}.

(** The rows [findAll] pages through. *)
Definition listed (dto : PaginationWithSearchDto.t) (db : UserDB)
  : list User.t :=
  List.filter (matches (list_where dto)) db.

Definition list_order (dto : PaginationWithSearchDto.t)
  : jsstring * SortOrder :=
  QueryHelper.buildOrderBy (PaginationWithSearchDto.sortBy dto)
    (PaginationWithSearchDto.sortOrder dto).

(** What the search asks of a row: nothing when there is no search term,
    and otherwise that the database finds the term, read as a pattern,
    in the email or in the name. *)
Definition found (dto : PaginationWithSearchDto.t) (u : User.t) : Prop :=
  Js.str_truthy (PaginationWithSearchDto.q dto) = false
  ∨ ∃ t, PaginationWithSearchDto.q dto = Some t
      ∧ (ILIKE (User.email u) (str "%" ++ t ++ str "%") = true
         ∨ ∃ n, User.name u = Some n
             ∧ ILIKE n (str "%" ++ t ++ str "%") = true).

Lemma list_where_valid (dto : PaginationWithSearchDto.t) :
  where_valid (list_where dto) = true.
Proof.
  unfold where_valid, list_where, QueryHelper.buildSearchWhere. simpl.
  by destruct (Js.str_truthy (PaginationWithSearchDto.q dto)).
Qed.

Lemma listed_spec (dto : PaginationWithSearchDto.t) (db : UserDB)
    (u : User.t) :
  u ∈ listed dto db ↔ u ∈ db ∧ User.deletedAt u = None ∧ found dto u.
Proof.
  unfold listed. rewrite elem_of_filter_bool.
  assert (matches (list_where dto) u = true
          ↔ User.deletedAt u = None ∧ found dto u) as ->; [|done].
  unfold matches, list_where, found, QueryHelper.buildSearchWhere.
  destruct (PaginationWithSearchDto.q dto) as [[|c t]|];
    cbn -[ILIKE str app];
    rewrite andb_true_iff, bool_decide_eq_true;
    try by (split; [intros [? _]; split; [done|by left]|intros [? _]]).
  change (text_column (str "email"))
    with (Some (fun u : User.t => Some (User.email u))).
  change (text_column (str "name")) with (Some User.name).
  unfold contains_insensitive. rewrite orb_false_r, orb_true_iff. split.
  - intros [Hd Hm]. split; [done|]. right. exists (c :: t).
    split; [done|]. destruct Hm as [Hm|Hm]; [by left|right].
    destruct (User.name u) as [n|]; [|done]. by exists n.
  - intros [Hd [?|(t' & [= <-] & Hm)]]; [done|]. split; [done|].
    destruct Hm as [Hm|(n & Hn & Hm)]; [by left|right].
    by rewrite Hn.
Qed.

Lemma findAll_run (dto : PaginationWithSearchDto.t) (db : UserDB) :
  findAll dto db
  = let opts :=
      QueryHelper.getPaginationOptions (PaginationWithSearchDto.page dto)
        (PaginationWithSearchDto.limit dto) in
    match order_rows (list_order dto) (QueryHelper.opt_skip opts)
            (QueryHelper.opt_limit opts) (listed dto db) with
    | Some rows =>
        match paginate (QueryHelper.opt_skip opts)
                (QueryHelper.opt_limit opts) rows with
        | Some page =>
            (inr {| data := entity_of <$> page;
                    meta := QueryHelper.buildMeta (QueryHelper.opt_page opts)
                              (QueryHelper.opt_limit opts)
                              (JNum (Z.of_nat (length (listed dto db)))) |},
             db)
        | None => (inl InternalServerErrorException, db)
        end
    | None => (inl InternalServerErrorException, db)
    end.
Proof.
  unfold findAll, try_catch, mbind, M_bind, findMany, count.
  fold (list_where dto). fold (list_order dto). fold (listed dto db).
  rewrite list_where_valid. cbv zeta.
  destruct (order_rows _ _ _ _) as [rows|]; [|done].
  by destruct (paginate _ _ _).
Qed.

Lemma order_rows_length (orderBy : jsstring * SortOrder)
    (skip take : jsnum) (rows sorted : list User.t) :
  order_rows orderBy skip take rows = Some sorted → sorted ≡ₚ rows.
Proof.
  unfold order_rows. destruct (sort_column orderBy.1); [|done].
  intros [= <-]. by rewrite merge_sort_Permutation, scan_Permutation.
Qed.

Lemma order_rows_some (orderBy : jsstring * SortOrder) (skip take : jsnum)
    (rows : list User.t) :
  is_Some (sort_column orderBy.1) →
  ∃ sorted, order_rows orderBy skip take rows = Some sorted
            ∧ sorted ≡ₚ rows.
Proof.
  intros [col Hcol].
  destruct (order_rows orderBy skip take rows) as [sorted|] eqn:Hrows;
    [|unfold order_rows in Hrows; by rewrite Hcol in Hrows].
  exists sorted. split; [done|]. by eapply order_rows_length.
Qed.

Lemma skip_value (p l : Z) :
  Js.mul (Js.sub (JNum p) (JNum 1)) (JNum l) = JNum ((p - 1) * l).
Proof. reflexivity. Qed.

Lemma paginate_forward (s t : Z) (rows : list User.t) :
  0 ≤ s < 2 ^ 63 → 0 ≤ t < 2 ^ 63 →
  paginate (JNum s) (JNum t) rows
  = Some (take (Z.to_nat t) (drop (Z.to_nat s) rows)).
Proof.
  intros Hs Ht. unfold paginate, int64.
  destruct (Z.ltb_spec s 0); [lia|].
  destruct (Z.leb_spec (- 2 ^ 63) s); [|lia].
  destruct (Z.ltb_spec s (2 ^ 63)); [|lia].
  destruct (Z.leb_spec (- 2 ^ 63) t); [|lia].
  destruct (Z.ltb_spec t (2 ^ 63)); [|lia].
  destruct (Z.leb_spec 0 t); [done|lia].
Qed.

(** Neither a [skip] nor a [take] of more than 64 bits is passed on. *)
Lemma paginate_overflow (s t : Z) (rows : list User.t) :
  2 ^ 63 ≤ s ∨ 2 ^ 63 ≤ t → paginate (JNum s) (JNum t) rows = None.
Proof.
  intros H. unfold paginate, int64.
  destruct (Z.ltb_spec s 0); [done|].
  destruct (Z.ltb_spec s (2 ^ 63)), (Z.ltb_spec t (2 ^ 63));
    rewrite ?andb_false_r, ?orb_true_r; simpl; try done; lia.
Qed.

(** X10.  For a page number and a page size of at least 1 (after the
    defaults 1 and 10), both small enough for [skip] and [take] to be
    exact in a JavaScript number, and a sortable column, [findAll]
    succeeds and does not change the table.  The page holds
    [min(limit, total - skip)] users, each a live row that the search
    finds, and [meta] counts every such row of the table, whatever the
    page: these are the rows that are not soft-deleted and, when a search
    term is given, in whose email or name the database finds the term
    with [ILIKE '%term%']. *)
Theorem findAll_page (dto : PaginationWithSearchDto.t) (db : UserDB)
    (p l : Z) :
  Js.num_or (PaginationWithSearchDto.page dto) (JNum 1) = JNum p → 1 ≤ p →
  Js.num_or (PaginationWithSearchDto.limit dto) (JNum 10) = JNum l → 1 ≤ l →
  l < 2 ^ 53 → (p - 1) * l < 2 ^ 53 →
  is_Some (sort_column (list_order dto).1) →
  ∃ page, findAll dto db = (inr page, db)
    ∧ meta page
      = QueryHelper.buildMeta (JNum p) (JNum l)
          (JNum (Z.of_nat (length (listed dto db))))
    ∧ Z.of_nat (length (data page))
      = Z.min l (Z.max 0 (Z.of_nat (length (listed dto db)) - (p - 1) * l))
    ∧ (∀ e, e ∈ data page →
         ∃ u, u ∈ db ∧ User.deletedAt u = None ∧ found dto u
              ∧ e = entity_of u)
    ∧ (∀ u, u ∈ listed dto db
            ↔ u ∈ db ∧ User.deletedAt u = None ∧ found dto u).
Proof.
  intros Hp Hp1 Hl Hl1 Hl2 Hskip Hcol.
  rewrite findAll_run. unfold QueryHelper.getPaginationOptions.
  rewrite Hp, Hl. cbv zeta. cbn [QueryHelper.opt_skip QueryHelper.opt_limit
    QueryHelper.opt_page]. rewrite skip_value.
  destruct (order_rows_some (list_order dto) (JNum ((p - 1) * l)) (JNum l)
              (listed dto db) Hcol) as (rows & -> & Hperm).
  rewrite paginate_forward by nia.
  eexists. split; [reflexivity|]. simpl. split; [done|].
  split; [|split; [|apply listed_spec]].
  - rewrite length_fmap, length_take, length_drop, Hperm.
    assert (0 ≤ (p - 1) * l) by nia. lia.
  - intros e (u & -> & Hu)%list_elem_of_fmap.
    apply subseteq_take, subseteq_drop in Hu. rewrite Hperm in Hu.
    apply listed_spec in Hu as (Hu & Hd & Hf). by exists u.
Qed.

(** X11.  [findAll] does not clamp: a negative page number makes the query
    invalid, and so does a sort field that is not a column; both end as an
    internal error, with the table unchanged. *)
Theorem findAll_rejects (dto : PaginationWithSearchDto.t) (db : UserDB) :
  (∀ p l,
     PaginationWithSearchDto.page dto = Some (JNum p) → p < 0 →
     Js.num_or (PaginationWithSearchDto.limit dto) (JNum 10) = JNum l →
     1 ≤ l →
     findAll dto db = (inl InternalServerErrorException, db))
  ∧ (sort_column (list_order dto).1 = None →
     findAll dto db = (inl InternalServerErrorException, db)).
Proof.
  split.
  - intros p l Hp Hp0 Hl Hl1. rewrite findAll_run.
    unfold QueryHelper.getPaginationOptions. rewrite Hp, Hl. cbv zeta.
    cbn [QueryHelper.opt_skip QueryHelper.opt_limit QueryHelper.opt_page
         Js.num_or Js.truthy].
    destruct (Z.eqb_spec p 0); [lia|]. cbn [negb]. rewrite skip_value.
    destruct (order_rows _ _ _ _); [|done]. unfold paginate.
    destruct (Z.ltb_spec ((p - 1) * l) 0); [done|nia].
  - intros Hcol. rewrite findAll_run. cbv zeta. unfold order_rows.
    by rewrite Hcol.
Qed.

End UserListing.

Section UserListingExamples.

Import PrismaUser UserService.
#[local] Arguments User_object : simpl never.
#[local] Arguments excludePassword : simpl never.

#[local] Existing Instance database0.

Definition carol : User.t :=
  {| User.id := str "u3"; User.email := str "carol@site.org";
     User.name := Some (str "Carol"); User.password := str "$2b$10$tulip";
     User.status := ACTIVE; User.deletedAt := None;
     User.createdAt := 1692000000000; User.updatedAt := 1692000000000 |}.

Definition dave : User.t :=
  {| User.id := str "u4"; User.email := str "dave@site.org";
     User.name := Some (str "Dave"); User.password := str "$2b$10$orchid";
     User.status := PENDING; User.deletedAt := None;
     User.createdAt := 1693000000000; User.updatedAt := 1693000000000 |}.

(** Four users, the oldest first; [bob] is soft-deleted. *)
Definition db1 : UserDB := [alice; bob; carol; dave].

(** [?limit=1&q=L] *)
Definition search_L : PaginationWithSearchDto.t :=
  {| PaginationWithSearchDto.page := None;
     PaginationWithSearchDto.limit := Some (JNum 1);
     PaginationWithSearchDto.sortBy := None;
     PaginationWithSearchDto.sortOrder := None;
     PaginationWithSearchDto.q := Some (str "L") |}.

Lemma findAll_page_witness :
  ∃ page, findAll search_L db1 = (inr page, db1)
    ∧ meta page = QueryHelper.buildMeta (JNum 1) (JNum 1) (JNum 2)
    ∧ data page = [entity_of carol]
    ∧ listed search_L db1 = [alice; carol].
Proof.
  destruct (findAll_page search_L db1 1 1)
    as (page & Hrun & Hmeta & Hlen & _); try done.
  exists page. split; [done|]. split; [done|]. split; [|reflexivity].
  rewrite findAll_run in Hrun. vm_compute in Hrun.
  injection Hrun as <-. reflexivity.
Defined.

Lemma findAll_rejects_witness :
  findAll {| PaginationWithSearchDto.page := Some (JNum (-1));
             PaginationWithSearchDto.limit := None;
             PaginationWithSearchDto.sortBy := None;
             PaginationWithSearchDto.sortOrder := None;
             PaginationWithSearchDto.q := None |} db0
  = (inl InternalServerErrorException, db0)
  ∧ findAll {| PaginationWithSearchDto.page := None;
               PaginationWithSearchDto.limit := None;
               PaginationWithSearchDto.sortBy := Some (str "age");
               PaginationWithSearchDto.sortOrder := None;
               PaginationWithSearchDto.q := None |} db0
    = (inl InternalServerErrorException, db0).
Proof.
  split.
  - by apply (findAll_rejects _ db0 : _ ∧ _) with (-1) 10.
  - by apply (findAll_rejects _ db0).
Defined.

End UserListingExamples.

Section UserListingOrder.

Context {database : Database}.

Import PrismaUser UserService.

#[local] Arguments User_object : simpl never.
#[local] Arguments excludePassword : simpl never.

(** A page is a contiguous part of the sorted rows. *)
Lemma paginate_part (skip take : jsnum) (rows page : list User.t) :
  paginate skip take rows = Some page →
  ∃ before after, rows = before ++ page ++ after.
Proof.
  unfold paginate.
  destruct skip as [s| | |], take as [t| | |]; try done.
  destruct ((s <? 0) || negb (int64 s) || negb (int64 t)); [done|].
  destruct (0 <=? t); intros [= <-].
  - exists (firstn (Z.to_nat s) rows),
      (skipn (Z.to_nat t) (skipn (Z.to_nat s) rows)).
    by rewrite !firstn_skipn.
  - set (n := Z.to_nat (- t)). set (k := Z.to_nat s).
    rewrite skipn_rev, firstn_rev, rev_involutive, length_firstn.
    set (a := (length rows - k)%nat).
    exists (firstn (a `min` length rows - n) (firstn a rows)), (skipn a rows).
    by rewrite app_assoc, !firstn_skipn.
Qed.

Lemma paginate_sorted (R : relation User.t) (skip take : jsnum)
    (rows page : list User.t) :
  StronglySorted R rows → paginate skip take rows = Some page →
  StronglySorted R page.
Proof.
  intros Hs (before & after & ->)%paginate_part.
  by apply StronglySorted_app_1_r, StronglySorted_app_1_l in Hs.
Qed.

Lemma StronglySorted_weaken {A : Type} (R R' : relation A) (l : list A) :
  (∀ a b, R a b → R' a b) → StronglySorted R l → StronglySorted R' l.
Proof.
  intros HR. induction 1 as [|x l Hl IH Hx]; constructor; [done|].
  eapply Forall_impl; [exact Hx|]. intros y. apply HR.
Qed.

(** The order on [createdAt], in either direction. *)
Definition by_createdAt (dir : SortOrder) : relation User.t :=
  row_le (fun u => KNum (User.createdAt u)) dir.

Lemma by_createdAt_spec (dir : SortOrder) (a b : User.t) :
  by_createdAt dir a b
  ↔ match dir with
    | ASC => User.createdAt a ≤ User.createdAt b
    | DESC => User.createdAt b ≤ User.createdAt a
    end.
Proof. unfold by_createdAt, row_le. destruct dir; simpl; apply Z.leb_le. Qed.

#[local] Instance by_createdAt_trans dir : Transitive (by_createdAt dir).
Proof. intros a b c. rewrite !by_createdAt_spec. destruct dir; lia. Qed.

#[local] Instance by_createdAt_total dir : Total (by_createdAt dir).
Proof. intros a b. rewrite !by_createdAt_spec. destruct dir; lia. Qed.

(** Without a sort field the rows are ordered on [createdAt]. *)
Lemma order_rows_createdAt (dto : PaginationWithSearchDto.t)
    (skip take : jsnum) (rows : list User.t) :
  Js.str_truthy (PaginationWithSearchDto.sortBy dto) = false →
  ∃ sorted,
    order_rows (list_order dto) skip take rows = Some sorted
    ∧ sorted ≡ₚ rows
    ∧ StronglySorted (by_createdAt (list_order dto).2) sorted.
Proof.
  intros Hby.
  assert (list_order dto
          = (str "createdAt",
             default DESC (PaginationWithSearchDto.sortOrder dto))) as ->.
  { unfold list_order, QueryHelper.buildOrderBy. by rewrite Hby. }
  set (dir := default DESC (PaginationWithSearchDto.sortOrder dto)).
  exists (merge_sort (by_createdAt dir) (scan (skip, take) rows)).
  split; [done|]. split.
  - by rewrite merge_sort_Permutation, scan_Permutation.
  - by apply (StronglySorted_merge_sort _).
Qed.

(** Newest first: no row is older than a row listed after it. *)
Definition newest_first : relation User.t :=
  fun a b => User.createdAt b ≤ User.createdAt a.

(** X12.  Without a sort field and without [sortOrder: 'asc'], the users of a
    page come newest first. *)
Theorem findAll_newest_first (dto : PaginationWithSearchDto.t)
    (db db' : UserDB) (page : Page) :
  Js.str_truthy (PaginationWithSearchDto.sortBy dto) = false →
  PaginationWithSearchDto.sortOrder dto ≠ Some ASC →
  findAll dto db = (inr page, db') →
  ∃ rows, data page = entity_of <$> rows ∧ StronglySorted newest_first rows.
Proof.
  intros Hby Horder. rewrite findAll_run. cbv zeta.
  destruct (order_rows_createdAt dto
              (QueryHelper.opt_skip
                 (QueryHelper.getPaginationOptions
                    (PaginationWithSearchDto.page dto)
                    (PaginationWithSearchDto.limit dto)))
              (QueryHelper.opt_limit
                 (QueryHelper.getPaginationOptions
                    (PaginationWithSearchDto.page dto)
                    (PaginationWithSearchDto.limit dto)))
              (listed dto db) Hby) as (sorted & -> & _ & Hsorted).
  assert ((list_order dto).2 = DESC) as Hdir.
  { unfold list_order, QueryHelper.buildOrderBy.
    by destruct (Js.str_truthy _),
      (PaginationWithSearchDto.sortOrder dto) as [[]|]. }
  rewrite Hdir in Hsorted.
  destruct (paginate _ _ _) as [rows|] eqn:Hp; [|done].
  intros [= <- <-]. exists rows. split; [done|].
  apply (StronglySorted_weaken (by_createdAt DESC));
    [by intros a b ?%by_createdAt_spec|].
  by eapply paginate_sorted.
Qed.

End UserListingOrder.

Section UserListingOrderExamples.

Import PrismaUser UserService.
#[local] Arguments User_object : simpl never.
#[local] Arguments excludePassword : simpl never.

#[local] Existing Instance database0.

Lemma findAll_newest_first_witness :
  ∃ page rows,
    findAll default_list db1 = (inr page, db1)
    ∧ data page = entity_of <$> rows ∧ StronglySorted newest_first rows
    ∧ data page = [entity_of dave; entity_of carol; entity_of alice].
Proof.
  assert (∃ page, findAll default_list db1 = (inr page, db1)
                  ∧ data page
                    = [entity_of dave; entity_of carol; entity_of alice])
    as (page & H & Hdata).
  { eexists. split; [vm_compute; reflexivity|reflexivity]. }
  destruct (findAll_newest_first default_list _ _ page eq_refl
              ltac:(discriminate) H) as (rows & H1 & H2).
  exists page, rows. done.
Defined.

End UserListingOrderExamples.

Section UserListingPages.

Context {database : Database}.

Import PrismaUser UserService.

#[local] Arguments User_object : simpl never.
#[local] Arguments excludePassword : simpl never.

(** The same query for the page [p]. *)
Definition with_page (dto : PaginationWithSearchDto.t) (p : Z)
  : PaginationWithSearchDto.t :=
  {| PaginationWithSearchDto.page := Some (JNum p);
     PaginationWithSearchDto.limit := PaginationWithSearchDto.limit dto;
     PaginationWithSearchDto.sortBy := PaginationWithSearchDto.sortBy dto;
     PaginationWithSearchDto.sortOrder :=
       PaginationWithSearchDto.sortOrder dto;
     PaginationWithSearchDto.q := PaginationWithSearchDto.q dto |}.

Lemma chunks_concat {A B : Type} (f : A → B) (rows : list A) (n k : nat) :
  concat ((fun i => f <$> take n (drop (i * n) rows)) <$> seq 0 k)
  = f <$> take (k * n) rows.
Proof.
  induction k as [|k IH]; [done|].
  rewrite seq_S, fmap_app, concat_app, IH. simpl.
  rewrite app_nil_r, <- fmap_app, take_take_drop. do 2 f_equal. lia.
Qed.

(** Two sorted lists of the same rows are the same list when no two of
    the rows tie. *)
Lemma StronglySorted_unique {A : Type} (R : relation A) (l1 l2 : list A) :
  (∀ a b, a ∈ l1 → b ∈ l1 → R a b → R b a → a = b) →
  StronglySorted R l1 → StronglySorted R l2 → l1 ≡ₚ l2 → l1 = l2.
Proof.
  revert l2. induction l1 as [|x l1 IH]; intros l2 Hanti H1 H2 Hperm.
  - by apply Permutation_nil in Hperm.
  - destruct l2 as [|y l2];
      [by apply Permutation_sym, Permutation_nil in Hperm|].
    apply StronglySorted_inv in H1 as [H1 Hx].
    apply StronglySorted_inv in H2 as [H2 Hy].
    assert (x = y) as <-.
    { assert (x ∈ y :: l2) as Hxy by (rewrite <- Hperm; left).
      assert (y ∈ x :: l1) as Hyx by (rewrite Hperm; left).
      apply elem_of_cons in Hxy as [?|Hxy]; [done|].
      pose proof Hyx as Hyx'.
      apply elem_of_cons in Hyx as [?|Hyx]; [done|].
      apply (Hanti x y); [left|done| |].
      - by apply (proj1 (Forall_forall _ _) Hx).
      - by apply (proj1 (Forall_forall _ _) Hy). }
    f_equal. apply IH; try done.
    + intros a b Ha Hb. apply Hanti; by right.
    + by apply Permutation_cons_inv in Hperm.
Qed.

(** X13.  Read page after page in the default order, on [createdAt], a
    table in which no two listed users were created at the same time
    gives every live user that matches exactly once: each of the pages 1
    to [k] is answered, page [i] is the [i]-th part of the sorted rows,
    and the pages together are the sorted rows, as soon as [k] pages of
    the page size hold them all. *)
Theorem findAll_pages_cover (dto : PaginationWithSearchDto.t) (db : UserDB)
    (l : Z) (k : nat) :
  Js.num_or (PaginationWithSearchDto.limit dto) (JNum 10) = JNum l → 1 ≤ l →
  Z.of_nat k * l < 2 ^ 53 →
  Js.str_truthy (PaginationWithSearchDto.sortBy dto) = false →
  NoDup (User.createdAt <$> listed dto db) →
  (length (listed dto db) ≤ k * Z.to_nat l)%nat →
  ∃ rows pages,
    rows ≡ₚ listed dto db
    ∧ StronglySorted (by_createdAt (list_order dto).2) rows
    ∧ length pages = k
    ∧ (∀ i page, pages !! i = Some page →
         findAll (with_page dto (Z.of_nat (S i))) db = (inr page, db)
         ∧ data page
           = entity_of <$> take (Z.to_nat l) (drop (i * Z.to_nat l) rows))
    ∧ concat (data <$> pages) = entity_of <$> rows.
Proof.
  intros Hl Hl1 Hk Hby Hnd Hlen.
  destruct (order_rows_createdAt dto (JNum 0) (JNum l) (listed dto db) Hby)
    as (rows & _ & Hperm & Hsorted).
  assert (∀ i, (i < k)%nat →
            findAll (with_page dto (Z.of_nat (S i))) db
            = (inr {| data := entity_of
                                <$> take (Z.to_nat l)
                                      (drop (i * Z.to_nat l) rows);
                      meta := QueryHelper.buildMeta (JNum (Z.of_nat (S i)))
                                (JNum l)
                                (JNum (Z.of_nat (length (listed dto db)))) |},
               db)) as Hpage.
  { intros i Hi. rewrite findAll_run. cbv zeta.
    change (list_order (with_page dto (Z.of_nat (S i))))
      with (list_order dto).
    change (listed (with_page dto (Z.of_nat (S i))) db) with (listed dto db).
    unfold QueryHelper.getPaginationOptions.
    change (PaginationWithSearchDto.limit (with_page dto (Z.of_nat (S i))))
      with (PaginationWithSearchDto.limit dto).
    rewrite Hl.
    change (Js.num_or
              (PaginationWithSearchDto.page
                 (with_page dto (Z.of_nat (S i))))
              (JNum 1)) with (JNum (Z.of_nat (S i))).
    cbn [QueryHelper.opt_skip QueryHelper.opt_limit QueryHelper.opt_page].
    rewrite skip_value.
    destruct (order_rows_createdAt dto (JNum ((Z.of_nat (S i) - 1) * l))
                (JNum l) (listed dto db) Hby)
      as (rows' & -> & Hperm' & Hsorted').
    assert (rows' = rows) as ->.
    { apply (StronglySorted_unique (by_createdAt (list_order dto).2));
        try done; [|by rewrite Hperm, Hperm'].
      intros a b Ha Hb Hab Hba. rewrite Hperm' in Ha, Hb.
      apply (unique_column_inj User.createdAt (listed dto db)); try done.
      apply by_createdAt_spec in Hab, Hba.
      destruct (list_order dto).2; lia. }
    rewrite paginate_forward by nia.
    replace (Z.of_nat (S i) - 1) with (Z.of_nat i) by lia.
    by rewrite Z2Nat.inj_mul, Nat2Z.id by lia. }
  exists rows,
    ((fun i =>
        {| data := entity_of
                     <$> take (Z.to_nat l) (drop (i * Z.to_nat l) rows);
           meta := QueryHelper.buildMeta (JNum (Z.of_nat (S i))) (JNum l)
                     (JNum (Z.of_nat (length (listed dto db)))) |})
       <$> seq 0 k).
  split; [done|]. split; [done|].
  split; [by rewrite length_fmap, length_seq|]. split.
  - intros i page Hi. rewrite list_lookup_fmap in Hi.
    destruct (seq 0 k !! i) as [j|] eqn:Hj; [|done].
    apply lookup_seq in Hj as [-> Hj]. injection Hi as <-.
    split; [by apply Hpage|done].
  - rewrite <- list_fmap_compose.
    rewrite (list_fmap_ext _
               (fun i => entity_of
                           <$> take (Z.to_nat l)
                                 (drop (i * Z.to_nat l) rows))
               (seq 0 k)) by done.
    rewrite chunks_concat, take_ge by (rewrite Hperm; lia). done.
Qed.

End UserListingPages.

Section UserListingPagesExamples.

Import PrismaUser UserService.
#[local] Arguments User_object : simpl never.
#[local] Arguments excludePassword : simpl never.

#[local] Existing Instance database0.

(** [?limit=2] *)
Definition two_a_page : PaginationWithSearchDto.t :=
  {| PaginationWithSearchDto.page := None;
     PaginationWithSearchDto.limit := Some (JNum 2);
     PaginationWithSearchDto.sortBy := None;
     PaginationWithSearchDto.sortOrder := None;
     PaginationWithSearchDto.q := None |}.

Lemma findAll_pages_cover_witness :
  NoDup (User.id <$> db1)
  ∧ NoDup (User.createdAt <$> listed two_a_page db1)
  ∧ ∃ page1 page2,
      findAll (with_page two_a_page 1) db1 = (inr page1, db1)
      ∧ findAll (with_page two_a_page 2) db1 = (inr page2, db1)
      ∧ data page1 = [entity_of dave; entity_of carol]
      ∧ data page2 = [entity_of alice]
      ∧ data page1 ++ data page2
        = entity_of <$> [dave; carol; alice].
Proof.
  assert (NoDup (User.createdAt <$> listed two_a_page db1)) as Hnd.
  { apply (bool_decide_unpack _). by vm_compute. }
  split; [apply (bool_decide_unpack _); by vm_compute|]. split; [done|].
  destruct (findAll_pages_cover two_a_page db1 2 2 eq_refl ltac:(lia)
              ltac:(lia) eq_refl Hnd ltac:(vm_compute; lia))
    as (rows & pages & Hperm & Hsorted & Hlen & Hpages & Hall).
  destruct pages as [|page1 [|page2 [|??]]]; try done.
  destruct (Hpages 0%nat page1 eq_refl) as [H1 _].
  destruct (Hpages 1%nat page2 eq_refl) as [H2 _].
  exists page1, page2. split; [done|]. split; [done|].
  rewrite findAll_run in H1. vm_compute in H1. injection H1 as <-.
  rewrite findAll_run in H2. vm_compute in H2. injection H2 as <-.
  done.
Defined.

End UserListingPagesExamples.

(* ===================================================================== *)
(** * Roles: deletion, rejected writes, and the schema invariant *)
(* ===================================================================== *)

Section RoleOperations.

Context {database : Database}.

Import PrismaRole RoleService.

Lemma filter_filter_implied {A : Type} (f g : A → bool) (l : list A) :
  (∀ x, x ∈ l → f x = true → g x = true) →
  List.filter f (List.filter g l) = List.filter f l.
Proof.
  induction l as [|x l IH]; simpl; intros H; [done|].
  assert (List.filter f (List.filter g l) = List.filter f l) as IH'.
  { apply IH. intros y Hy. apply H. by right. }
  destruct (g x) eqn:Hg; simpl.
  - by rewrite IH'.
  - destruct (f x) eqn:Hf; [|done].
    rewrite (H x) in Hg; [done|by left|done].
Qed.

Lemma find_role (id : jsstring) (l : list Role.t) (r0 : Role.t) :
  NoDup (Role.id <$> l) → r0 ∈ l → Role.id r0 = id →
  List.find (has_id id) l = Some r0.
Proof. intros Hnd Hr <-. by apply (find_by_unique Role.id). Qed.

Lemma find_no_role (id : jsstring) (l : list Role.t) :
  id ∉ Role.id <$> l → List.find (has_id id) l = None.
Proof.
  intros Hid. apply (find_by_none Role.id). intros x Hx <-.
  apply Hid. by apply list_elem_of_fmap_2.
Qed.

(** The grants a role is listed with do not depend on the grants of
    another role. *)
Lemma include_without (id : jsstring) (db db' : RoleDB) (x : Role.t) :
  role_permissions db' = grants_of_others id db →
  Role.id x ≠ id →
  permissions (include_permissions db' x)
  = permissions (include_permissions db x).
Proof.
  intros Hp Hx. unfold include_permissions. simpl. rewrite Hp.
  apply filter_filter_implied. intros g _ Hg%of_role_spec.
  apply negb_true_iff, not_true_is_false. intros Hg'%of_role_spec.
  congruence.
Qed.

(** X19.  Deleting a role that exists returns it with its grants and removes
    the role together with all its grants; every other role is still
    listed with the grants it had, and the schema's constraints still
    hold.  Deleting an id no role has fails with P2025 and changes
    nothing. *)
Theorem delete_cascades (id : jsstring) (db : RoleDB) :
  db_ok db →
  (∀ r0, r0 ∈ roles db → Role.id r0 = id →
     ∃ db', RoleService.delete id db = (inr (include_permissions db r0), db')
       ∧ (id ∉ Role.id <$> roles db')
       ∧ (∀ g, g ∈ role_permissions db' → RolePermission.roleId g ≠ id)
       ∧ (∀ x, x ∈ roles db → Role.id x ≠ id →
            x ∈ roles db'
            ∧ include_permissions db' x = include_permissions db x)
       ∧ db_ok db'
       ∧ RoleService.findOne id db' = (inr None, db'))
  ∧ (id ∉ Role.id <$> roles db →
     RoleService.delete id db = (inl (PrismaClientError P2025), db)).
Proof.
  intros [Hok Hfk].
  apply constraints_ok_spec in Hok as (Hids & Hnames & Hpids & Hkeys).
  split.
  - intros r0 Hr0 Hid.
    unfold RoleService.delete, PrismaRole.delete.
    rewrite (find_role id (roles db) r0) by done.
    eexists. split; [reflexivity|].
    assert (id ∉ Role.id
                   <$> List.filter (fun x => negb (has_id id x)) (roles db))
      as Hgone.
    { intros (x & Hx & [_ Hb]%elem_of_filter_bool)%list_elem_of_fmap.
      apply negb_true_iff in Hb.
      assert (has_id id x = true) by by apply has_role_id_spec. congruence. }
    split; [done|]. split; [|split; [|split]].
    + simpl. intros g Hg. by apply (others_not_of_role id db).
    + intros x Hx Hne. split.
      * simpl. apply elem_of_filter_bool. split; [done|].
        apply negb_true_iff, not_true_is_false.
        by intros Heq%has_role_id_spec.
      * unfold include_permissions. f_equal.
        by apply (include_without id db).
    + split.
      * apply constraints_ok_spec. simpl.
        repeat lazymatch goal with |- _ ∧ _ => split end;
          by apply NoDup_fmap_filter.
      * simpl. intros g Hg.
        pose proof (others_not_of_role id db g Hg) as Hne.
        apply elem_of_filter_bool in Hg as [Hg _].
        apply Hfk in Hg as (x & Heq & Hx)%list_elem_of_fmap.
        rewrite Heq. apply list_elem_of_fmap_2.
        apply elem_of_filter_bool. split; [done|].
        apply negb_true_iff, not_true_is_false.
        intros Hx'%has_role_id_spec. congruence.
    + unfold RoleService.findOne, PrismaRole.findUnique.
      by rewrite find_no_role.
  - intros Hid. unfold RoleService.delete, PrismaRole.delete.
    by rewrite find_no_role.
Qed.

Lemma delete_cascades_witness :
  db_ok one_role
  ∧ (∃ r db', RoleService.delete (str "r1") one_role = (inr r, db')
       ∧ RolePermission.pair <$> permissions r
         = [(USER, READ); (USER, UPDATE)]
       ∧ db' = no_roles)
  ∧ RoleService.delete (str "r2") one_role
    = (inl (PrismaClientError P2025), one_role).
Proof.
  assert (db_ok one_role) as Hok.
  { split; [by vm_compute|].
    apply (Forall_forall
             (fun g => RolePermission.roleId g ∈ Role.id <$> roles one_role)).
    apply (bool_decide_unpack _). by vm_compute. }
  split; [done|]. split.
  - destruct (delete_cascades (str "r1") one_role Hok) as [H _].
    destruct (H {| Role.id := str "r1"; Role.name := str "editor";
                   Role.createdAt := 1700000000000;
                   Role.updatedAt := 1700000000000 |})
      as (db' & Hrun & _); [left|reflexivity|].
    eexists _, db'. split; [exact Hrun|].
    split; [reflexivity|].
    vm_compute in Hrun. by injection Hrun as <-.
  - destruct (delete_cascades (str "r2") one_role Hok) as [_ H].
    apply H. apply (bool_decide_unpack _). by vm_compute.
Defined.

(** ** Writes the schema rejects *)

Lemma constraints_need_distinct_grants (env : RoleEnv) (rid : jsstring)
    (rs : list Role.t) (others : list RolePermission.t)
    (gs : list (Resource * Action)) :
  ¬ NoDup gs →
  constraints_ok {| roles := rs;
                    role_permissions := others ++ new_grants env rid gs |}
  = false.
Proof.
  intros Hgs. apply not_true_is_false.
  intros (_ & _ & _ & Hkeys)%constraints_ok_spec. simpl in Hkeys.
  rewrite fmap_app, new_grants_keys in Hkeys.
  apply NoDup_app in Hkeys as (_ & _ & Hkeys).
  by apply NoDup_fmap_1 in Hkeys.
Qed.

(** X20.  A permission list that names the same (resource, action) twice is
    rejected by the unique index on (roleId, resource, action): neither
    create nor update writes anything, and the grants the role had are
    kept. *)
Theorem repeated_grant_rejected (env : RoleEnv) (db : RoleDB)
    (ps : list PermissionDto.t) :
  ¬ NoDup (flatten ps) →
  (∀ dto, CreateRoleDto.permissions dto = Some ps →
     RoleService.create env dto db = (inl (PrismaClientError P2002), db))
  ∧ (∀ id dto, UpdateRoleDto.permissions dto = Some ps →
       id ∈ Role.id <$> roles db →
       RoleService.update env id dto db
       = (inl (PrismaClientError P2002), db)).
Proof.
  intros Hps. split.
  - intros dto Hdto. unfold RoleService.create, PrismaRole.create, commit.
    rewrite Hdto. destruct ps as [|p ps]; [by destruct Hps; left|].
    simpl default.
    by rewrite constraints_need_distinct_grants.
  - intros id dto Hdto (x & Hid & Hx)%list_elem_of_fmap.
    unfold RoleService.update, PrismaRole.update, commit.
    rewrite Hdto. simpl.
    destruct (find_by_is_some Role.id (roles db) x Hx) as [r Hr].
    unfold has_id. rewrite Hid, Hr.
    by rewrite constraints_need_distinct_grants.
Qed.

Definition read_twice : list PermissionDto.t :=
  [ {| PermissionDto.resource := USER; PermissionDto.action := [READ; READ] |} ].

Lemma repeated_grant_rejected_witness :
  ¬ NoDup (flatten read_twice)
  ∧ RoleService.create role_env0
      {| CreateRoleDto.name := str "viewer";
         CreateRoleDto.description := None;
         CreateRoleDto.permissions := Some read_twice |} one_role
    = (inl (PrismaClientError P2002), one_role)
  ∧ RoleService.update role_env0 (str "r1")
      {| UpdateRoleDto.name := None;
         UpdateRoleDto.permissions := Some read_twice |} one_role
    = (inl (PrismaClientError P2002), one_role).
Proof.
  assert (¬ NoDup (flatten read_twice)) as Hdup.
  { apply (bool_decide_unpack _). by vm_compute. }
  split; [done|].
  destruct (repeated_grant_rejected role_env0 one_role read_twice Hdup)
    as [Hc Hu].
  split.
  - by apply Hc.
  - apply Hu; [done|]. apply (bool_decide_unpack _). by vm_compute.
Defined.

(** X21.  Role names are unique: creating a role under a name some role
    has, or renaming a role to the name of another one, fails with P2002
    and writes nothing. *)
Theorem role_name_taken (env : RoleEnv) (db : RoleDB) (x : Role.t) :
  x ∈ roles db →
  (∀ dto, CreateRoleDto.name dto = Role.name x →
     RoleService.create env dto db = (inl (PrismaClientError P2002), db))
  ∧ (∀ id dto, UpdateRoleDto.name dto = Some (Role.name x) →
       id ∈ Role.id <$> roles db → Role.id x ≠ id →
       RoleService.update env id dto db
       = (inl (PrismaClientError P2002), db)).
Proof.
  intros Hx. split.
  - intros dto Hdto. unfold RoleService.create, PrismaRole.create, commit.
    rewrite Hdto.
    match goal with |- context [constraints_ok ?d] =>
      assert (constraints_ok d = false) as ->; [|done] end.
    apply not_true_is_false.
    intros (_ & Hnames & _)%constraints_ok_spec. simpl in Hnames.
    rewrite fmap_app in Hnames. apply NoDup_app in Hnames as (_ & Hn & _).
    apply (Hn (Role.name x)); [by apply list_elem_of_fmap_2|]. simpl. left.
  - intros id dto Hdto (y & Hid & Hy)%list_elem_of_fmap Hne.
    unfold RoleService.update, PrismaRole.update, commit.
    destruct (find_by_is_some Role.id (roles db) y Hy) as [r Hr].
    unfold has_id at 1. rewrite Hid, Hr, Hdto. simpl.
    match goal with |- context [constraints_ok ?d] =>
      assert (constraints_ok d = false) as ->; [|done] end.
    apply not_true_is_false.
    intros (_ & Hnames & _)%constraints_ok_spec. simpl in Hnames.
    set (r' := {| Role.id := Role.id r; Role.name := Role.name x;
                  Role.createdAt := Role.createdAt r;
                  Role.updatedAt := role_now env |}) in *.
    apply find_by_some in Hr as [Hr Hrid].
    assert (x = r') as Heq.
    { apply (unique_column_inj Role.name _ x r' Hnames); [| |done].
      - apply list_elem_of_fmap. exists x. split; [|done].
        destruct (has_id (Role.id y) x) eqn:E; [|done].
        apply has_role_id_spec in E. congruence.
      - apply list_elem_of_fmap. exists r. split; [|done].
        by rewrite (proj2 (has_role_id_spec _ _)) by congruence. }
    apply Hne. rewrite Heq. simpl. congruence.
Qed.

Lemma role_name_taken_witness :
  RoleService.create role_env0
    {| CreateRoleDto.name := str "editor";
       CreateRoleDto.description := None;
       CreateRoleDto.permissions := None |} one_role
  = (inl (PrismaClientError P2002), one_role).
Proof.
  destruct (role_name_taken role_env0 one_role
              {| Role.id := str "r1"; Role.name := str "editor";
                 Role.createdAt := 1700000000000;
                 Role.updatedAt := 1700000000000 |}) as [H _]; [left|].
  by apply H.
Defined.

(** ** Updates that leave the grants alone *)



(** A later moment, with another id for the next role. *)
Definition role_env1 : RoleEnv :=
  {| role_now := 1700000600000;
     role_cuid := str "r2";
     permission_cuid := fun k => str "q" ++ Js.Number_toString (N.of_nat k) |}.


(** ** Reading back what was created *)

(** X23.  A role that has been created is found under its id as the very
    value [create] returned, and the listing of all roles holds the roles
    listed before and the new role, each once; the listing has no
    [orderBy], so that the order is the database's. *)
Theorem create_then_listed (env : RoleEnv) (dto : CreateRoleDto.t)
    (db : RoleDB) :
  db_ok db →
  role_cuid env ∉ Role.id <$> roles db →
  CreateRoleDto.name dto ∉ Role.name <$> roles db →
  NoDup (flatten (default [] (CreateRoleDto.permissions dto))) →
  fresh_permission_ids env
    (length (flatten (default [] (CreateRoleDto.permissions dto))))
    (role_permissions db) →
  ∃ r db' before after,
    RoleService.create env dto db = (inr r, db')
    ∧ RoleService.findOne (role_cuid env) db' = (inr (Some r), db')
    ∧ RoleService.findAll db = (inr before, db)
    ∧ RoleService.findAll db' = (inr after, db')
    ∧ after ≡ₚ before ++ [r].
Proof.
  intros Hok Hid Hname Hgs Hfresh.
  destruct (create_grants env dto db Hok Hid Hname Hgs Hfresh)
    as (r & db' & Hrun & Hp & Hr & Hroles & Hperms).
  destruct Hok as [_ Hfk].
  assert (∀ g, g ∈ role_permissions db →
               RolePermission.roleId g ≠ role_cuid env) as Hothers.
  { intros g Hg Heq. apply Hid. rewrite <- Heq. by apply Hfk. }
  assert (include_permissions db' (role r) = r) as Hself.
  { unfold include_permissions. rewrite Hperms, Hr, Hp.
    rewrite filter_role_new by done. rewrite <- Hp. by destruct r. }
  exists r, db', (include_permissions db <$> scan tt (roles db)),
    (include_permissions db' <$> scan tt (roles db')).
  split; [done|]. split; [|split; [done|split; [done|]]].
  - unfold RoleService.findOne, PrismaRole.findUnique.
    rewrite Hroles, find_app, find_no_role by done. simpl.
    rewrite (proj2 (has_role_id_spec _ _)) by done. simpl.
    by rewrite Hself.
  - rewrite !scan_Permutation, Hroles, fmap_app. simpl. rewrite Hself.
    apply Permutation_app_tail.
    assert (include_permissions db' <$> roles db
            = include_permissions db <$> roles db) as ->; [|done].
    apply list_fmap_ext. intros i x Hx.
    unfold include_permissions. f_equal.
    rewrite Hperms, List.filter_app, Hp.
    rewrite (filter_nothing _ (new_grants _ _ _)); [by rewrite app_nil_r|].
    intros g Hg%new_grants_role. apply not_true_is_false.
    intros Hg'%of_role_spec. apply Hid.
    rewrite <- Hg, Hg'. apply list_elem_of_fmap_2.
    by apply list_elem_of_lookup_2 in Hx.
Qed.

(** ** The schema's constraints are an invariant *)

Lemma new_grants_fk (env : RoleEnv) (id : jsstring)
    (others : list RolePermission.t) (gs : list (Resource * Action))
    (ids : list jsstring) :
  (∀ g, g ∈ others → RolePermission.roleId g ∈ ids) →
  id ∈ ids →
  ∀ g, g ∈ others ++ new_grants env id gs → RolePermission.roleId g ∈ ids.
Proof.
  intros Ho Hid g [Hg|Hg]%elem_of_app; [by apply Ho|].
  apply new_grants_role in Hg. by rewrite Hg.
Qed.

(** X24.  Whatever a role operation is given and whether it succeeds or
    fails, the table it leaves satisfies the primary keys, the unique
    indexes on the role name and on (roleId, resource, action), and the
    foreign key of the grants; reading changes nothing. *)
Theorem RoleService_preserves_db_ok (env : RoleEnv) (db : RoleDB) :
  db_ok db →
  (∀ dto, db_ok (RoleService.create env dto db).2)
  ∧ (∀ id dto, db_ok (RoleService.update env id dto db).2)
  ∧ (∀ id, db_ok (RoleService.delete id db).2)
  ∧ (RoleService.findAll db).2 = db
  ∧ (∀ id, (RoleService.findOne id db).2 = db).
Proof.
  intros Hdb. pose proof Hdb as [Hok Hfk].
  repeat lazymatch goal with |- _ ∧ _ => split end; try done.
  - intros dto. unfold RoleService.create, PrismaRole.create, commit.
    cbv zeta.
    match goal with |- context [constraints_ok ?d] =>
      destruct (constraints_ok d) eqn:Hc; [|done] end.
    split; [done|]. simpl. apply new_grants_fk.
    + intros g Hg. rewrite fmap_app. apply elem_of_app. left. by apply Hfk.
    + rewrite fmap_app. apply elem_of_app. right. simpl. left.
  - intros id dto. unfold RoleService.update, PrismaRole.update, commit.
    destruct (List.find (has_id id) (roles db)) as [r|] eqn:Hr; [|done].
    cbv zeta.
    match goal with |- context [constraints_ok ?d] =>
      destruct (constraints_ok d) eqn:Hc; [|done] end.
    split; [done|].
    apply (find_by_some Role.id) in Hr as [Hr Hrid].
    set (r' := {| Role.id := Role.id r;
                  Role.name := default (Role.name r) (UpdateRoleDto.name dto);
                  Role.createdAt := Role.createdAt r;
                  Role.updatedAt :=
                    match UpdateRoleDto.name dto with
                    | Some _ => role_now env
                    | None => Role.updatedAt r
                    end |}) in *.
    fold (replace_role id r' (roles db)).
    cbn [snd roles role_permissions].
    rewrite replace_role_ids by done.
    destruct (UpdateRoleDto.permissions dto) as [ps|]; simpl; [|done].
    apply new_grants_fk.
    + intros g [Hg _]%elem_of_filter_bool. by apply Hfk.
    + rewrite <- Hrid. by apply list_elem_of_fmap_2.
  - intros id. unfold RoleService.delete, PrismaRole.delete.
    destruct (List.find (has_id id) (roles db)) as [r|] eqn:Hr; [|done].
    apply constraints_ok_spec in Hok as (Hids & Hnames & Hpids & Hkeys).
    split.
    + apply constraints_ok_spec. simpl.
      repeat lazymatch goal with |- _ ∧ _ => split end;
        by apply NoDup_fmap_filter.
    + simpl. intros g Hg.
      pose proof (others_not_of_role id db g Hg) as Hne.
      apply elem_of_filter_bool in Hg as [Hg _].
      apply Hfk in Hg as (x & Heq & Hx)%list_elem_of_fmap.
      rewrite Heq. apply list_elem_of_fmap_2.
      apply elem_of_filter_bool. split; [done|].
      apply negb_true_iff, not_true_is_false.
      intros Hx'%has_role_id_spec. congruence.
Qed.

End RoleOperations.

Section RoleOperationsExamples.

Import PrismaRole RoleService.

#[local] Existing Instance database0.

Definition viewer : CreateRoleDto.t :=
  {| CreateRoleDto.name := str "viewer";
     CreateRoleDto.description := None;
     CreateRoleDto.permissions :=
       Some [ {| PermissionDto.resource := PERMISSION;
                 PermissionDto.action := [READ] |} ] |}.


Lemma one_role_ok : db_ok one_role.
Proof.
  split; [by vm_compute|].
  apply (Forall_forall
           (fun g => RolePermission.roleId g ∈ Role.id <$> roles one_role)).
  apply (bool_decide_unpack _). by vm_compute.
Qed.

Lemma create_then_listed_witness :
  ∃ r db' before,
    RoleService.create role_env1 viewer one_role = (inr r, db')
    ∧ RoleService.findOne (str "r2") db' = (inr (Some r), db')
    ∧ RoleService.findAll one_role = (inr before, one_role)
    ∧ RoleService.findAll db' = (inr (before ++ [r]), db')
    ∧ Role.name ∘ role <$> before ++ [r] = [str "editor"; str "viewer"].
Proof.
  destruct (create_then_listed role_env1 viewer one_role)
    as (r & db' & before & after & Hrun & Hone & Hbefore & Hall & Hperm).
  - exact one_role_ok.
  - apply (bool_decide_unpack _). by vm_compute.
  - apply (bool_decide_unpack _). by vm_compute.
  - apply (bool_decide_unpack _). by vm_compute.
  - split; [apply (bool_decide_unpack _); by vm_compute|].
    intros k Hk. apply (bool_decide_unpack _).
    destruct k as [|k]; [by vm_compute|simpl in Hk; lia].
  - exists r, db', before. split; [done|]. split; [done|]. split; [done|].
    vm_compute in Hrun. injection Hrun as <- <-.
    vm_compute in Hbefore. injection Hbefore as <-.
    split; reflexivity.
Defined.

Lemma RoleService_preserves_db_ok_witness :
  db_ok one_role
  ∧ (∃ r, (RoleService.create role_env1 viewer one_role).1 = inr r)
  ∧ db_ok (RoleService.create role_env1 viewer one_role).2
  ∧ (∃ r, (RoleService.update role_env1 (str "r1") editor_update one_role).1
          = inr r)
  ∧ db_ok (RoleService.update role_env1 (str "r1") editor_update one_role).2
  ∧ (RoleService.delete (str "r1") one_role).2 = no_roles
  ∧ db_ok (RoleService.delete (str "r1") one_role).2
  ∧ (RoleService.create role_env1 editor one_role).1
    = inl (PrismaClientError P2002)
  ∧ db_ok (RoleService.create role_env1 editor one_role).2.
Proof.
  pose proof one_role_ok as Hok.
  destruct (RoleService_preserves_db_ok role_env1 one_role Hok)
    as (Hc & Hu & Hd & _).
  split; [done|].
  split; [by eexists|]. split; [apply Hc|].
  split; [by eexists|]. split; [apply Hu|].
  split; [reflexivity|]. split; [apply Hd|].
  split; [reflexivity|apply Hc].
Defined.

End RoleOperationsExamples.

(* ===================================================================== *)
(** * Files: upload, deletion, and the existence check *)
(* ===================================================================== *)

Section FileOperations.

Import FilesService.

Variable cfg : Config.

(** The object [putObject] writes for an upload. *)
Definition put_object (info : PutInfo) (objectName : jsstring)
    (file : MulterFile.t) : BucketItem.t :=
  {| BucketItem.name := objectName;
     BucketItem.etag := put_etag info;
     BucketItem.versionId := put_versionId info;
     BucketItem.size := MulterFile.size file;
     BucketItem.content_type := Some (MulterFile.mimetype file) |}.

(** The objects with another name than [objectName]. *)
Definition other_objects (objectName : jsstring) (s : Store)
  : list BucketItem.t :=
  List.filter (fun o => negb (MinioClient.named objectName o)) (objects s).

(** The store after [file] has been written under [objectName]. *)
Definition after_put (info : PutInfo) (objectName : jsstring)
    (file : MulterFile.t) (s : Store) : Store :=
  {| objects :=
       take (put_place info) (other_objects objectName s)
       ++ put_object info objectName file
          :: drop (put_place info) (other_objects objectName s);
     online := online s |}.

Lemma named_spec (n : jsstring) (o : BucketItem.t) :
  MinioClient.named n o = true ↔ BucketItem.name o = n.
Proof. unfold MinioClient.named. by rewrite bool_decide_eq_true. Qed.

Lemma elem_of_other_objects (n : jsstring) (s : Store) (o : BucketItem.t) :
  o ∈ other_objects n s ↔ o ∈ objects s ∧ BucketItem.name o ≠ n.
Proof.
  unfold other_objects. rewrite elem_of_filter_bool, negb_true_iff.
  rewrite <- not_true_iff_false, named_spec. done.
Qed.

Lemma after_put_objects (info : PutInfo) (n : jsstring)
    (file : MulterFile.t) (s : Store) :
  objects (after_put info n file s)
  ≡ₚ put_object info n file :: other_objects n s.
Proof.
  simpl. rewrite <- Permutation_middle. by rewrite take_drop.
Qed.

Lemma after_put_ok (info : PutInfo) (n : jsstring) (file : MulterFile.t)
    (s : Store) :
  MinioClient.isValidObjectName n = true →
  bucket_ok s → bucket_ok (after_put info n file s).
Proof.
  unfold bucket_ok. intros Hn [Hnd Hvalid]. split.
  - rewrite after_put_objects. simpl. apply NoDup_cons. split.
    + intros (o & Heq & Ho)%list_elem_of_fmap.
      apply elem_of_other_objects in Ho as [_ Ho]. done.
    + by apply NoDup_fmap_filter.
  - intros o. rewrite after_put_objects.
    intros [->|[Ho _]%elem_of_other_objects]%elem_of_cons; [done|].
    by apply Hvalid.
Qed.

(** A generated name is never empty: it is valid as soon as it is not
    too long. *)
Lemma generateObjectName_valid (timestamp : N) (uuid originalName : jsstring) :
  MinioClient.isValidObjectName
    (generateObjectName timestamp uuid originalName)
  = bool_decide
      (length (generateObjectName timestamp uuid originalName) ≤ 1024)%nat.
Proof.
  unfold MinioClient.isValidObjectName.
  set (n := generateObjectName timestamp uuid originalName).
  assert (length n ≠ 0)%nat as Hn.
  { unfold n, generateObjectName. rewrite !length_app. simpl. lia. }
  destruct (Nat.eqb_spec (length n) 0); [done|]. simpl.
  case_bool_decide; [by apply Nat.leb_le|by apply Nat.leb_gt; lia].
Qed.

Lemma uploadFile_run (timestamp : N) (uuid : jsstring) (info : PutInfo)
    (file : MulterFile.t) (s : Store) :
  let objectName :=
    generateObjectName timestamp uuid (MulterFile.originalname file) in
  uploadFile cfg timestamp uuid info file s
  = if negb (MinioClient.isValidObjectName objectName)
    then (inl InternalServerErrorException, s)
    else if online s then
      (inr {| UploadResponse.bucket := bucketName cfg;
              UploadResponse.objectName := objectName;
              UploadResponse.etag := put_etag info;
              UploadResponse.versionId := put_versionId info;
              UploadResponse.size := MulterFile.size file;
              UploadResponse.mimetype := MulterFile.mimetype file;
              UploadResponse.url := getFilePublicUrl cfg objectName |},
       after_put info objectName file s)
    else (inl InternalServerErrorException, s).
Proof.
  unfold uploadFile, try_catch, mbind, M_bind, MinioClient.putObject.
  destruct (MinioClient.isValidObjectName _); [|done].
  by destruct s as [objs []].
Qed.

(** An object is found under its exact name. *)
Lemma getFile_exact (s : Store) (o : BucketItem.t) :
  online s = true → bucket_ok s → o ∈ objects s →
  FilesController.getFile cfg (BucketItem.name o) s
  = (inr (response_of cfg o), s).
Proof.
  intros Hon Hok Ho.
  unfold FilesController.getFile, fileExists, getFileMetadata,
    try_catch, mbind, M_bind, mret, M_ret.
  by rewrite !statObject_found.
Qed.

Lemma put_object_response (info : PutInfo) (n : jsstring)
    (file : MulterFile.t) :
  MulterFile.mimetype file ≠ [] →
  response_of cfg (put_object info n file)
  = {| UploadResponse.bucket := bucketName cfg;
       UploadResponse.objectName := n;
       UploadResponse.etag := put_etag info;
       UploadResponse.versionId := put_versionId info;
       UploadResponse.size := MulterFile.size file;
       UploadResponse.mimetype := MulterFile.mimetype file;
       UploadResponse.url := getFilePublicUrl cfg n |}.
Proof.
  intros Hm. unfold response_of, put_object, mimetype_of. simpl.
  by destruct (MulterFile.mimetype file).
Qed.

(** X25.  The client accepts an object name of at most 1024 code units.
    For a generated name within that bound, an upload to a store that
    answers writes one object under the generated name and keeps every
    object of another name; looking the returned [objectName] up returns
    the very response of the upload (the file has a mimetype).  When the
    store does not answer, or when the generated name is longer, the
    upload fails with InternalServerError and writes nothing. *)
Theorem upload_then_getFile (timestamp : N) (uuid : jsstring)
    (info : PutInfo) (file : MulterFile.t) (s : Store) :
  bucket_ok s →
  MulterFile.mimetype file ≠ [] →
  ((length (generateObjectName timestamp uuid (MulterFile.originalname file))
    ≤ 1024)%nat →
   (online s = true →
    ∃ r s', uploadFile cfg timestamp uuid info file s = (inr r, s')
      ∧ UploadResponse.objectName r
        = generateObjectName timestamp uuid (MulterFile.originalname file)
      ∧ UploadResponse.size r = MulterFile.size file
      ∧ UploadResponse.mimetype r = MulterFile.mimetype file
      ∧ UploadResponse.url r
        = getFilePublicUrl cfg (UploadResponse.objectName r)
      ∧ bucket_ok s'
      ∧ FilesController.getFile cfg (UploadResponse.objectName r) s'
        = (inr r, s')
      ∧ (∀ o, o ∈ objects s →
           BucketItem.name o ≠ UploadResponse.objectName r →
           o ∈ objects s'))
   ∧ (online s = false →
      uploadFile cfg timestamp uuid info file s
      = (inl InternalServerErrorException, s)))
  ∧ ((1024
      < length (generateObjectName timestamp uuid
                  (MulterFile.originalname file)))%nat →
     uploadFile cfg timestamp uuid info file s
     = (inl InternalServerErrorException, s)).
Proof.
  intros Hok Hm.
  set (n := generateObjectName timestamp uuid (MulterFile.originalname file)).
  pose proof (generateObjectName_valid timestamp uuid
                (MulterFile.originalname file)) as Hvalid.
  fold n in Hvalid.
  split; [intros Hlen; split; intros Hon|intros Hlen];
    rewrite uploadFile_run; cbv zeta; fold n; rewrite Hvalid.
  - rewrite bool_decide_true by done. simpl. rewrite Hon.
    rewrite bool_decide_true in Hvalid by done.
    eexists _, _. split; [reflexivity|]. simpl UploadResponse.objectName.
    do 4 (split; [done|]). split; [by apply after_put_ok|]. split.
    + rewrite <- (put_object_response info n file Hm).
      apply (getFile_exact (after_put info n file s)
               (put_object info n file)); [done| |].
      * by apply after_put_ok.
      * rewrite after_put_objects. left.
    + intros o Ho Hne. rewrite after_put_objects. right.
      by apply elem_of_other_objects.
  - rewrite bool_decide_true by done. simpl. by rewrite Hon.
  - rewrite bool_decide_false by lia. done.
Qed.

Definition report : MulterFile.t :=
  {| MulterFile.originalname := str "my report.pdf";
     MulterFile.mimetype := str "application/pdf";
     MulterFile.size := 4096 |}.

Definition put0 : PutInfo :=
  {| put_etag := str "e2"; put_versionId := None; put_place := 1 |}.

End FileOperations.

(** A file whose name has 1100 characters. *)
Definition long_report : MulterFile.t :=
  {| MulterFile.originalname := replicate 1100 (code "a");
     MulterFile.mimetype := str "application/pdf";
     MulterFile.size := 4096 |}.

Lemma upload_then_getFile_witness :
  (∃ r s',
     FilesService.uploadFile cfg0 1733123456791 (str "77aa") put0 report
       store0
     = (inr r, s')
     ∧ UploadResponse.objectName r = str "1733123456791-77aa-my_report.pdf"
     ∧ BucketItem.name <$> objects s'
       = [BucketItem.name object0;
          str "1733123456791-77aa-my_report.pdf";
          BucketItem.name object1]
     ∧ FilesController.getFile cfg0 (UploadResponse.objectName r) s'
       = (inr r, s'))
  ∧ FilesService.uploadFile cfg0 1733123456791 (str "77aa") put0 long_report
      store0
    = (inl InternalServerErrorException, store0).
Proof.
  split.
  - destruct (upload_then_getFile cfg0 1733123456791 (str "77aa") put0
                report store0 store0_ok) as [H _]; [done|].
    destruct H as [H _]; [vm_compute; lia|].
    destruct (H eq_refl) as (r & s' & Hrun & Hn & _ & _ & _ & _ & Hget & _).
    exists r, s'. split; [done|]. split; [by rewrite Hn|]. split; [|done].
    vm_compute in Hrun. injection Hrun as <- <-. reflexivity.
  - destruct (upload_then_getFile cfg0 1733123456791 (str "77aa") put0
                long_report store0 store0_ok) as [_ H]; [done|].
    apply H. vm_compute. lia.
Defined.

Section FileDeletion.

Import FilesService.

Variable cfg : Config.

Lemma without_object (pre post : list BucketItem.t) (o : BucketItem.t) :
  NoDup (BucketItem.name <$> pre ++ o :: post) →
  List.filter (fun x => negb (MinioClient.named (BucketItem.name o) x))
    (pre ++ o :: post)
  = pre ++ post.
Proof.
  rewrite fmap_app, fmap_cons.
  intros (_ & Hpre & [Ho _]%NoDup_cons)%NoDup_app.
  rewrite List.filter_app. simpl.
  rewrite (proj2 (named_spec _ _)) by done. simpl.
  rewrite !filter_all; [done| |].
  - intros x Hx. apply negb_true_iff, not_true_is_false.
    intros Hn%named_spec. apply Ho. rewrite <- Hn.
    by apply list_elem_of_fmap_2.
  - intros x Hx. apply negb_true_iff, not_true_is_false.
    intros Hn%named_spec.
    apply (Hpre (BucketItem.name x)); [by apply list_elem_of_fmap_2|].
    rewrite Hn. left.
Qed.

Lemma deleteFile_run (s : Store) (pre post : list BucketItem.t)
    (o : BucketItem.t) :
  online s = true → bucket_ok s → objects s = pre ++ o :: post →
  FilesService.deleteFile (BucketItem.name o) s
  = (inr tt, {| objects := pre ++ post; online := true |}).
Proof.
  intros Hon [Hnd Hvalid] Hobjs.
  unfold FilesService.deleteFile, try_catch, MinioClient.removeObject.
  rewrite Hvalid by (rewrite Hobjs, elem_of_app; right; left).
  simpl. rewrite Hon. rewrite Hobjs in *.
  by rewrite without_object.
Qed.

(** X26.  For an identifier the client accepts as an object name (not
    empty, at most 1024 code units), [DELETE /files/:identifier] removes
    exactly one object: the one named [identifier] if there is one,
    otherwise the first of the listing whose name contains [identifier];
    all other objects stay, in their order.  If no name contains the
    identifier, it fails with NotFound, and a store that does not answer
    makes it fail with another error.  For any other identifier it fails
    with the client's InvalidObjectNameError.  In all three cases nothing
    is removed. *)
Theorem deleteFile_resolution (s : Store) (identifier : jsstring) :
  (MinioClient.isValidObjectName identifier = true →
   (online s = true → bucket_ok s →
    (∀ pre o post,
       objects s = pre ++ o :: post → BucketItem.name o = identifier →
       FilesController.deleteFile cfg identifier s
       = (inr tt, {| objects := pre ++ post; online := true |}))
    ∧ (∀ pre o post,
         (∀ x, x ∈ objects s → BucketItem.name x ≠ identifier) →
         objects s = pre ++ o :: post →
         (∀ x, x ∈ pre → ¬ is_substring identifier (BucketItem.name x)) →
         is_substring identifier (BucketItem.name o) →
         FilesController.deleteFile cfg identifier s
         = (inr tt, {| objects := pre ++ post; online := true |}))
    ∧ ((∀ x, x ∈ objects s →
          ¬ is_substring identifier (BucketItem.name x)) →
       FilesController.deleteFile cfg identifier s
       = (inl NotFoundException, s)))
   ∧ (online s = false →
      ∃ e, FilesController.deleteFile cfg identifier s = (inl e, s)
           ∧ e ≠ NotFoundException))
  ∧ (MinioClient.isValidObjectName identifier = false →
     FilesController.deleteFile cfg identifier s
     = (inl (MinioError InvalidObjectNameError), s)).
Proof.
  split; [intros Hvalid; split|].
  - intros Hon Hok. split; [|split].
    + intros pre o post Hobjs <-.
      assert (o ∈ objects s) as Ho.
      { rewrite Hobjs. apply elem_of_app. right. left. }
      unfold FilesController.deleteFile, fileExists, try_catch at 1,
        mbind, M_bind, mret, M_ret.
      rewrite statObject_found by done.
      by apply deleteFile_run.
    + intros pre o post Hno Hobjs Hpre Hhit.
      assert (o ∈ objects s) as Ho.
      { rewrite Hobjs. apply elem_of_app. right. left. }
      unfold FilesController.deleteFile, fileExists, getFileById,
        try_catch at 1 2, mbind, M_bind, mret, M_ret.
      rewrite statObject_missing by done.
      unfold MinioClient.listObjectsV2. rewrite Hon, Hobjs.
      rewrite first_including_hit; try done.
      * by apply deleteFile_run.
      * intros x Hx. by apply not_includes, Hpre.
      * by apply includes_spec.
    + intros Hnone.
      unfold FilesController.deleteFile, fileExists, getFileById,
        try_catch, mbind, M_bind, mret, M_ret.
      rewrite statObject_missing.
      * unfold MinioClient.listObjectsV2.
        rewrite Hon, first_including_miss; [done|].
        intros x Hx. by apply not_includes, Hnone.
      * done.
      * done.
      * intros o Ho Heq. apply (Hnone o Ho). rewrite Heq.
        exists [], []. by rewrite app_nil_r.
  - intros Hoff. exists (MinioError S3Transport). split; [|done].
    unfold FilesController.deleteFile, fileExists, try_catch, mbind, M_bind.
    by rewrite statObject_offline.
  - intros Hinvalid.
    unfold FilesController.deleteFile, fileExists, try_catch, mbind, M_bind.
    by rewrite statObject_invalid.
Qed.

End FileDeletion.

Lemma deleteFile_resolution_witness :
  FilesController.deleteFile cfg0 (str "9c41") store0
  = (inr tt, {| objects := [object0]; online := true |})
  ∧ FilesController.deleteFile cfg0 (BucketItem.name object0) store0
    = (inr tt, {| objects := [object1]; online := true |})
  ∧ FilesController.deleteFile cfg0 (str "report") store0
    = (inr tt, {| objects := [object1]; online := true |})
  ∧ FilesController.deleteFile cfg0 (str "0000") store0
    = (inl NotFoundException, store0)
  ∧ FilesController.deleteFile cfg0 long_identifier store0
    = (inl (MinioError InvalidObjectNameError), store0).
Proof.
  destruct (deleteFile_resolution cfg0 store0 (str "9c41")) as [H _].
  destruct (H eq_refl) as [H' _].
  destruct (H' eq_refl store0_ok) as (_ & Hsub & _).
  destruct (deleteFile_resolution cfg0 store0 (BucketItem.name object0))
    as [H0 _].
  destruct (H0 eq_refl) as [H0' _].
  destruct (H0' eq_refl store0_ok) as (Hexact & _ & _).
  destruct (deleteFile_resolution cfg0 store0 (str "report")) as [H1 _].
  destruct (H1 eq_refl) as [H1' _].
  destruct (H1' eq_refl store0_ok) as (_ & Hfirst & _).
  destruct (deleteFile_resolution cfg0 store0 (str "0000")) as [H2 _].
  destruct (H2 eq_refl) as [H2' _].
  destruct (H2' eq_refl store0_ok) as (_ & _ & Hnone).
  destruct (deleteFile_resolution cfg0 store0 long_identifier) as [_ H3].
  split; [|split; [|split; [|split]]].
  - apply (Hsub [object0] object1 []); [|reflexivity| |].
    + apply Forall_forall; repeat constructor; vm_compute; congruence.
    + intros x Hx. apply not_substring. revert x Hx.
      apply Forall_forall; repeat constructor; vm_compute; congruence.
    + apply includes_spec. reflexivity.
  - apply (Hexact [] object0 [object1]); reflexivity.
  - apply (Hfirst [] object0 [object1]); [|reflexivity| |].
    + apply Forall_forall; repeat constructor; vm_compute; congruence.
    + intros x Hx. by apply elem_of_nil in Hx.
    + apply includes_spec. reflexivity.
  - apply Hnone. intros x Hx. apply not_substring. revert x Hx.
    apply Forall_forall; repeat constructor; vm_compute; congruence.
  - by apply H3.
Defined.

Section FileNames.

Import FilesService.

Variable cfg : Config.

Lemma getFilePublicUrl_inj (a b : jsstring) :
  getFilePublicUrl cfg a = getFilePublicUrl cfg b → a = b.
Proof.
  unfold getFilePublicUrl. intros H.
  repeat apply app_inv_head in H. done.
Qed.

Lemma put_object_kept (i1 i2 : PutInfo) (n1 n2 : jsstring)
    (file1 file2 : MulterFile.t) (s : Store) :
  n1 ≠ n2 →
  put_object i1 n1 file1
  ∈ objects (after_put i2 n2 file2 (after_put i1 n1 file1 s)).
Proof.
  intros Hne. rewrite after_put_objects. right.
  apply elem_of_other_objects. split; [|done].
  rewrite after_put_objects. left.
Qed.

(** X27.  Two uploads of the same file whose timestamps or UUIDs differ,
    under generated names of at most 1024 code units, are stored as two
    objects with different URLs: after the second upload either name is
    still resolved to the response its own upload returned. *)
Theorem uploads_do_not_collide (t1 t2 : N) (u1 u2 : jsstring)
    (i1 i2 : PutInfo) (file : MulterFile.t) (s : Store) :
  online s = true → bucket_ok s →
  MulterFile.mimetype file ≠ [] →
  (length (generateObjectName t1 u1 (MulterFile.originalname file))
   ≤ 1024)%nat →
  (length (generateObjectName t2 u2 (MulterFile.originalname file))
   ≤ 1024)%nat →
  (t1, u1) ≠ (t2, u2) →
  ∃ r1 s1 r2 s2,
    uploadFile cfg t1 u1 i1 file s = (inr r1, s1)
    ∧ uploadFile cfg t2 u2 i2 file s1 = (inr r2, s2)
    ∧ UploadResponse.url r1 ≠ UploadResponse.url r2
    ∧ FilesController.getFile cfg (UploadResponse.objectName r1) s2
      = (inr r1, s2)
    ∧ FilesController.getFile cfg (UploadResponse.objectName r2) s2
      = (inr r2, s2).
Proof.
  intros Hon Hok Hm Hl1 Hl2 Hne.
  set (n1 := generateObjectName t1 u1 (MulterFile.originalname file)) in *.
  set (n2 := generateObjectName t2 u2 (MulterFile.originalname file)) in *.
  assert (MinioClient.isValidObjectName n1 = true) as Hv1.
  { unfold n1. rewrite generateObjectName_valid. by apply bool_decide_true. }
  assert (MinioClient.isValidObjectName n2 = true) as Hv2.
  { unfold n2. rewrite generateObjectName_valid. by apply bool_decide_true. }
  assert (n1 ≠ n2) as Hn.
  { intros [-> ->]%generateObjectName_inj. done. }
  set (s1 := after_put i1 n1 file s).
  set (s2 := after_put i2 n2 file s1).
  assert (bucket_ok s2) as Hok2 by by do 2 (apply after_put_ok; [done|]).
  eexists _, s1, _, s2.
  rewrite !uploadFile_run. cbv zeta. fold n1 n2. rewrite Hv1, Hv2.
  simpl online. rewrite Hon. simpl negb. cbv iota.
  split; [reflexivity|]. split; [reflexivity|]. simpl.
  split; [|split].
  - by intros ?%getFilePublicUrl_inj.
  - rewrite <- (put_object_response cfg i1 n1 file Hm).
    apply (getFile_exact cfg s2 (put_object i1 n1 file)); [done..|].
    by apply put_object_kept.
  - rewrite <- (put_object_response cfg i2 n2 file Hm).
    apply (getFile_exact cfg s2 (put_object i2 n2 file)); [done..|].
    unfold s2. rewrite after_put_objects. left.
Qed.

(** X28.  The sanitized name consists of letters, digits, [.], [-] and
    [_] only, sanitizing it again changes nothing, and a name within
    [[A-Za-z0-9.-]] is kept as it is. *)
Theorem sanitize_idempotent (originalName : jsstring) :
  Forall (fun c => allowed c ∨ c = code "_") (sanitize originalName)
  ∧ sanitize (sanitize originalName) = sanitize originalName
  ∧ (Forall allowed originalName → sanitize originalName = originalName).
Proof.
  unfold sanitize. split; [|split].
  - apply Forall_fmap, Forall_true. intros c. simpl.
    destruct (in_class c) eqn:Hc; [|by right].
    left. by apply in_class_allowed.
  - rewrite <- list_fmap_compose. apply list_fmap_ext. intros i c _. simpl.
    destruct (in_class c) eqn:Hc; [by rewrite Hc|done].
  - intros Hall. rewrite <- (list_fmap_id originalName) at 2.
    apply Forall_fmap_ext_1. eapply Forall_impl; [exact Hall|].
    intros c Hc. simpl. by rewrite (proj2 (in_class_allowed c)).
Qed.

(** X29.  For a name the client accepts (not empty, at most 1024 code
    units) and a store that answers, [fileExists] returns whether some
    object has the name, and [getFileMetadata] returns an object of that
    name exactly when [fileExists] returns true and fails with NotFound
    otherwise.  With a store that does not answer, [fileExists] passes on
    the store's error while [getFileMetadata] fails with
    InternalServerError.  For a name the client refuses, [fileExists]
    passes on the client's InvalidObjectNameError and [getFileMetadata]
    fails with InternalServerError.  Neither changes the store. *)
Theorem fileExists_agrees (s : Store) (objectName : jsstring) :
  (MinioClient.isValidObjectName objectName = true →
   (online s = true →
    (objectName ∈ BucketItem.name <$> objects s →
       fileExists objectName s = (inr true, s)
       ∧ ∃ o, getFileMetadata objectName s = (inr o, s)
              ∧ o ∈ objects s ∧ BucketItem.name o = objectName)
    ∧ (objectName ∉ BucketItem.name <$> objects s →
       fileExists objectName s = (inr false, s)
       ∧ getFileMetadata objectName s = (inl NotFoundException, s)))
   ∧ (online s = false →
      fileExists objectName s = (inl (MinioError S3Transport), s)
      ∧ getFileMetadata objectName s
        = (inl InternalServerErrorException, s)))
  ∧ (MinioClient.isValidObjectName objectName = false →
     fileExists objectName s = (inl (MinioError InvalidObjectNameError), s)
     ∧ getFileMetadata objectName s
       = (inl InternalServerErrorException, s)).
Proof.
  unfold fileExists, getFileMetadata, try_catch, mbind, M_bind, mret, M_ret,
    MinioClient.statObject.
  split; intros Hvalid; rewrite Hvalid; [|done]. simpl.
  split; intros Hon; rewrite Hon; [|done].
  split.
  - intros (x & Hn & Hx)%list_elem_of_fmap.
    destruct (find_by_is_some BucketItem.name (objects s) x Hx) as [o Ho].
    unfold MinioClient.named. rewrite Hn, Ho. split; [done|].
    exists o. split; [done|].
    by apply (find_by_some BucketItem.name) in Ho as [Ho Heq].
  - intros Hno. unfold MinioClient.named.
    rewrite (find_by_none BucketItem.name); [done|].
    intros x Hx Heq. apply Hno. rewrite <- Heq.
    by apply list_elem_of_fmap_2.
Qed.

End FileNames.

Lemma uploads_do_not_collide_witness :
  ∃ r1 s1 r2 s2,
    FilesService.uploadFile cfg0 1733123456791 (str "77aa") put0 report store0
    = (inr r1, s1)
    ∧ FilesService.uploadFile cfg0 1733123456791 (str "77ab") put0 report s1
      = (inr r2, s2)
    ∧ UploadResponse.url r1 ≠ UploadResponse.url r2
    ∧ FilesController.getFile cfg0 (UploadResponse.objectName r1) s2
      = (inr r1, s2)
    ∧ FilesController.getFile cfg0 (UploadResponse.objectName r2) s2
      = (inr r2, s2).
Proof.
  apply (uploads_do_not_collide cfg0 1733123456791 1733123456791
           (str "77aa") (str "77ab") put0 put0 report store0 eq_refl
           store0_ok).
  - done.
  - vm_compute. lia.
  - vm_compute. lia.
  - vm_compute. congruence.
Defined.

Lemma fileExists_agrees_witness :
  FilesService.fileExists (BucketItem.name object1) store0
  = (inr true, store0)
  ∧ FilesService.fileExists (str "9c41") store0 = (inr false, store0)
  ∧ FilesService.getFileMetadata (str "9c41") store0
    = (inl NotFoundException, store0)
  ∧ FilesService.fileExists long_identifier store0
    = (inl (MinioError InvalidObjectNameError), store0)
  ∧ FilesService.fileExists [] store0
    = (inl (MinioError InvalidObjectNameError), store0).
Proof.
  destruct (fileExists_agrees store0 (BucketItem.name object1)) as [H1 _].
  destruct (H1 eq_refl) as [H1' _].
  destruct (H1' eq_refl) as [[Hyes _] _].
  { apply (bool_decide_unpack _). by vm_compute. }
  destruct (fileExists_agrees store0 (str "9c41")) as [H2 _].
  destruct (H2 eq_refl) as [H2' _].
  destruct (H2' eq_refl) as [_ Hno].
  destruct (fileExists_agrees store0 long_identifier) as [_ H3].
  destruct (fileExists_agrees store0 []) as [_ H4].
  split; [done|].
  split; [apply Hno; apply (bool_decide_unpack _); by vm_compute|].
  split; [apply Hno; apply (bool_decide_unpack _); by vm_compute|].
  split; [by apply H3|by apply H4].
Defined.

(* ===================================================================== *)
(** * Pagination: the two decorators and the list routes *)
(* ===================================================================== *)

Section PaginationVariants.

Lemma PaginationV1_values (query : Query) (p l : Z) :
  Js.parseInt (raw_page query) = JNum p →
  Js.parseInt (raw_limit query) = JNum l →
  PaginationV1.Pagination query
  = {| PaginationV1.page := JNum (Z.max 1 p);
       PaginationV1.limit := JNum (if l <? 1 then 10 else Z.min 100 l);
       PaginationV1.skip :=
         JNum ((Z.max 1 p - 1) * (if l <? 1 then 10 else Z.min 100 l)) |}.
Proof.
  unfold raw_page, raw_limit, PaginationV1.Pagination. intros -> ->.
  cbv zeta. unfold Js.lt, Js.gt, Js.lt.
  destruct (Z.ltb_spec p 1), (Z.ltb_spec l 1);
    try destruct (Z.ltb_spec 100 l);
    rewrite ?skip_value; do 2 f_equal; try lia;
    destruct (Z.max_spec 1 p), (Z.min_spec 100 l); nia.
Qed.

Lemma PaginationV2_values (query : Query) (p l : Z) :
  Js.parseInt (raw_page query) = JNum p →
  Js.parseInt (raw_limit query) = JNum l →
  PaginationV2.page (PaginationV2.Pagination query) = JNum (Z.max 1 p)
  ∧ PaginationV2.limit (PaginationV2.Pagination query)
    = JNum (Z.max 1 (Z.min 100 l))
  ∧ PaginationV2.skip (PaginationV2.Pagination query)
    = JNum ((Z.max 1 p - 1) * Z.max 1 (Z.min 100 l)).
Proof.
  unfold raw_page, raw_limit, PaginationV2.Pagination. intros -> ->.
  cbn [PaginationV2.page PaginationV2.limit PaginationV2.skip].
  assert (Js.max (JNum 1) (JNum p) = JNum (Z.max 1 p)) as ->.
  { simpl. destruct (Z.ltb_spec 1 p); f_equal; lia. }
  assert (Js.max (JNum 1) (Js.min (JNum 100) (JNum l))
          = JNum (Z.max 1 (Z.min 100 l))) as ->.
  { simpl. destruct (Z.ltb_spec l 100); simpl.
    - destruct (Z.ltb_spec 1 l); f_equal; lia.
    - f_equal; lia. }
  by rewrite skip_value.
Qed.

(** X16.  For query values that parse to numbers, both variants of the
    decorator return the page raised to at least 1, and for a limit of at
    least 1 the same limit, capped at 100, and the same skip; a limit
    below 1 becomes 10 in the first variant and 1 in the second. *)
Theorem Pagination_variants (query : Query) (p l : Z) :
  Js.parseInt (raw_page query) = JNum p →
  Js.parseInt (raw_limit query) = JNum l →
  let r1 := PaginationV1.Pagination query in
  let r2 := PaginationV2.Pagination query in
  PaginationV1.page r1 = JNum (Z.max 1 p)
  ∧ PaginationV2.page r2 = JNum (Z.max 1 p)
  ∧ (1 ≤ l →
     PaginationV1.limit r1 = JNum (Z.min 100 l)
     ∧ PaginationV2.limit r2 = JNum (Z.min 100 l)
     ∧ PaginationV1.skip r1 = PaginationV2.skip r2)
  ∧ (l < 1 →
     PaginationV1.limit r1 = JNum 10 ∧ PaginationV2.limit r2 = JNum 1).
Proof.
  intros Hp Hl r1 r2. subst r1 r2.
  rewrite (PaginationV1_values query p l Hp Hl).
  destruct (PaginationV2_values query p l Hp Hl) as (-> & -> & ->).
  cbn [PaginationV1.page PaginationV1.limit PaginationV1.skip].
  split; [done|]. split; [done|]. split; intros Hl1.
  - destruct (Z.ltb_spec l 1); [lia|].
    repeat lazymatch goal with |- _ ∧ _ => split end; do 2 f_equal; lia.
  - destruct (Z.ltb_spec l 1); [|lia]. split; f_equal; lia.
Qed.

(** [?page=2&limit=0] *)
Definition zero_limit_query : Query :=
  <[str "page" := str "2"]> (<[str "limit" := str "0"]> ∅).

Lemma Pagination_variants_witness :
  PaginationV1.Pagination zero_limit_query
  = {| PaginationV1.page := JNum 2; PaginationV1.limit := JNum 10;
       PaginationV1.skip := JNum 10 |}
  ∧ PaginationV2.limit (PaginationV2.Pagination zero_limit_query) = JNum 1
  ∧ PaginationV2.skip (PaginationV2.Pagination zero_limit_query) = JNum 1.
Proof.
  destruct (Pagination_variants zero_limit_query 2 0 eq_refl eq_refl)
    as (_ & _ & _ & H).
  destruct H as [H1 H2]; [lia|].
  split; [reflexivity|]. split; [exact H2|reflexivity].
Defined.

(** X17.  Beside the page descriptor, the second variant passes on [sort]
    and [search] as they are, orders ascending only for [order=asc], and
    collects as [filters] exactly the query entries whose key is not one
    of [page], [limit], [sort], [order], [search]; [filters] is
    [undefined] when there is no such entry. *)
Theorem PaginationV2_filters (query : Query) :
  let r := PaginationV2.Pagination query in
  PaginationV2.sort r = query !! str "sort"
  ∧ PaginationV2.search r = query !! str "search"
  ∧ (PaginationV2.order r = ASC ↔ query !! str "order" = Some (str "asc"))
  ∧ (PaginationV2.filters r = None ↔
     ∀ k, is_Some (query !! k) → k ∈ PaginationV2.reservedKeys)
  ∧ (∀ f, PaginationV2.filters r = Some f →
       ∀ k v, f !! k = Some v ↔
              query !! k = Some v ∧ k ∉ PaginationV2.reservedKeys).
Proof.
  intros r. subst r. unfold PaginationV2.Pagination.
  cbn [PaginationV2.sort PaginationV2.search PaginationV2.order
       PaginationV2.filters].
  set (filters := filter (fun kv => kv.1 ∉ PaginationV2.reservedKeys) query).
  split; [done|]. split; [done|]. split; [by case_decide|].
  assert (∀ k v, filters !! k = Some v ↔
                 query !! k = Some v ∧ k ∉ PaginationV2.reservedKeys)
    as Hlookup.
  { intros k v. unfold filters. by rewrite map_lookup_filter_Some. }
  split.
  - case_decide as Hsize.
    + split; [done|]. intros Hall. exfalso.
      assert (filters = ∅) as Hempty; [|rewrite Hempty, map_size_empty in Hsize; lia].
      apply map_empty. intros k.
      destruct (filters !! k) as [v|] eqn:Hk; [|done].
      apply Hlookup in Hk as [Hk Hres]. destruct Hres. apply Hall. by eexists.
    + split; [|done]. intros _ k [v Hk].
      destruct (decide (k ∈ PaginationV2.reservedKeys)) as [|Hres]; [done|].
      exfalso. apply Hsize.
      assert (filters ≠ ∅) as Hne.
      { intros Hempty. assert (filters !! k = Some v) as Hf by by apply Hlookup.
        by rewrite Hempty, lookup_empty in Hf. }
      apply map_size_non_empty_iff in Hne. lia.
  - intros f Hf. case_decide; [|done]. by injection Hf as <-.
Qed.

End PaginationVariants.

Section ListRoutes.

Context {database : Database}.

Import PrismaUser PaginationInterceptor.

#[local] Arguments User_object : simpl never.
#[local] Arguments UserServiceBase.excludePassword : simpl never.

(** ** The soft-delete service *)

(** X14.  For a page number and a page size of at least 1, both small
    enough for [skip] and [take] to be exact in a JavaScript number,
    [findAll] reports a next page exactly when rows it lists (live, and
    found by the search) remain beyond the current page, and a previous
    page exactly when the page number exceeds 1; a page that is followed
    by another one is full. *)
Theorem findAll_next_page (dto : PaginationWithSearchDto.t) (db : UserDB)
    (p l : Z) :
  Js.num_or (PaginationWithSearchDto.page dto) (JNum 1) = JNum p → 1 ≤ p →
  Js.num_or (PaginationWithSearchDto.limit dto) (JNum 10) = JNum l → 1 ≤ l →
  l < 2 ^ 53 → (p - 1) * l < 2 ^ 53 →
  is_Some (sort_column (list_order dto).1) →
  ∃ page, UserService.findAll dto db = (inr page, db)
    ∧ (QueryHelper.hasNextPage (UserService.meta page) = true
       ↔ p * l < Z.of_nat (length (listed dto db)))
    ∧ (QueryHelper.hasPreviousPage (UserService.meta page) = true ↔ 1 < p)
    ∧ (QueryHelper.hasNextPage (UserService.meta page) = true →
       Z.of_nat (length (UserService.data page)) = l).
Proof.
  intros Hp Hp1 Hl Hl1 Hl2 Hskip Hcol.
  rewrite findAll_run. unfold QueryHelper.getPaginationOptions.
  rewrite Hp, Hl. cbv zeta. cbn [QueryHelper.opt_skip QueryHelper.opt_limit
    QueryHelper.opt_page]. rewrite skip_value.
  destruct (order_rows_some (list_order dto) (JNum ((p - 1) * l)) (JNum l)
              (listed dto db) Hcol) as (rows & -> & Hperm).
  rewrite paginate_forward by nia.
  eexists. split; [reflexivity|].
  cbn [UserService.meta UserService.data]. unfold QueryHelper.buildMeta.
  cbn [QueryHelper.hasNextPage QueryHelper.hasPreviousPage].
  destruct (ceil_div_least (Z.of_nat (length (listed dto db))) l)
    as (c & -> & Hc1 & Hc2); [lia|].
  unfold Js.gt, Js.lt. rewrite !Z.ltb_lt.
  assert (p < c ↔ p * l < Z.of_nat (length (listed dto db))) as Hnext.
  { split; intros; nia. }
  split; [done|]. split; [done|].
  intros Hn%Hnext.
  rewrite length_fmap, length_take, length_drop, Hperm. nia.
Qed.

(** ** The list route of the earlier controller *)

Lemma where_all_matches (db : UserDB) :
  List.filter (matches where_all) db = db.
Proof. apply filter_all. done. Qed.

Lemma findAll_v0_run (p l : Z) (db : UserDB) :
  1 ≤ p → 0 ≤ l < 2 ^ 63 → (p - 1) * l < 2 ^ 63 →
  ∃ rows, rows ≡ₚ db
    ∧ UserServiceV0.findAll (Some (JNum p)) (Some (JNum l)) db
      = (inr {| UserServiceV0.data :=
                  entity_of
                    <$> take (Z.to_nat l)
                          (drop (Z.to_nat ((p - 1) * l)) rows);
                UserServiceV0.total := JNum (Z.of_nat (length db));
                UserServiceV0.page := JNum p;
                UserServiceV0.totalPages :=
                  Js.ceil_div (JNum (Z.of_nat (length db))) (JNum l) |},
         db).
Proof.
  intros Hp Hl Hskip.
  assert (is_Some (sort_column (str "createdAt", DESC).1)) as Hcol
    by by eexists.
  unfold UserServiceV0.findAll, try_catch, mbind, M_bind, findMany, count.
  change (where_valid where_all) with true. cbn [from_option id].
  rewrite where_all_matches, skip_value.
  destruct (order_rows_some (str "createdAt", DESC) (JNum ((p - 1) * l))
              (JNum l) db Hcol) as (rows & -> & Hperm).
  exists rows. split; [done|].
  rewrite paginate_forward by nia. by rewrite where_all_matches.
Qed.

(** A [skip] of more than 64 bits is refused by the database client, and
    the service answers with an internal error. *)
Lemma findAll_v0_overflow (p l : Z) (db : UserDB) :
  2 ^ 63 ≤ (p - 1) * l →
  UserServiceV0.findAll (Some (JNum p)) (Some (JNum l)) db
  = (inl InternalServerErrorException, db).
Proof.
  intros Hskip.
  unfold UserServiceV0.findAll, try_catch, mbind, M_bind, findMany.
  change (where_valid where_all) with true. cbn [from_option id].
  rewrite skip_value.
  destruct (order_rows _ _ _ _) as [rows|]; [|done].
  rewrite paginate_overflow by by left. done.
Qed.

Lemma findAll_v0_invalid (page limit : jsnum) (db : UserDB) :
  page = JNaN ∨ limit = JNaN →
  UserServiceV0.findAll (Some page) (Some limit) db
  = (inl InternalServerErrorException, db).
Proof.
  intros H.
  assert (Js.mul (Js.sub page (JNum 1)) limit = JNaN
          ∨ limit = JNaN) as Hskip.
  { destruct H as [->| ->]; [left|by right]. by destruct limit. }
  unfold UserServiceV0.findAll, try_catch, mbind, M_bind, findMany.
  change (where_valid where_all) with true. cbn [from_option id].
  destruct (order_rows _ _ _ _) as [rows|]; [|done].
  destruct Hskip as [-> | ->]; [done|].
  unfold paginate. by destruct (Js.mul _ _).
Qed.

Lemma Pagination_numeric (variant : UserControllerV0.Decorator)
    (query : Query) (p l : Z) :
  Js.parseInt (raw_page query) = JNum p →
  Js.parseInt (raw_limit query) = JNum l →
  ∃ vl, UserControllerV0.Pagination variant query
        = (JNum (Z.max 1 p), JNum vl)
    ∧ 1 ≤ vl ≤ 100.
Proof.
  intros Hp Hl. destruct variant; unfold UserControllerV0.Pagination.
  - rewrite (PaginationV1_values query p l Hp Hl). cbv zeta.
    eexists. split; [reflexivity|]. destruct (Z.ltb_spec l 1); lia.
  - destruct (PaginationV2_values query p l Hp Hl) as (-> & -> & _).
    eexists. split; [reflexivity|]. lia.
Qed.

Lemma Pagination_invalid (variant : UserControllerV0.Decorator)
    (query : Query) :
  Js.parseInt (raw_page query) = JNaN
  ∨ Js.parseInt (raw_limit query) = JNaN →
  (UserControllerV0.Pagination variant query).1 = JNaN
  ∨ (UserControllerV0.Pagination variant query).2 = JNaN.
Proof.
  unfold raw_page, raw_limit.
  intros [H|H]; [left|right]; destruct variant;
    unfold UserControllerV0.Pagination, PaginationV1.Pagination,
      PaginationV2.Pagination; cbn [fst snd PaginationV1.page
      PaginationV1.limit PaginationV2.page PaginationV2.limit];
    rewrite H; try done.
Qed.

(** X15.  [GET /users] of the earlier controller.  For query values that
    parse to numbers that a JavaScript number holds exactly, with a page
    below 2^46, the answer holds the users of the requested page, at most
    100 and each without its password; [meta.total] counts all users,
    [meta.page] is the page raised to at least 1, and [meta.limit] is the
    query's limit as parsed, not the limit the page was fetched with.
    With users in the table, [meta.totalPages] and [meta.hasNextPage]
    follow the limit the page was fetched with; with none,
    [meta.totalPages] is computed again from the parsed limit.  A page
    beyond 2^63 passes the decorator, but its [skip] does not fit the 64
    bits of the database client: the answer is an internal error.  So is
    the answer to a query value that does not parse to a number. *)
Theorem list_route (variant : UserControllerV0.Decorator) (query : Query)
    (db : UserDB) :
  (∀ p l,
     Js.parseInt (raw_page query) = JNum p →
     Js.parseInt (raw_limit query) = JNum l →
     p < 2 ^ 46 → Z.abs l < 2 ^ 53 →
     ∃ out vl,
       UserControllerV0.findAll variant query db = (inr (OPaginated out), db)
       ∧ (UserControllerV0.Pagination variant query).2 = JNum vl
       ∧ 1 ≤ vl ≤ 100
       ∧ Z.of_nat (length (res_data out))
         = Z.min vl
             (Z.max 0 (Z.of_nat (length db) - (Z.max 1 p - 1) * vl))
       ∧ (∀ e, e ∈ res_data out → ∃ u, u ∈ db ∧ e = entity_of u)
       ∧ QueryHelper.total (res_meta out) = JNum (Z.of_nat (length db))
       ∧ QueryHelper.page (res_meta out) = JNum (Z.max 1 p)
       ∧ QueryHelper.limit (res_meta out) = JNum l
       ∧ (db ≠ [] →
          QueryHelper.totalPages (res_meta out)
          = Js.ceil_div (JNum (Z.of_nat (length db))) (JNum vl)
          ∧ (QueryHelper.hasNextPage (res_meta out) = true
             ↔ Z.max 1 p * vl < Z.of_nat (length db)))
       ∧ (db = [] →
          QueryHelper.totalPages (res_meta out)
          = Js.ceil_div (JNum 0) (JNum l)))
  ∧ (∀ p l,
       Js.parseInt (raw_page query) = JNum p →
       Js.parseInt (raw_limit query) = JNum l →
       2 ^ 63 < p →
       UserControllerV0.findAll variant query db
       = (inl InternalServerErrorException, db))
  ∧ (Js.parseInt (raw_page query) = JNaN
     ∨ Js.parseInt (raw_limit query) = JNaN →
     UserControllerV0.findAll variant query db
     = (inl InternalServerErrorException, db)).
Proof.
  split; [|split].
  - intros p l Hp Hl Hp46 Hl53.
    destruct (Pagination_numeric variant query p l Hp Hl)
      as (vl & Hpag & Hvl).
    destruct (findAll_v0_run (Z.max 1 p) vl db) as (rows & Hperm & Hrun);
      [lia|lia|nia|].
    unfold UserControllerV0.findAll, mbind, M_bind, mret, M_ret.
    rewrite Hpag. cbn [fst snd]. rewrite Hrun.
    unfold intercept. fold (raw_page query). fold (raw_limit query).
    rewrite Hp, Hl.
    cbn [resp_data resp_total resp_page resp_totalPages
         UserServiceV0.data UserServiceV0.total UserServiceV0.page
         UserServiceV0.totalPages default].
    destruct (ceil_div_least (Z.of_nat (length db)) vl)
      as (c & Hc & Hc1 & Hc2); [lia|].
    rewrite Hc.
    assert (Js.num_or (Some (JNum (Z.max 1 p))) (JNum p)
            = JNum (Z.max 1 p)) as ->.
    { simpl. destruct (Z.eqb_spec (Z.max 1 p) 0); [lia|done]. }
    assert (Js.num_or (Some (JNum (Z.of_nat (length db)))) (JNum 0)
            = JNum (Z.of_nat (length db))) as ->.
    { simpl. by destruct (Z.eqb_spec (Z.of_nat (length db)) 0) as [->|]. }
    eexists _, vl. split; [reflexivity|].
    cbn [res_data res_meta QueryHelper.total QueryHelper.page
         QueryHelper.limit QueryHelper.totalPages QueryHelper.hasNextPage].
    unfold id. rewrite ?Hc.
    split; [done|]. split; [done|]. split; [|split].
    { rewrite length_fmap, length_take, length_drop, Hperm.
      assert (0 ≤ (Z.max 1 p - 1) * vl) by nia. lia. }
    { intros e (u & -> & Hu)%list_elem_of_fmap.
      apply subseteq_take, subseteq_drop in Hu. rewrite Hperm in Hu.
      by exists u. }
    do 3 (split; [done|]). split.
    + intros Hdb.
      assert (0 < Z.of_nat (length db)) by (destruct db; [done|simpl; lia]).
      assert (Js.num_or (Some (JNum c))
                (Js.ceil_div (JNum (Z.of_nat (length db))) (JNum l))
              = JNum c) as ->.
      { cbn [Js.num_or Js.truthy].
        destruct (Z.eqb_spec c 0); [nia|done]. }
      split; [done|]. unfold Js.lt. rewrite Z.ltb_lt. split; intros; nia.
    + intros ->. simpl length in *.
      assert (c = 0) as -> by nia. done.
  - intros p l Hp Hl Hbig.
    destruct (Pagination_numeric variant query p l Hp Hl)
      as (vl & Hpag & Hvl).
    unfold UserControllerV0.findAll, mbind, M_bind.
    cbv zeta. rewrite Hpag. cbn [fst snd].
    rewrite findAll_v0_overflow; [done|]. nia.
  - intros H%(Pagination_invalid variant).
    unfold UserControllerV0.findAll, mbind, M_bind.
    cbv zeta. by rewrite findAll_v0_invalid.
Qed.

End ListRoutes.

Section ListRoutesExamples.

Import PrismaUser PaginationInterceptor.
#[local] Arguments User_object : simpl never.
#[local] Arguments UserServiceBase.excludePassword : simpl never.

#[local] Existing Instance database0.

(** [?limit=1&q=site] *)
Definition search_site : PaginationWithSearchDto.t :=
  {| PaginationWithSearchDto.page := None;
     PaginationWithSearchDto.limit := Some (JNum 1);
     PaginationWithSearchDto.sortBy := None;
     PaginationWithSearchDto.sortOrder := None;
     PaginationWithSearchDto.q := Some (str "site") |}.

Lemma findAll_next_page_witness :
  ∃ page,
    UserService.findAll search_site db1 = (inr page, db1)
    ∧ listed search_site db1 = [carol; dave]
    ∧ UserService.data page = [entity_of dave]
    ∧ QueryHelper.hasNextPage (UserService.meta page) = true
    ∧ QueryHelper.hasPreviousPage (UserService.meta page) = false.
Proof.
  destruct (findAll_next_page search_site db1 1 1
              eq_refl ltac:(lia) eq_refl ltac:(lia) ltac:(lia) ltac:(lia)
              ltac:(by eexists))
    as (page & Hrun & Hnext & Hprev & _).
  exists page. split; [done|]. split; [reflexivity|]. split; [|split].
  - rewrite findAll_run in Hrun. vm_compute in Hrun.
    injection Hrun as <-. reflexivity.
  - apply Hnext. vm_compute. reflexivity.
  - apply not_true_is_false. intros H%Hprev. lia.
Defined.

(** [?page=100000000000000000000] *)
Definition far_page_query : Query :=
  {[ str "page" := str "100000000000000000000" ]}.

Lemma list_route_witness :
  (∃ out,
     UserControllerV0.findAll UserControllerV0.FirstVariant
       out_of_range_query db0 = (inr (OPaginated out), db0)
     ∧ Z.of_nat (length (res_data out)) = Z.of_nat (length db0)
     ∧ QueryHelper.page (res_meta out) = JNum 1
     ∧ QueryHelper.limit (res_meta out) = JNum 9999
     ∧ QueryHelper.totalPages (res_meta out) = JNum 1)
  ∧ UserControllerV0.findAll UserControllerV0.FirstVariant
      far_page_query db0
    = (inl InternalServerErrorException, db0)
  ∧ UserControllerV0.findAll UserControllerV0.SecondVariant
      non_numeric_query db0
    = (inl InternalServerErrorException, db0).
Proof.
  destruct (list_route UserControllerV0.FirstVariant out_of_range_query db0)
    as [H _].
  destruct (H (-5) 9999 eq_refl eq_refl ltac:(lia) ltac:(lia))
    as (out & vl & Hrun & Hvl & _ & Hlen & _ & _ & Hpage & Hlimit & Hp & _).
  destruct (list_route UserControllerV0.FirstVariant far_page_query db0)
    as (_ & Hfar & _).
  destruct (list_route UserControllerV0.SecondVariant non_numeric_query db0)
    as (_ & _ & H').
  split; [|split; [|apply H'; by left]].
  - exists out. split; [done|].
    vm_compute in Hvl. injection Hvl as <-.
    destruct Hp as [Hp _]; [done|].
    split; [rewrite Hlen; vm_compute; reflexivity|]. by rewrite Hp.
  - apply (Hfar 100000000000000000000 10); [reflexivity|reflexivity|lia].
Defined.

End ListRoutesExamples.

Section PaginationBounds.

(** X18.  Both variants of the decorator return a descriptor within the bounds
    ([page >= 1], [1 <= limit <= 100], [skip = (page - 1) * limit >= 0])
    exactly when both query values, after the defaults ['1'] and ['10'],
    parse to a number. *)
Theorem Pagination_bounds_iff (query : Query) :
  (let r := PaginationV1.Pagination query in
   descriptor_ok (PaginationV1.page r) (PaginationV1.limit r)
     (PaginationV1.skip r)
   ↔ Js.parseInt (raw_page query) ≠ JNaN
     ∧ Js.parseInt (raw_limit query) ≠ JNaN)
  ∧ (let r := PaginationV2.Pagination query in
     descriptor_ok (PaginationV2.page r) (PaginationV2.limit r)
       (PaginationV2.skip r)
     ↔ Js.parseInt (raw_page query) ≠ JNaN
       ∧ Js.parseInt (raw_limit query) ≠ JNaN).
Proof. split; [apply PaginationV1_ok_iff|apply PaginationV2_ok_iff]. Qed.

End PaginationBounds.

Section UserInvariantExample.

#[local] Existing Instance database0.

Lemma UserService_preserves_users_ok_witness :
  users_ok db0
  ∧ users_ok (UserService.remove env0 (User.id alice) db0).2
  ∧ users_ok (UserService.update env0 (User.id alice) rename_alice db0).2.
Proof.
  destruct (UserService_preserves_users_ok env0)
    as (_ & _ & _ & Hupdate & Hremove & _).
  split; [exact db0_ok|]. split.
  - apply Hremove. exact db0_ok.
  - apply Hupdate. exact db0_ok.
Defined.

End UserInvariantExample.

Section ValidatedListing.

Context {database : Database}.

Import PrismaUser.

#[local] Arguments User_object : simpl never.
#[local] Arguments UserServiceBase.excludePassword : simpl never.

Lemma validated_page_limit (dto : PaginationWithSearchDto.t) :
  PaginationDto.validate dto = true →
  ∃ p l,
    Js.num_or (PaginationWithSearchDto.page dto) (JNum 1) = JNum p
    ∧ Js.num_or (PaginationWithSearchDto.limit dto) (JNum 10) = JNum l
    ∧ 1 ≤ p ∧ 1 ≤ l ≤ 100.
Proof.
  unfold PaginationDto.validate, ClassValidator.IsOptional,
    ClassValidator.IsInt, ClassValidator.Min, ClassValidator.Max.
  intros [Hp Hl]%andb_true_iff.
  assert (∃ p, Js.num_or (PaginationWithSearchDto.page dto) (JNum 1)
               = JNum p ∧ 1 ≤ p) as (p & Hp' & Hp1).
  { destruct (PaginationWithSearchDto.page dto) as [[p| | |]|];
      try done; [|by exists 1].
    apply andb_true_iff in Hp as [_ Hp%Z.leb_le].
    exists p. split; [|done]. simpl.
    destruct (Z.eqb_spec p 0); [lia|done]. }
  assert (∃ l, Js.num_or (PaginationWithSearchDto.limit dto) (JNum 10)
               = JNum l ∧ 1 ≤ l ≤ 100) as (l & Hl' & Hl1).
  { destruct (PaginationWithSearchDto.limit dto) as [[l| | |]|];
      try done; [|exists 10; split; [done|lia]].
    apply andb_true_iff in Hl as [[_ H1%Z.leb_le]%andb_true_iff H2%Z.leb_le].
    exists l. split; [|lia]. simpl.
    destruct (Z.eqb_spec l 0); [lia|done]. }
  by exists p, l.
Qed.

(** X30.  A query that passes the validation of [PaginationDto] ([page]
    an integer of at least 1, [limit] an integer from 1 to 100, each
    optional) has a page [p >= 1] and a limit [l] from 1 to 100 after the
    defaults.  If it sorts by a column, or by nothing, and
    [(p - 1) * l] is small enough to be exact in a JavaScript number,
    [findAll] returns a page of at most [l], hence at most 100, users,
    and [meta] carries [p] and [l].  The validation puts no upper bound
    on [page]: a page beyond 2^63 is valid, but its [skip] does not fit
    the 64 bits of the database client and the query ends as an internal
    error.  Nor does the validation look at what [sortBy] names: with a
    [sortBy] that is not a column the validated query ends as an
    internal error, too. *)
Theorem validated_findAll (dto : PaginationWithSearchDto.t) (db : UserDB) :
  PaginationDto.validate dto = true →
  ∃ p l,
    Js.num_or (PaginationWithSearchDto.page dto) (JNum 1) = JNum p
    ∧ Js.num_or (PaginationWithSearchDto.limit dto) (JNum 10) = JNum l
    ∧ 1 ≤ p ∧ 1 ≤ l ≤ 100
    ∧ (is_Some (sort_column (list_order dto).1) → (p - 1) * l < 2 ^ 53 →
       ∃ page,
         UserService.findAll dto db = (inr page, db)
         ∧ QueryHelper.page (UserService.meta page) = JNum p
         ∧ QueryHelper.limit (UserService.meta page) = JNum l
         ∧ Z.of_nat (length (UserService.data page)) ≤ l)
    ∧ (2 ^ 63 < p →
       UserService.findAll dto db = (inl InternalServerErrorException, db))
    ∧ (sort_column (list_order dto).1 = None →
       UserService.findAll dto db = (inl InternalServerErrorException, db)).
Proof.
  intros (p & l & Hp & Hl & Hp1 & Hl1)%validated_page_limit.
  exists p, l. do 4 (split; [done|]).
  rewrite findAll_run. unfold QueryHelper.getPaginationOptions.
  rewrite Hp, Hl. cbv zeta. cbn [QueryHelper.opt_skip QueryHelper.opt_limit
    QueryHelper.opt_page]. rewrite skip_value.
  split; [|split].
  - intros Hcol Hskip.
    destruct (order_rows_some (list_order dto) (JNum ((p - 1) * l)) (JNum l)
                (listed dto db) Hcol) as (rows & -> & Hperm).
    rewrite paginate_forward by nia.
    eexists. split; [reflexivity|].
    cbn [UserService.meta UserService.data]. unfold QueryHelper.buildMeta.
    cbn [QueryHelper.page QueryHelper.limit].
    do 2 (split; [done|]).
    rewrite length_fmap, length_take. lia.
  - intros Hbig. destruct (order_rows _ _ _ _); [|done].
    rewrite paginate_overflow; [done|]. left. nia.
  - intros Hcol. unfold order_rows. by rewrite Hcol.
Qed.

(** [?sortBy=age] *)
Definition sort_by_age : PaginationWithSearchDto.t :=
  {| PaginationWithSearchDto.page := None;
     PaginationWithSearchDto.limit := None;
     PaginationWithSearchDto.sortBy := Some (str "age");
     PaginationWithSearchDto.sortOrder := None;
     PaginationWithSearchDto.q := None |}.

(** [?page=100000000000000000000] *)
Definition far_page : PaginationWithSearchDto.t :=
  {| PaginationWithSearchDto.page := Some (JNum 100000000000000000000);
     PaginationWithSearchDto.limit := None;
     PaginationWithSearchDto.sortBy := None;
     PaginationWithSearchDto.sortOrder := None;
     PaginationWithSearchDto.q := None |}.

End ValidatedListing.

Section ValidatedListingExamples.

Import PrismaUser.
#[local] Arguments User_object : simpl never.
#[local] Arguments UserServiceBase.excludePassword : simpl never.

#[local] Existing Instance database0.

Lemma validated_findAll_witness :
  PaginationDto.validate default_list = true
  ∧ (∃ page l, UserService.findAll default_list db0 = (inr page, db0)
       ∧ QueryHelper.limit (UserService.meta page) = JNum l
       ∧ Z.of_nat (length (UserService.data page)) ≤ l ≤ 100)
  ∧ PaginationDto.validate sort_by_age = true
  ∧ UserService.findAll sort_by_age db0
    = (inl InternalServerErrorException, db0)
  ∧ PaginationDto.validate far_page = true
  ∧ UserService.findAll far_page db0
    = (inl InternalServerErrorException, db0).
Proof.
  split; [reflexivity|]. split; [|split; [reflexivity|split;
    [|split; [reflexivity|]]]].
  - destruct (validated_findAll default_list db0 eq_refl)
      as (p & l & Hp & Hl & _ & Hl1 & H & _).
    injection Hp as <-. injection Hl as <-.
    destruct H as (page & Hrun & _ & Hlimit & Hlen); [by eexists|lia|].
    exists page, 10. split; [done|]. split; [done|]. lia.
  - destruct (validated_findAll sort_by_age db0 eq_refl)
      as (p & l & _ & _ & _ & _ & _ & _ & H).
    by apply H.
  - destruct (validated_findAll far_page db0 eq_refl)
      as (p & l & Hp & _ & _ & _ & _ & H & _).
    injection Hp as <-. apply H. lia.
Defined.

End ValidatedListingExamples.
